(** * Nadfun trading SDK: trade execution and event pipeline

    A shallow embedding of the parts of the SDK that carry invariants:
    slippage arithmetic, gas estimation, the trade executor, the
    chronological order shared by indexer and stream, the historical
    indexer, the stream life cycle, DEX pool discovery and the two bots.

    Conventions.
    - A JavaScript [bigint] is a [Z]; a [number] holding a block number,
      an index or a millisecond clock reading is a [Z] as well; the one
      fractional [number] of the code, a slippage percentage, is a [Q].
    - A promise that resolves or rejects is a [Result]: [Ok v] or
      [Throw t], [t] being the thrown value.
    - Network collaborators (RPC node, wallet, lens and token contracts)
      are records of response functions, consulted by the primitives of a
      small state-and-exception monad that also records what was sent. *)

From Stdlib Require Import ZArith QArith Qround Qabs List String Ascii Lia Sorted Permutation DecimalString.
From stdpp Require Import base option list strings gmap.

Local Open Scope Z_scope.

(* ===================================================================== *)
(** * Part I: definitions *)
(* ===================================================================== *)

(** ** Thrown values and results *)

(** An [Error] object: constructor name, message and, for the errors of
    the RPC layer, the revert data they carry. *)
Record JsError := mkJsError {
  err_name : string;
  err_message : string;
  err_data : option string;
}.

(** JavaScript can throw anything; [error instanceof Error] tells the two
    cases apart. *)
Inductive Thrown :=
| ThrownError (e : JsError)
| ThrownValue (v : string).

(** [new Error(msg)] *)
Definition new_Error (msg : string) : Thrown :=
  ThrownError (mkJsError "Error" msg None).

(** [new TypeError(msg)], [new RangeError(msg)]: what [BigInt] throws. *)
Definition new_TypeError (msg : string) : Thrown :=
  ThrownError (mkJsError "TypeError" msg None).

Inductive Result (A : Type) :=
| Ok (a : A)
| Throw (t : Thrown).
Arguments Ok {A} a.
Arguments Throw {A} t.

Definition is_ok {A} (r : Result A) : bool :=
  match r with Ok _ => true | Throw _ => false end.

(** ** Strings *)

Definition lower_ascii (c : ascii) : ascii :=
  let n := nat_of_ascii c in
  if ((65 <=? n) && (n <=? 90))%nat then ascii_of_nat (n + 32) else c.

(** [String.prototype.toLowerCase] on the ASCII range, which is the range
    of hexadecimal addresses. *)
Fixpoint toLowerCase (s : string) : string :=
  match s with
  | EmptyString => EmptyString
  | String c s' => String (lower_ascii c) (toLowerCase s')
  end.

(** ** Array.prototype.sort *)

(** [arr.sort(comparefn)] is a stable sort: with a consistent comparator
    the outcome is the one ordered arrangement of the elements in which
    elements that compare equal keep their input order.  Insertion from
    the right end computes exactly that arrangement: an element goes in
    front of the first element it does not exceed. *)
Section ArraySort.
Context {T : Type}.
Variable comparefn : T -> T -> Z.

Definition precedes (a b : T) : bool := comparefn a b <=? 0.

Fixpoint sorted_insert (x : T) (l : list T) : list T :=
  match l with
  | [] => [x]
  | y :: l' => if precedes x y then x :: y :: l' else y :: sorted_insert x l'
  end.

Definition array_sort (l : list T) : list T := foldr sorted_insert [] l.
End ArraySort.

(** ** Chronological order (stream/curve/parser.ts, stream/dex/parser.ts) *)

(** [T extends { blockNumber: number; transactionIndex: number; logIndex: number }] *)
Class Chronological (T : Type) := {
  blockNumber : T -> Z;
  transactionIndex : T -> Z;
  logIndex : T -> Z;
}.

(** The comparator handed to [events.sort]. *)
Definition compareChronologically `{Chronological T} (a b : T) : Z :=
  if negb (blockNumber a =? blockNumber b) then blockNumber a - blockNumber b
  else if negb (transactionIndex a =? transactionIndex b)
       then transactionIndex a - transactionIndex b
       else logIndex a - logIndex b.

(** Contents of the array after [events.sort(...)]. *)
Definition chronological_sort `{Chronological T} (events : list T) : list T :=
  array_sort compareChronologically events.

(** The lexicographic key order the result is meant to respect. *)
Definition key_le `{Chronological T} (a b : T) : Prop :=
  blockNumber a < blockNumber b \/
  (blockNumber a = blockNumber b /\
   (transactionIndex a < transactionIndex b \/
    (transactionIndex a = transactionIndex b /\ logIndex a <= logIndex b))).

(** Arrays are objects: a variable holds a reference into the heap, and
    [sort] rewrites the cell the reference points to. *)
Abbreviation ArrayRef := positive.
Abbreviation Heap T := (gmap positive (list T)).

(** [sortEventsChronologically(events)]: [return events.sort(...)], the
    sorted array being the argument itself. *)
Definition sortEventsChronologically `{Chronological T}
    (events : ArrayRef) (h : Heap T) : ArrayRef * Heap T :=
  (events, alter chronological_sort events h).

(** ** Bonding-curve events (types/curve.ts, stream/curve/parser.ts) *)

Inductive CurveEventType := Create | Buy | Sell | Sync | Lock | Listed.

(** String values of the [CurveEventType] enum. *)
Definition CurveEventType_value (t : CurveEventType) : string :=
  match t with
  | Create => "CurveCreate"
  | Buy => "CurveBuy"
  | Sell => "CurveSell"
  | Sync => "CurveSync"
  | Lock => "CurveTokenLocked"
  | Listed => "CurveTokenListed"
  end.

(** What viem's [parseEventLogs] yields for a log that matches one of the
    six items of [CURVE_EVENT_ABIS]: the event name picks the constructor,
    the arguments are its fields. *)
Inductive CurveArgs :=
| CurveCreateArgs (creator token pool name symbol tokenURI : string)
                  (virtualMon virtualToken targetTokenAmount : Z)
| CurveBuyArgs (sender token : string) (amountIn amountOut : Z)
| CurveSellArgs (sender token : string) (amountIn amountOut : Z)
| CurveSyncArgs (token : string)
                (realMonReserve realTokenReserve virtualMonReserve virtualTokenReserve : Z)
| CurveTokenLockedArgs (token : string)
| CurveTokenListedArgs (token pool : string).

Definition args_token (a : CurveArgs) : string :=
  match a with
  | CurveCreateArgs _ t _ _ _ _ _ _ _ => t
  | CurveBuyArgs _ t _ _ => t
  | CurveSellArgs _ t _ _ => t
  | CurveSyncArgs t _ _ _ _ => t
  | CurveTokenLockedArgs t => t
  | CurveTokenListedArgs t _ => t
  end.

(** A raw log.  [log_decoded] is the outcome of decoding it against the
    ABI table: [None] when nothing matches or decoding throws. *)
Record Log := mkLog {
  log_blockNumber : Z;
  log_transactionHash : string;
  log_transactionIndex : Z;
  log_logIndex : Z;
  log_address : string;
  log_decoded : option CurveArgs;
}.

(** Type-specific fields of a parsed event. *)
Inductive CurveEventFields :=
| CreateFields (creator pool name symbol tokenURI : string)
               (virtualMon virtualToken targetTokenAmount : Z)
| BuyFields (sender : string) (amountIn amountOut : Z)
| SellFields (sender : string) (amountIn amountOut : Z)
| SyncFields (realMonReserve realTokenReserve virtualMonReserve virtualTokenReserve : Z)
| LockFields
| ListedFields (pool : string).

Record BondingCurveEvent := mkEvent {
  ev_blockNumber : Z;
  ev_transactionHash : string;
  ev_transactionIndex : Z;
  ev_logIndex : Z;
  ev_address : string;
  ev_token : string;
  ev_timestamp : option Z;
  ev_type : string;
  ev_fields : CurveEventFields;
}.

#[export] Instance BondingCurveEvent_chronological : Chronological BondingCurveEvent := {
  blockNumber := ev_blockNumber;
  transactionIndex := ev_transactionIndex;
  logIndex := ev_logIndex;
}.

(** [parseBondingCurveEvent(log, timestamp?)] *)
Definition parseBondingCurveEvent (log : Log) (timestamp : option Z)
    : option BondingCurveEvent :=
  match log_decoded log with
  | None => None
  | Some parsed =>
    let baseEvent := mkEvent (log_blockNumber log) (log_transactionHash log)
                             (log_transactionIndex log) (log_logIndex log)
                             (log_address log) (args_token parsed) timestamp in
    Some match parsed with
    | CurveCreateArgs creator _ pool name symbol tokenURI vm vt target =>
        baseEvent "CurveCreate" (CreateFields creator pool name symbol tokenURI vm vt target)
    | CurveBuyArgs sender _ amountIn amountOut =>
        baseEvent "CurveBuy" (BuyFields sender amountIn amountOut)
    | CurveSellArgs sender _ amountIn amountOut =>
        baseEvent "CurveSell" (SellFields sender amountIn amountOut)
    | CurveSyncArgs _ rm rt vm vt =>
        baseEvent "CurveSync" (SyncFields rm rt vm vt)
    | CurveTokenLockedArgs _ =>
        baseEvent "CurveTokenLocked" LockFields
    | CurveTokenListedArgs _ pool =>
        baseEvent "CurveListed" (ListedFields pool)
    end
  end.

(** ** Indexer (stream/curve/indexer.ts) *)

(** The chain as the indexer sees it through [getLogs] and
    [getBlockNumber]: a head and, for every block, the logs it holds in
    their order of emission.  The RPC layer is taken to be reliable. *)
Record Chain := mkChain {
  chain_head : Z;
  chain_logs : Z -> list Log;
}.

Fixpoint blocks_from (start : Z) (count : nat) : list Z :=
  match count with
  | O => []
  | S n => start :: blocks_from (start + 1) n
  end.

(** The block numbers [fromBlock .. toBlock]; empty when [toBlock < fromBlock]. *)
Definition block_range (fromBlock toBlock : Z) : list Z :=
  blocks_from fromBlock (Z.to_nat (toBlock - fromBlock + 1)).

(** [publicClient.getLogs({ address, fromBlock, toBlock })] *)
Definition getLogs (c : Chain) (address : string) (fromBlock toBlock : Z) : list Log :=
  filter (fun l => log_address l = address)
         (flat_map (chain_logs c) (block_range fromBlock toBlock)).

Definition set_has (s : list string) (x : string) : bool :=
  bool_decide (x ∈ s).

(** The body of the [for] loop of [processLogs]: [Some event] when the log
    is pushed, [None] on each [continue]. *)
Definition keep_log (eventTypes : option (list CurveEventType))
    (tokenFilter : option (list string)) (log : Log) : option BondingCurveEvent :=
  let tokenSet := fmap (map toLowerCase) tokenFilter in
  let eventTypeSet := fmap (map CurveEventType_value) eventTypes in
  match parseBondingCurveEvent log None with
  | None => None
  | Some event =>
    if match eventTypeSet with
       | Some s => negb (set_has s (ev_type event))
       | None => false
       end
    then None
    else if match tokenSet with
            | Some s => negb (set_has s (toLowerCase (ev_token event)))
            | None => false
            end
    then None
    else Some event
  end.

(** [Indexer.processLogs] *)
Definition processLogs (logs : list Log) (eventTypes : option (list CurveEventType))
    (tokenFilter : option (list string)) : list BondingCurveEvent :=
  chronological_sort (omap (keep_log eventTypes tokenFilter) logs).

Section Indexer.
Variable chain : Chain.
Variable bondingCurveAddress : string.

(** [Indexer.fetchEvents] *)
Definition fetchEvents (fromBlock toBlock : Z)
    (eventTypes : option (list CurveEventType)) (tokenFilter : option (list string))
    : list BondingCurveEvent :=
  processLogs (getLogs chain bondingCurveAddress fromBlock toBlock) eventTypes tokenFilter.

(** The [while] loop of [fetchAllEvents]; one unit of fuel per
    iteration, [None] when the fuel runs out before the loop exits. *)
Fixpoint fetchAllEvents_loop (fuel : nat) (currentBlock targetBlock batchSize : Z)
    (eventTypes : option (list CurveEventType)) (tokenFilter : option (list string))
    (allEvents : list BondingCurveEvent) : option (list BondingCurveEvent) :=
  match fuel with
  | O => None
  | S fuel' =>
    if currentBlock <=? targetBlock then
      let toBlock := Z.min (currentBlock + batchSize - 1) targetBlock in
      let events := fetchEvents currentBlock toBlock eventTypes tokenFilter in
      let allEvents := allEvents ++ events in
      if toBlock >=? targetBlock then Some allEvents
      else fetchAllEvents_loop fuel' (toBlock + 1) targetBlock batchSize
                               eventTypes tokenFilter allEvents
    else Some allEvents
  end.

(** [Indexer.fetchAllEvents] *)
Definition fetchAllEvents (fuel : nat) (startBlock batchSize : Z)
    (eventTypes : option (list CurveEventType)) (tokenFilter : option (list string))
    : option (list BondingCurveEvent) :=
  let targetBlock := chain_head chain in
  fmap chronological_sort
       (fetchAllEvents_loop fuel startBlock targetBlock batchSize eventTypes tokenFilter []).
End Indexer.

(** ** Slippage arithmetic (trading/slippage.ts) *)

Definition Qlt_bool (x y : Q) : bool := negb (Qle_bool y x).

Definition slippage_out_of_range : Thrown :=
  new_Error "Slippage percent must be between 0 and 100 (exclusive)".

(** [calculateMinAmountOut(amountOut, slippagePercent)].  The percentage
    is an exact rational; [/] on [bigint] truncates toward zero. *)
Definition calculateMinAmountOut (amountOut : Z) (slippagePercent : Q) : Result Z :=
  if Qlt_bool slippagePercent 0 || Qle_bool 100 slippagePercent then
    Throw slippage_out_of_range
  else
    let slippageBp := Qfloor (slippagePercent * 100) in
    let remainingBp := 10000 - slippageBp in
    Ok (Z.quot (amountOut * remainingBp) 10000).

(** [calculateMaxAmountIn(amountIn, slippagePercent)] *)
Definition calculateMaxAmountIn (amountIn : Z) (slippagePercent : Q) : Result Z :=
  if Qlt_bool slippagePercent 0 || Qle_bool 100 slippagePercent then
    Throw slippage_out_of_range
  else
    let slippageBp := Qfloor (slippagePercent * 100) in
    let totalBp := 10000 + slippageBp in
    Ok (Z.quot (amountIn * totalBp) 10000).

(** ** A state-and-exception monad for asynchronous code *)

(** A computation reads and changes a state and either returns or throws;
    what it changed before throwing stays changed, as in JavaScript. *)
Definition Eff (S A : Type) : Type := S -> Result A * S.

Definition ret {S A} (a : A) : Eff S A := fun s => (Ok a, s).

Definition throw {S A} (t : Thrown) : Eff S A := fun s => (Throw t, s).

Definition bind {S A B} (m : Eff S A) (k : A -> Eff S B) : Eff S B :=
  fun s => match m s with
           | (Ok a, s') => k a s'
           | (Throw t, s') => (Throw t, s')
           end.

(** [try { m } catch (error) { handler error }] *)
Definition try_catch {S A} (m : Eff S A) (handler : Thrown -> Eff S A) : Eff S A :=
  fun s => match m s with
           | (Ok a, s') => (Ok a, s')
           | (Throw t, s') => handler t s'
           end.

Definition get {S} : Eff S S := fun s => (Ok s, s).

Definition modify {S} (f : S -> S) : Eff S unit := fun s => (Ok tt, f s).

(** A synchronous call that returns or throws. *)
Definition lift_result {S A} (r : Result A) : Eff S A := fun s => (r, s).

(** Run a computation on the second component of a larger state. *)
Definition on_world {L S A} (m : Eff S A) : Eff (L * S) A :=
  fun ls => let '(r, s') := m (snd ls) in (r, (fst ls, s')).

Declare Scope eff_scope.
Delimit Scope eff_scope with eff.
Notation "x <- m ;; k" := (bind m (fun x => k))
  (at level 100, m at next level, right associativity) : eff_scope.
Notation "m ;;; k" := (bind m (fun _ => k))
  (at level 100, right associativity) : eff_scope.

(** [for (const x of l) { body x }] *)
Fixpoint for_each {S A} (l : list A) (body : A -> Eff S unit) : Eff S unit :=
  match l with
  | [] => ret tt
  | x :: l' => bind (body x) (fun _ => for_each l' body)
  end.

(** [error instanceof Error ? error.message : 'Unknown error'] *)
Definition message_or_unknown (error : Thrown) : string :=
  match error with
  | ThrownError e => err_message e
  | ThrownValue _ => "Unknown error"
  end.

(** [error.message || String(error)] *)
Definition message_or_string (error : Thrown) : string :=
  match error with
  | ThrownError e =>
      if String.eqb (err_message e) "" then err_name e else err_message e
  | ThrownValue v => v
  end.

(** ** The chain collaborator *)

(** Calldata: the router function called and the fields of its one
    struct argument, as handed to [encodeFunctionData].  The bytes that
    viem returns are represented by the call they encode (ABI encoding is
    injective); that viem refuses some arguments is [encodeFunctionData]
    below. *)
Inductive CallData :=
| encode_buy (amountOutMin : Z) (token to : string) (deadline : Z)
| encode_sell (amountIn amountOutMin : Z) (token to : string) (deadline : Z)
| encode_sellPermit (amountIn amountOutMin amountAllowance : Z) (token to : string)
                    (deadline : Z) (v : Z) (r s : string).

(** Argument of [publicClient.estimateGas]. *)
Record EstimateGasRequest := mkEstimateGasRequest {
  eg_to : string;
  eg_account : string;
  eg_value : option Z;
  eg_data : CallData;
}.

(** Argument of [walletClient.sendTransaction]. *)
Record TxRequest := mkTxRequest {
  tx_account : string;
  tx_to : string;
  tx_data : CallData;
  tx_value : option Z;
  tx_gas : option Z;
  tx_gasPrice : option Z;
  tx_nonce : option Z;
}.

Record PermitSignature := mkPermitSignature {
  permit_v : Z;
  permit_r : string;
  permit_s : string;
  permit_nonce : Z;
}.

(** What the process can observe of the outside: the millisecond clock,
    how many collaborator calls it has made, and the transactions it has
    handed to the wallet, oldest first. *)
Record World := mkWorld {
  clock : Z;
  calls : nat;
  submitted : list TxRequest;
}.

(** The collaborators' behaviour: the answer to a call may depend on the
    request and on how many calls came before it, so that an endpoint can
    work at one moment and fail at the next.  The methods of [Token]
    (token/token.ts) and the lens and factory reads count as one call
    each; [viem_parseUnits] and [viem_formatUnits] are viem's pure
    decimal parser and printer.  [viem_encodingError] is the error viem's
    ABI encoder throws for the arguments of a router call, if any:
    [routerAbi] (abis/router.ts) types the fields uint256, uint8, address
    and bytes32, and the encoder throws for a number out of range, an
    invalid address or bytes of the wrong size. *)
Record Node := mkNode {
  rpc_latency : nat -> Z;
  rpc_estimateGas : nat -> EstimateGasRequest -> Result Z;
  rpc_sendTransaction : nat -> TxRequest -> Result string;
  rpc_waitForTransactionReceipt : nat -> string -> Result string;
  rpc_getBalance : nat -> string -> Result Z;
  rpc_getGasPrice : nat -> Result Z;
  lens_getAmountOut : nat -> string -> Z -> bool -> Result (string * Z);
  factory_getPool : nat -> string -> string -> Z -> Result string;
  token_getDecimals : nat -> string -> Result Z;
  token_getBalance : nat -> string -> Result Z;
  token_getAllowance : nat -> string -> string -> Result Z;
  token_approve : nat -> string -> string -> Z -> Result string;
  token_generatePermitSignature : nat -> string -> string -> Z -> Z -> Result PermitSignature;
  viem_parseUnits : string -> Z -> Result Z;
  viem_formatUnits : Z -> Z -> string;
  viem_encodingError : CallData -> option Thrown;
}.

(** [encodeFunctionData({ abi: routerAbi, functionName, args })]: a
    synchronous call that returns the calldata or throws. *)
Definition encodeFunctionData (node : Node) (args : CallData) : Result CallData :=
  match viem_encodingError node args with
  | Some error => Throw error
  | None => Ok args
  end.

Local Open Scope eff_scope.

(** [Date.now()] *)
Definition Date_now : Eff World Z := fun w => (Ok (clock w), w).

Definition after_call (node : Node) (w : World) : World :=
  mkWorld (clock w + rpc_latency node (calls w)) (S (calls w)) (submitted w).

(** [await] on a collaborator call. *)
Definition call {A} (node : Node) (respond : nat -> Result A) : Eff World A :=
  fun w => (respond (calls w), after_call node w).

(** [walletClient.sendTransaction(tx)]: the request leaves the process
    whatever the answer turns out to be. *)
Definition sendTransaction (node : Node) (tx : TxRequest) : Eff World string :=
  fun w => (rpc_sendTransaction node (calls w) tx,
            mkWorld (clock w + rpc_latency node (calls w)) (S (calls w))
                    (submitted w ++ [tx])).

(** ** Gas estimation (trading/gas.ts) *)

(** [GasEstimationParams], a union tagged by [type]. *)
Inductive GasEstimationParams :=
| GasBuy (token : string) (amountIn amountOutMin : Z) (to : string) (deadline : Z)
| GasSell (token : string) (amountIn amountOutMin : Z) (to : string) (deadline : Z)
| GasSellPermit (token : string) (amountIn amountOutMin amountAllowance : Z)
                (to : string) (deadline : Z) (v : Z) (r s : string).

(** The request each operation kind puts to [publicClient.estimateGas]:
    the calldata of the router function, the value only for a buy. *)
Definition gas_request (routerAddress : string) (params : GasEstimationParams)
    : EstimateGasRequest :=
  match params with
  | GasBuy token amountIn amountOutMin to deadline =>
      mkEstimateGasRequest routerAddress to (Some amountIn)
        (encode_buy amountOutMin token to deadline)
  | GasSell token amountIn amountOutMin to deadline =>
      mkEstimateGasRequest routerAddress to None
        (encode_sell amountIn amountOutMin token to deadline)
  | GasSellPermit token amountIn amountOutMin amountAllowance to deadline v r s =>
      mkEstimateGasRequest routerAddress to None
        (encode_sellPermit amountIn amountOutMin amountAllowance token to deadline v r s)
  end.

(** The name each operation kind carries in the error message. *)
Definition gas_operation_name (params : GasEstimationParams) : string :=
  match params with
  | GasBuy _ _ _ _ _ => "buy"
  | GasSell _ _ _ _ _ => "sell"
  | GasSellPermit _ _ _ _ _ _ _ _ _ => "sell permit"
  end.

Section Gas.
Variable node : Node.

(** [estimateBuyGas] *)
Definition estimateBuyGas (routerAddress token : string) (amountIn amountOutMin : Z)
    (to : string) (deadline : Z) : Eff World Z :=
  callData <- lift_result
                (encodeFunctionData node (encode_buy amountOutMin token to deadline)) ;;
  try_catch
    (gas <- call node (fun n => rpc_estimateGas node n
               (mkEstimateGasRequest routerAddress to (Some amountIn) callData)) ;;
     ret gas)
    (fun error => throw (new_Error
       ("Gas estimation failed for buy operation: " ++ message_or_unknown error))).

(** [estimateSellGas] *)
Definition estimateSellGas (routerAddress token : string) (amountIn amountOutMin : Z)
    (to : string) (deadline : Z) : Eff World Z :=
  callData <- lift_result
                (encodeFunctionData node
                   (encode_sell amountIn amountOutMin token to deadline)) ;;
  try_catch
    (gas <- call node (fun n => rpc_estimateGas node n
               (mkEstimateGasRequest routerAddress to None callData)) ;;
     ret gas)
    (fun error => throw (new_Error
       ("Gas estimation failed for sell operation: " ++ message_or_unknown error))).

(** [estimateSellPermitGas] *)
Definition estimateSellPermitGas (routerAddress token : string)
    (amountIn amountOutMin amountAllowance : Z) (to : string) (deadline : Z)
    (v : Z) (r s : string) : Eff World Z :=
  callData <- lift_result
                (encodeFunctionData node
                   (encode_sellPermit amountIn amountOutMin amountAllowance token to
                                      deadline v r s)) ;;
  try_catch
    (gas <- call node (fun n => rpc_estimateGas node n
               (mkEstimateGasRequest routerAddress to None callData)) ;;
     ret gas)
    (fun error => throw (new_Error
       ("Gas estimation failed for sell permit operation: " ++ message_or_unknown error))).

(** [estimateGas(publicClient, routerAddress, params)] *)
Definition estimateGas (routerAddress : string) (params : GasEstimationParams)
    : Eff World Z :=
  match params with
  | GasBuy token amountIn amountOutMin to deadline =>
      estimateBuyGas routerAddress token amountIn amountOutMin to deadline
  | GasSell token amountIn amountOutMin to deadline =>
      estimateSellGas routerAddress token amountIn amountOutMin to deadline
  | GasSellPermit token amountIn amountOutMin amountAllowance to deadline v r s =>
      estimateSellPermitGas routerAddress token amountIn amountOutMin amountAllowance
                            to deadline v r s
  end.
End Gas.

(** ** Trade executor (trading/trade.ts) *)

(** [deadline] is declared a [number] but tested for truthiness, so a
    caller can leave it out: [None] is [undefined]. *)
Record BuyParams := mkBuyParams {
  bp_token : string;
  bp_to : string;
  bp_amountIn : Z;
  bp_amountOutMin : Z;
  bp_deadline : option Z;
  bp_gasLimit : option Z;
  bp_gasPrice : option Z;
  bp_nonce : option Z;
}.

Record SellParams := mkSellParams {
  sp_token : string;
  sp_to : string;
  sp_amountIn : Z;
  sp_amountOutMin : Z;
  sp_deadline : option Z;
  sp_gasLimit : option Z;
  sp_gasPrice : option Z;
  sp_nonce : option Z;
}.

(** [SellPermitParams extends SellParams] *)
Record SellPermitParams := mkSellPermitParams {
  spp_sell : SellParams;
  spp_amountAllowance : Z;
  spp_v : Z;
  spp_r : string;
  spp_s : string;
}.

(** Truthiness of an optional number: [undefined] and [0] are falsy. *)
Definition truthy_number (x : option Z) : bool :=
  match x with
  | Some n => negb (n =? 0)
  | None => false
  end.

(** [BigInt(x)] for an optional integral number. *)
Definition BigInt (x : option Z) : Result Z :=
  match x with
  | Some n => Ok n
  | None => Throw (new_TypeError "Cannot convert undefined to a BigInt")
  end.

Section Trade.
Variable node : Node.
(** [this.account.address] *)
Variable account : string.

(** [params.deadline ? BigInt(params.deadline)
                     : BigInt(Math.floor(Date.now() / 1000) + 3600)] *)
Definition deadline_or_default (deadline : option Z) : Eff World Z :=
  if truthy_number deadline then lift_result (BigInt deadline)
  else (now <- Date_now ;; ret (now / 1000 + 3600)).

(** [Trade.getAmountOut]: the lens error is logged and re-thrown. *)
Definition getAmountOut (token : string) (amountIn : Z) (isBuy : bool)
    : Eff World (string * Z) :=
  try_catch
    (call node (fun n => lens_getAmountOut node n token amountIn isBuy))
    (fun error => throw error).

(** [Trade.buy] *)
Definition Trade_buy (params : BuyParams) (router : string) : Eff World string :=
  deadline <- deadline_or_default (bp_deadline params) ;;
  callData <- lift_result
                (encodeFunctionData node
                   (encode_buy (bp_amountOutMin params) (bp_token params)
                               (bp_to params) deadline)) ;;
  tx <- sendTransaction node
          (mkTxRequest account router callData (Some (bp_amountIn params))
                       (bp_gasLimit params) (bp_gasPrice params) (bp_nonce params)) ;;
  transactionHash <- call node (fun n => rpc_waitForTransactionReceipt node n tx) ;;
  ret transactionHash.

(** [Trade.sell] *)
Definition Trade_sell (params : SellParams) (router : string) : Eff World string :=
  deadline <- deadline_or_default (sp_deadline params) ;;
  sellData <- lift_result
                (encodeFunctionData node
                   (encode_sell (sp_amountIn params) (sp_amountOutMin params)
                                (sp_token params) (sp_to params) deadline)) ;;
  tx <- sendTransaction node
          (mkTxRequest account router sellData None
                       (sp_gasLimit params) (sp_gasPrice params) (sp_nonce params)) ;;
  transactionHash <- call node (fun n => rpc_waitForTransactionReceipt node n tx) ;;
  ret transactionHash.

(** [Trade.sellPermit] *)
Definition Trade_sellPermit (params : SellPermitParams) (router : string)
    : Eff World string :=
  let p := spp_sell params in
  deadline <- lift_result (BigInt (sp_deadline p)) ;;
  sellPermitData <- lift_result
                      (encodeFunctionData node
                         (encode_sellPermit (sp_amountIn p) (sp_amountOutMin p)
                            (spp_amountAllowance params) (sp_token p) (sp_to p) deadline
                            (spp_v params) (spp_r params) (spp_s params))) ;;
  tx <- sendTransaction node
          (mkTxRequest account router sellPermitData None
                       (sp_gasLimit p) (sp_gasPrice p) (sp_nonce p)) ;;
  transactionHash <- call node (fun n => rpc_waitForTransactionReceipt node n tx) ;;
  ret transactionHash.

(** [Trade.estimateGas] *)
Definition Trade_estimateGas (routerAddress : string) (params : GasEstimationParams)
    : Eff World Z :=
  estimatedGas <- estimateGas node routerAddress params ;;
  ret estimatedGas.
End Trade.

(** ** DEX pool discovery (stream/dex/stream.ts, stream/dex/indexer.ts) *)

Definition zero_address : string := "0x0000000000000000000000000000000000000000".

(** Truthiness of a string: only the empty string is falsy. *)
Definition truthy_string (s : string) : bool := negb (String.eqb s "").

(** [[token0, token1] = tokenAddress.toLowerCase() < wmonAddress.toLowerCase()
      ? [tokenAddress, wmonAddress] : [wmonAddress, tokenAddress]] *)
Definition pool_key (WMON tokenAddress : string) : string * string :=
  if String.ltb (toLowerCase tokenAddress) (toLowerCase WMON)
  then (tokenAddress, WMON) else (WMON, tokenAddress).

Section PoolDiscovery.
Variable node : Node.
(** [CONTRACTS.MONAD_TESTNET.WMON] and [NADS_FEE_TIER] of constants.ts. *)
Variable WMON : string.
Variable NADS_FEE_TIER : Z.

(** The factory's answer for a token when asked in world [w]. *)
Definition factory_answer (tokenAddress : string) (w : World) : Result string :=
  factory_getPool node (calls w) (fst (pool_key WMON tokenAddress))
                  (snd (pool_key WMON tokenAddress)) NADS_FEE_TIER.

(** One turn of the [for] loop of [findPoolsForTokens]: the [try] block
    with its [catch]; the result is [poolAddresses] after the turn. *)
Definition findPool_turn (poolAddresses : list string) (tokenAddress : string)
    : Eff World (list string) :=
  try_catch
    (if String.eqb (toLowerCase tokenAddress) (toLowerCase WMON) then
       ret poolAddresses
     else
       let '(token0, token1) := pool_key WMON tokenAddress in
       poolAddress <- call node (fun n =>
                        factory_getPool node n token0 token1 NADS_FEE_TIER) ;;
       if truthy_string poolAddress && negb (String.eqb poolAddress zero_address)
       then ret (poolAddresses ++ [poolAddress])
       else ret poolAddresses)
    (fun error => ret poolAddresses).

Fixpoint findPools_loop (tokenAddresses poolAddresses : list string)
    : Eff World (list string) :=
  match tokenAddresses with
  | [] => ret poolAddresses
  | tokenAddress :: rest =>
      poolAddresses' <- findPool_turn poolAddresses tokenAddress ;;
      findPools_loop rest poolAddresses'
  end.

(** [Stream.findPoolsForTokens] and [Indexer.findPoolsForTokens] *)
Definition findPoolsForTokens (tokenAddresses : list string) : Eff World (list string) :=
  findPools_loop tokenAddresses [].
End PoolDiscovery.

(** ** Streams (stream/curve/stream.ts, stream/dex/stream.ts) *)

(** A listener is a function; the model keeps its identity. *)
Abbreviation Callback := nat.

(** Live subscriptions held by the client: the handles handed out so far
    and the (handle, address) pairs still active. *)
Record Subscriptions := mkSubscriptions {
  subs_issued : nat;
  subs_active : list (nat * string);
}.

(** The transport decides which [watchEvent] calls and which unwatch
    calls throw. *)
Record Transport := mkTransport {
  watch_throws : nat -> bool;
  unwatch_throws : nat -> bool;
}.

(** [client.watchEvent(config)] / [client.watchContractEvent(config)]:
    returns the unwatch function, here its handle. *)
Definition watch (tr : Transport) (address : string) : Eff Subscriptions nat :=
  fun w =>
    let h := subs_issued w in
    if watch_throws tr h
    then (Throw (new_Error "watch failed"), mkSubscriptions (S h) (subs_active w))
    else (Ok h, mkSubscriptions (S h) (subs_active w ++ [(h, address)])).

(** Calling an unwatch function. *)
Definition unwatch (tr : Transport) (h : nat) : Eff Subscriptions unit :=
  fun w =>
    if unwatch_throws tr h
    then (Throw (new_Error "unwatch failed"), w)
    else (Ok tt, mkSubscriptions (subs_issued w)
                   (filter (fun p => negb (Nat.eqb (fst p) h)) (subs_active w))).

(** Change the object a method runs on. *)
Definition update_this {O S} (f : O -> O) : Eff (O * S) unit :=
  modify (fun os => (f (fst os), snd os)).

Definition this {O S} : Eff (O * S) O := fun os => (Ok (fst os), os).

(** *** Bonding-curve stream *)

Record CurveStream := mkCurveStream {
  cs_bondingCurveAddress : string;
  cs_eventTypes : list CurveEventType;
  cs_tokenFilter : option (list string);
  cs_listeners : gmap string Callback;
  cs_isRunning : bool;
  cs_watchFn : option nat;
  cs_reconnectAttempts : Z;
  cs_maxReconnectAttempts : Z;
  cs_reconnectDelay : Z;
}.

(** [new Stream(rpcUrl)] *)
Definition CurveStream_new (bondingCurveAddress : string) : CurveStream :=
  mkCurveStream bondingCurveAddress [] None ∅ false None 0 5 1000.

Definition cs_set_eventTypes (v : list CurveEventType) (s : CurveStream) : CurveStream :=
  mkCurveStream (cs_bondingCurveAddress s) v (cs_tokenFilter s) (cs_listeners s)
    (cs_isRunning s) (cs_watchFn s) (cs_reconnectAttempts s)
    (cs_maxReconnectAttempts s) (cs_reconnectDelay s).

Definition cs_set_tokenFilter (v : option (list string)) (s : CurveStream) : CurveStream :=
  mkCurveStream (cs_bondingCurveAddress s) (cs_eventTypes s) v (cs_listeners s)
    (cs_isRunning s) (cs_watchFn s) (cs_reconnectAttempts s)
    (cs_maxReconnectAttempts s) (cs_reconnectDelay s).

Definition cs_set_listeners (v : gmap string Callback) (s : CurveStream) : CurveStream :=
  mkCurveStream (cs_bondingCurveAddress s) (cs_eventTypes s) (cs_tokenFilter s) v
    (cs_isRunning s) (cs_watchFn s) (cs_reconnectAttempts s)
    (cs_maxReconnectAttempts s) (cs_reconnectDelay s).

Definition cs_set_isRunning (v : bool) (s : CurveStream) : CurveStream :=
  mkCurveStream (cs_bondingCurveAddress s) (cs_eventTypes s) (cs_tokenFilter s)
    (cs_listeners s) v (cs_watchFn s) (cs_reconnectAttempts s)
    (cs_maxReconnectAttempts s) (cs_reconnectDelay s).

Definition cs_set_watchFn (v : option nat) (s : CurveStream) : CurveStream :=
  mkCurveStream (cs_bondingCurveAddress s) (cs_eventTypes s) (cs_tokenFilter s)
    (cs_listeners s) (cs_isRunning s) v (cs_reconnectAttempts s)
    (cs_maxReconnectAttempts s) (cs_reconnectDelay s).

Definition cs_set_reconnectAttempts (v : Z) (s : CurveStream) : CurveStream :=
  mkCurveStream (cs_bondingCurveAddress s) (cs_eventTypes s) (cs_tokenFilter s)
    (cs_listeners s) (cs_isRunning s) (cs_watchFn s) v
    (cs_maxReconnectAttempts s) (cs_reconnectDelay s).

(** [subscribeEvents(eventTypes)] *)
Definition CurveStream_subscribeEvents (eventTypes : list CurveEventType)
    (s : CurveStream) : CurveStream :=
  cs_set_eventTypes eventTypes s.

(** [filterTokens(tokens)] *)
Definition CurveStream_filterTokens (tokens : list string) (s : CurveStream) : CurveStream :=
  cs_set_tokenFilter (Some (map toLowerCase tokens)) s.

(** [onEvent(callback)]; [id] is the random key drawn for the listener. *)
Definition CurveStream_onEvent (id : string) (callback : Callback) (s : CurveStream)
    : CurveStream :=
  cs_set_listeners (<[id := callback]> (cs_listeners s)) s.

(** [removeAllListeners()] *)
Definition CurveStream_removeAllListeners (s : CurveStream) : CurveStream :=
  cs_set_listeners ∅ s.

Section CurveStreamMethods.
Variable tr : Transport.

(** [startWatching()] *)
Definition CurveStream_startWatching : Eff (CurveStream * Subscriptions) unit :=
  try_catch
    (s <- this ;;
     watchFn <- on_world (watch tr (cs_bondingCurveAddress s)) ;;
     update_this (cs_set_watchFn (Some watchFn)))
    (fun error => ret tt).

(** [start()] *)
Definition CurveStream_start : Eff (CurveStream * Subscriptions) unit :=
  s <- this ;;
  if cs_isRunning s then ret tt
  else
    update_this (cs_set_isRunning true) ;;;
    update_this (cs_set_reconnectAttempts 0) ;;;
    (if Nat.eqb (length (cs_eventTypes s)) 0
     then update_this (CurveStream_subscribeEvents [Create; Buy; Sell; Sync; Lock; Listed])
     else ret tt) ;;;
    CurveStream_startWatching.

(** [stop()] *)
Definition CurveStream_stop : Eff (CurveStream * Subscriptions) unit :=
  s <- this ;;
  if negb (cs_isRunning s) then ret tt
  else
    match cs_watchFn s with
    | Some watchFn =>
        try_catch
          (on_world (unwatch tr watchFn) ;;;
           update_this (cs_set_watchFn None))
          (fun error => ret tt)
    | None => ret tt
    end ;;;
    update_this CurveStream_removeAllListeners ;;;
    update_this (cs_set_isRunning false) ;;;
    update_this (cs_set_reconnectAttempts 0).
End CurveStreamMethods.

(** *** DEX swap stream *)

Record DexStream := mkDexStream {
  ds_poolAddresses : list string;
  ds_listeners : gmap string Callback;
  ds_isRunning : bool;
  ds_watchFunctions : list nat;
  ds_reconnectAttempts : Z;
  ds_maxReconnectAttempts : Z;
  ds_reconnectDelay : Z;
}.

(** [new Stream(rpcUrl, poolAddresses)] *)
Definition DexStream_new (poolAddresses : list string) : DexStream :=
  mkDexStream poolAddresses ∅ false [] 0 5 1000.

Definition ds_set_listeners (v : gmap string Callback) (s : DexStream) : DexStream :=
  mkDexStream (ds_poolAddresses s) v (ds_isRunning s) (ds_watchFunctions s)
    (ds_reconnectAttempts s) (ds_maxReconnectAttempts s) (ds_reconnectDelay s).

Definition ds_set_isRunning (v : bool) (s : DexStream) : DexStream :=
  mkDexStream (ds_poolAddresses s) (ds_listeners s) v (ds_watchFunctions s)
    (ds_reconnectAttempts s) (ds_maxReconnectAttempts s) (ds_reconnectDelay s).

Definition ds_set_watchFunctions (v : list nat) (s : DexStream) : DexStream :=
  mkDexStream (ds_poolAddresses s) (ds_listeners s) (ds_isRunning s) v
    (ds_reconnectAttempts s) (ds_maxReconnectAttempts s) (ds_reconnectDelay s).

Definition ds_set_reconnectAttempts (v : Z) (s : DexStream) : DexStream :=
  mkDexStream (ds_poolAddresses s) (ds_listeners s) (ds_isRunning s)
    (ds_watchFunctions s) v (ds_maxReconnectAttempts s) (ds_reconnectDelay s).

(** [onSwap(callback)] *)
Definition DexStream_onSwap (id : string) (callback : Callback) (s : DexStream)
    : DexStream :=
  ds_set_listeners (<[id := callback]> (ds_listeners s)) s.

(** [removeAllListeners()] *)
Definition DexStream_removeAllListeners (s : DexStream) : DexStream :=
  ds_set_listeners ∅ s.

Section DexStreamMethods.
Variable tr : Transport.

(** [watchPoolEvents(poolAddress)] *)
Definition DexStream_watchPoolEvents (poolAddress : string)
    : Eff (DexStream * Subscriptions) unit :=
  try_catch
    (watchFn <- on_world (watch tr poolAddress) ;;
     update_this (fun s => ds_set_watchFunctions (ds_watchFunctions s ++ [watchFn]) s))
    (fun error => ret tt).

(** [start()] *)
Definition DexStream_start : Eff (DexStream * Subscriptions) unit :=
  s <- this ;;
  if ds_isRunning s then ret tt
  else if Nat.eqb (length (ds_poolAddresses s)) 0 then ret tt
  else
    update_this (ds_set_isRunning true) ;;;
    update_this (ds_set_reconnectAttempts 0) ;;;
    for_each (ds_poolAddresses s) DexStream_watchPoolEvents.

(** [stop()] *)
Definition DexStream_stop : Eff (DexStream * Subscriptions) unit :=
  s <- this ;;
  if negb (ds_isRunning s) then ret tt
  else
    for_each (ds_watchFunctions s)
      (fun unwatchFn => try_catch (on_world (unwatch tr unwatchFn)) (fun error => ret tt)) ;;;
    update_this (ds_set_watchFunctions []) ;;;
    update_this DexStream_removeAllListeners ;;;
    update_this (ds_set_isRunning false) ;;;
    update_this (ds_set_reconnectAttempts 0).
End DexStreamMethods.

(** ** Helpers shared by the bots *)

(** [bigint.toString()] *)
Definition toString (z : Z) : string := NilZero.string_of_int (Z.to_int z).

(** Truthiness of an optional fractional number and of an optional bigint. *)
Definition truthy_Q (x : option Q) : bool :=
  match x with
  | Some q => negb (Qeq_bool q 0)
  | None => false
  end.

Definition truthy_bool (x : option bool) : bool :=
  match x with
  | Some b => b
  | None => false
  end.

(** [a || b] on optional fractional numbers. *)
Definition or_Q (a b : option Q) : option Q := if truthy_Q a then a else b.

(** The gas price rule both bots apply to the node's price:
    multiply when the multiplier exceeds 1, then cap. *)
Definition adjust_gas_price (gasMultiplier : option Q) (maxGasPrice : option Z)
    (gasPrice : Z) : Z :=
  let finalGasPrice :=
    match gasMultiplier with
    | Some m =>
        if truthy_Q gasMultiplier && Qlt_bool 1 m
        then Z.quot (gasPrice * Qfloor (m * 100)) 100
        else gasPrice
    | None => gasPrice
    end in
  match maxGasPrice with
  | Some cap => if truthy_number maxGasPrice && (cap <? finalGasPrice) then cap
                else finalGasPrice
  | None => finalGasPrice
  end.

(** ** Sniper bot (bots/sniper.ts) *)

Record SniperConfig := mkSniperConfig {
  sc_buyAmount : string;
  sc_slippagePercent : Q;
  sc_gasMultiplier : option Q;
  sc_maxGasPrice : option Z;
  sc_minBuyInterval : option Z;
  sc_tokenWhitelist : option (list string);
  sc_tokenBlacklist : option (list string);
  (** Whether a [tokenFilter] callback is configured; its verdicts are
      inputs of the run. *)
  sc_tokenFilter : bool;
  sc_autoBuy : option bool;
}.

Record SniperStats := mkSniperStats {
  totalEvents : Z;
  totalBuys : Z;
  successfulBuys : Z;
  failedBuys : Z;
  skippedBuys : Z;
}.

Record SniperBot := mkSniperBot {
  sb_config : SniperConfig;
  sb_isRunning : bool;
  sb_lastBuyTime : Z;
  sb_buyCallbacks : list Callback;
  sb_errorCallbacks : list Callback;
  sb_stats : SniperStats;
}.

Definition default_to {A} (d : A) (x : option A) : option A :=
  match x with
  | Some _ => x
  | None => Some d
  end.

(** The constructor: [{ gasMultiplier: 1.2, minBuyInterval: 1000,
    autoBuy: true, ...config }]. *)
Definition SniperBot_new (config : SniperConfig) : SniperBot :=
  mkSniperBot
    (mkSniperConfig (sc_buyAmount config) (sc_slippagePercent config)
       (default_to (12 # 10)%Q (sc_gasMultiplier config)) (sc_maxGasPrice config)
       (default_to 1000 (sc_minBuyInterval config))
       (sc_tokenWhitelist config) (sc_tokenBlacklist config) (sc_tokenFilter config)
       (default_to true (sc_autoBuy config)))
    false 0 [] []
    (mkSniperStats 0 0 0 0 0).

Definition set_stats (f : SniperStats -> SniperStats) (b : SniperBot) : SniperBot :=
  mkSniperBot (sb_config b) (sb_isRunning b) (sb_lastBuyTime b)
    (sb_buyCallbacks b) (sb_errorCallbacks b) (f (sb_stats b)).

Definition set_lastBuyTime (v : Z) (b : SniperBot) : SniperBot :=
  mkSniperBot (sb_config b) (sb_isRunning b) v
    (sb_buyCallbacks b) (sb_errorCallbacks b) (sb_stats b).

Definition incr_totalEvents (s : SniperStats) : SniperStats :=
  mkSniperStats (totalEvents s + 1) (totalBuys s) (successfulBuys s) (failedBuys s)
    (skippedBuys s).
Definition incr_totalBuys (s : SniperStats) : SniperStats :=
  mkSniperStats (totalEvents s) (totalBuys s + 1) (successfulBuys s) (failedBuys s)
    (skippedBuys s).
Definition incr_successfulBuys (s : SniperStats) : SniperStats :=
  mkSniperStats (totalEvents s) (totalBuys s) (successfulBuys s + 1) (failedBuys s)
    (skippedBuys s).
Definition incr_failedBuys (s : SniperStats) : SniperStats :=
  mkSniperStats (totalEvents s) (totalBuys s) (successfulBuys s) (failedBuys s + 1)
    (skippedBuys s).
Definition incr_skippedBuys (s : SniperStats) : SniperStats :=
  mkSniperStats (totalEvents s) (totalBuys s) (successfulBuys s) (failedBuys s)
    (skippedBuys s + 1).

(** [onBuySuccess(callback)], [onBuyError(callback)] *)
Definition SniperBot_onBuySuccess (callback : Callback) (b : SniperBot) : SniperBot :=
  mkSniperBot (sb_config b) (sb_isRunning b) (sb_lastBuyTime b)
    (sb_buyCallbacks b ++ [callback]) (sb_errorCallbacks b) (sb_stats b).
Definition SniperBot_onBuyError (callback : Callback) (b : SniperBot) : SniperBot :=
  mkSniperBot (sb_config b) (sb_isRunning b) (sb_lastBuyTime b)
    (sb_buyCallbacks b) (sb_errorCallbacks b ++ [callback]) (sb_stats b).

(** [list.some(addr => addr.toLowerCase() === token.toLowerCase())] *)
Definition some_address_matches (addrs : list string) (token : string) : bool :=
  existsb (fun addr => String.eqb (toLowerCase addr) (toLowerCase token)) addrs.

(** A whitelist is set, is not empty, and does not list the token. *)
Definition not_whitelisted (config : SniperConfig) (event : BondingCurveEvent) : bool :=
  match sc_tokenWhitelist config with
  | Some whitelist =>
      negb (Nat.eqb (length whitelist) 0)
      && negb (some_address_matches whitelist (ev_token event))
  | None => false
  end.

(** A blacklist is set, is not empty, and lists the token. *)
Definition blacklisted (config : SniperConfig) (event : BondingCurveEvent) : bool :=
  match sc_tokenBlacklist config with
  | Some blacklist =>
      negb (Nat.eqb (length blacklist) 0)
      && some_address_matches blacklist (ev_token event)
  | None => false
  end.

(** [minBuyInterval || 1000] *)
Definition effective_interval (minBuyInterval : option Z) : Z :=
  match minBuyInterval with
  | Some n => if truthy_number minBuyInterval then n else 1000
  | None => 1000
  end.

(** Where an invocation of the handler stands.  [handleCreateEvent] is an
    [async] function: it runs until an [await] that has to wait for the
    outside, and other handlers run in between.  The two such waits that
    matter for the state of the bot are the custom token filter and the
    network round trips of the purchase. *)
Inductive Handler :=
| Finished
| AwaitingTokenFilter (event : BondingCurveEvent)
| AwaitingPurchase (event : BondingCurveEvent).

(** A call of a registered callback: which, for which token, with what
    transaction hash or error message. *)
Record Notification := mkNotification {
  note_callback : Callback;
  note_token : string;
  note_detail : string;
}.

(** What can happen to a running bot, and when (clock reading in ms):
    the stream hands a Create event to a new invocation of the handler,
    the token filter of an invocation settles, or the network work of an
    invocation is carried out. *)
Inductive Occurrence :=
| CreateEventDelivered (at_ms : Z) (event : BondingCurveEvent)
| TokenFilterSettled (at_ms : Z) (handler : nat) (shouldBuy : Result bool)
| PurchaseSettled (at_ms : Z) (handler : nat).

(** The bot together with its invocations of the handler, in order of
    creation, and the callbacks called so far. *)
Record Running := mkRunning {
  run_bot : SniperBot;
  run_world : World;
  run_handlers : list Handler;
  run_notified : list Notification;
}.

Definition at_time (at_ms : Z) (w : World) : World :=
  mkWorld at_ms (calls w) (submitted w).

(** The occurrences that carry out the network part of a purchase. *)
Definition is_purchase_settled (o : Occurrence) : Prop :=
  match o with
  | PurchaseSettled _ _ => True
  | _ => False
  end.

Section Sniper.
Variable node : Node.
Variable account : string.

(** [executeBuy], up to its first [await]: the attempt is counted and
    time-stamped before anything is asked of the network. *)
Definition executeBuy_begin (event : BondingCurveEvent)
    : Eff (SniperBot * World) Handler :=
  update_this (set_stats incr_totalBuys) ;;;
  now <- on_world Date_now ;;
  update_this (set_lastBuyTime now) ;;;
  ret (AwaitingPurchase event).

(** The end of [handleCreateEvent]: buy when auto-buy is on. *)
Definition handleCreateEvent_buy (event : BondingCurveEvent)
    : Eff (SniperBot * World) Handler :=
  b <- this ;;
  if truthy_bool (sc_autoBuy (sb_config b)) then executeBuy_begin event
  else ret Finished.

(** [handleCreateEvent], from its start to the custom filter. *)
Definition handleCreateEvent_begin (event : BondingCurveEvent)
    : Eff (SniperBot * World) Handler :=
  update_this (set_stats incr_totalEvents) ;;;
  now <- on_world Date_now ;;
  b <- this ;;
  let config := sb_config b in
  if now - sb_lastBuyTime b <? effective_interval (sc_minBuyInterval config) then
    update_this (set_stats incr_skippedBuys) ;;; ret Finished
  else if not_whitelisted config event then
    update_this (set_stats incr_skippedBuys) ;;; ret Finished
  else if blacklisted config event then
    update_this (set_stats incr_skippedBuys) ;;; ret Finished
  else if sc_tokenFilter config then ret (AwaitingTokenFilter event)
  else handleCreateEvent_buy event.

(** [handleCreateEvent], resumed with the outcome of
    [await this.config.tokenFilter(event)]. *)
Definition handleCreateEvent_resume (event : BondingCurveEvent) (shouldBuy : Result bool)
    : Eff (SniperBot * World) Handler :=
  match shouldBuy with
  | Ok true => handleCreateEvent_buy event
  | Ok false => update_this (set_stats incr_skippedBuys) ;;; ret Finished
  | Throw error => update_this (set_stats incr_skippedBuys) ;;; ret Finished
  end.

(** The [try] block of [executeBuy] up to the transaction hash. *)
Definition executeBuy_purchase (config : SniperConfig) (event : BondingCurveEvent)
    : Eff World string :=
  let tokenAddress := ev_token event in
  buyAmount <- lift_result (viem_parseUnits node (sc_buyAmount config) 18) ;;
  balance <- call node (fun n => rpc_getBalance node n account) ;;
  if balance <? buyAmount then
    throw (new_Error ("Insufficient balance: " ++ viem_formatUnits node balance 18
                      ++ " MON < " ++ sc_buyAmount config ++ " MON"))
  else
    quote <- getAmountOut node tokenAddress buyAmount true ;;
    minTokens <- lift_result (calculateMinAmountOut (snd quote) (sc_slippagePercent config)) ;;
    gasPrice <- call node (rpc_getGasPrice node) ;;
    let finalGasPrice :=
      adjust_gas_price (sc_gasMultiplier config) (sc_maxGasPrice config) gasPrice in
    now <- Date_now ;;
    let deadline := now / 1000 + 300 in
    let gasParams := GasBuy tokenAddress buyAmount minTokens account deadline in
    estimatedGas <- Trade_estimateGas node (fst quote) gasParams ;;
    let gasWithBuffer := Z.quot (estimatedGas * 120) 100 in
    Trade_buy node account
      (mkBuyParams tokenAddress account buyAmount minTokens (Some deadline)
                   (Some gasWithBuffer) (Some finalGasPrice) None)
      (fst quote).

(** The rest of [executeBuy]: the purchase, then the counters and the
    callbacks of the branch taken.  The result lists the callbacks
    called. *)
Definition executeBuy_finish (event : BondingCurveEvent)
    : Eff (SniperBot * World) (list Notification) :=
  b <- this ;;
  try_catch
    (txHash <- on_world (executeBuy_purchase (sb_config b) event) ;;
     update_this (set_stats incr_successfulBuys) ;;;
     ret (map (fun callback => mkNotification callback (ev_token event) txHash)
              (sb_buyCallbacks b)))
    (fun error =>
     update_this (set_stats incr_failedBuys) ;;;
     ret (map (fun callback =>
                 mkNotification callback (ev_token event) (message_or_string error))
              (sb_errorCallbacks b))).

Definition occur (r : Running) (o : Occurrence) : Running :=
  match o with
  | CreateEventDelivered at_ms event =>
      let '(res, (b, w)) :=
        handleCreateEvent_begin event (run_bot r, at_time at_ms (run_world r)) in
      let h := match res with Ok h => h | Throw _ => Finished end in
      mkRunning b w (run_handlers r ++ [h]) (run_notified r)
  | TokenFilterSettled at_ms i shouldBuy =>
      match run_handlers r !! i with
      | Some (AwaitingTokenFilter event) =>
          let '(res, (b, w)) :=
            handleCreateEvent_resume event shouldBuy
              (run_bot r, at_time at_ms (run_world r)) in
          let h := match res with Ok h => h | Throw _ => Finished end in
          mkRunning b w (<[i := h]> (run_handlers r)) (run_notified r)
      | _ => r
      end
  | PurchaseSettled at_ms i =>
      match run_handlers r !! i with
      | Some (AwaitingPurchase event) =>
          let '(res, (b, w)) :=
            executeBuy_finish event (run_bot r, at_time at_ms (run_world r)) in
          let notes := match res with Ok ns => ns | Throw _ => [] end in
          mkRunning b w (<[i := Finished]> (run_handlers r)) (run_notified r ++ notes)
      | _ => r
      end
  end.

Definition run (r : Running) (os : list Occurrence) : Running :=
  fold_left occur os r.
End Sniper.

(** ** Bundler bot (bots/bundler.ts) *)

(** A bundled operation; [op_type] is the string tag the [switch] of
    [execute] dispatches on. *)
Record BundledOperation := mkBundledOperation {
  op_type : string;
  op_token : string;
  op_amountIn : string;
  op_slippagePercent : option Q;
}.

Record BundlerConfig := mkBundlerConfig {
  bc_defaultSlippagePercent : option Q;
  bc_gasMultiplier : option Q;
  bc_maxGasPrice : option Z;
  bc_waitForConfirmation : option bool;
}.

(** The constructor: [{ defaultSlippagePercent: 5.0, gasMultiplier: 1.0,
    waitForConfirmation: true, ...config }]. *)
Definition BundlerBot_new (config : BundlerConfig) : BundlerConfig :=
  mkBundlerConfig (default_to 5%Q (bc_defaultSlippagePercent config))
                  (default_to 1%Q (bc_gasMultiplier config))
                  (bc_maxGasPrice config)
                  (default_to true (bc_waitForConfirmation config)).

Record BundledOperationResult := mkBundledOperationResult {
  res_operation : BundledOperation;
  res_success : bool;
  res_txHash : option string;
  res_error : option string;
  res_expectedAmount : option Z;
}.

Definition succeeded (operation : BundledOperation) (txHash : string) (expected : Z)
    : BundledOperationResult :=
  mkBundledOperationResult operation true (Some txHash) None (Some expected).

Definition failed (operation : BundledOperation) (error : string) : BundledOperationResult :=
  mkBundledOperationResult operation false None (Some error) None.

(** [results.filter(r => r.success).length] and
    [results.filter(r => !r.success).length] of the bundle summary. *)
Definition successful_count (results : list BundledOperationResult) : nat :=
  length (filter (fun r => res_success r = true) results).
Definition failed_count (results : list BundledOperationResult) : nat :=
  length (filter (fun r => res_success r = false) results).

Section Bundler.
Variable node : Node.
Variable account : string.
(** [this.config], after the constructor. *)
Variable config : BundlerConfig.

(** [operation.slippagePercent || this.config.defaultSlippagePercent || 5.0] *)
Definition bundler_slippage (operation : BundledOperation) : Q :=
  match or_Q (or_Q (op_slippagePercent operation) (bc_defaultSlippagePercent config))
             (Some 5%Q) with
  | Some q => q
  | None => 5%Q
  end.

(** [BundlerBot.getGasPrice] *)
Definition bundler_getGasPrice : Eff World Z :=
  gasPrice <- call node (rpc_getGasPrice node) ;;
  ret (adjust_gas_price (bc_gasMultiplier config) (bc_maxGasPrice config) gasPrice).

(** [BundlerBot.executeBuy] *)
Definition Bundler_executeBuy (operation : BundledOperation)
    : Eff World BundledOperationResult :=
  try_catch
    (let slippage := bundler_slippage operation in
     amountIn <- lift_result (viem_parseUnits node (op_amountIn operation) 18) ;;
     balance <- call node (fun n => rpc_getBalance node n account) ;;
     if balance <? amountIn then
       ret (failed operation
              ("Insufficient balance: " ++ toString balance ++ " < " ++ toString amountIn))
     else
       quote <- getAmountOut node (op_token operation) amountIn true ;;
       minTokens <- lift_result (calculateMinAmountOut (snd quote) slippage) ;;
       gasPrice <- bundler_getGasPrice ;;
       now <- Date_now ;;
       let deadline := now / 1000 + 300 in
       let gasParams := GasBuy (op_token operation) amountIn minTokens account deadline in
       estimatedGas <- Trade_estimateGas node (fst quote) gasParams ;;
       let gasWithBuffer := Z.quot (estimatedGas * 120) 100 in
       txHash <- Trade_buy node account
                   (mkBuyParams (op_token operation) account amountIn minTokens
                                (Some deadline) (Some gasWithBuffer) (Some gasPrice) None)
                   (fst quote) ;;
       ret (succeeded operation txHash (snd quote)))
    (fun error => ret (failed operation (message_or_string error))).

(** [BundlerBot.executeSell] *)
Definition Bundler_executeSell (operation : BundledOperation)
    : Eff World BundledOperationResult :=
  try_catch
    (let slippage := bundler_slippage operation in
     decimals <- call node (fun n => token_getDecimals node n (op_token operation)) ;;
     amountIn <- lift_result (viem_parseUnits node (op_amountIn operation) decimals) ;;
     balance <- call node (fun n => token_getBalance node n (op_token operation)) ;;
     if balance <? amountIn then
       ret (failed operation
              ("Insufficient token balance: " ++ toString balance ++ " < "
               ++ toString amountIn))
     else
       router <- getAmountOut node (op_token operation) 1 false ;;
       allowance <- call node (fun n =>
                      token_getAllowance node n (op_token operation) (fst router)) ;;
       (if allowance <? amountIn
        then _ <- call node (fun n =>
                    token_approve node n (op_token operation) (fst router) amountIn) ;;
             ret tt
        else ret tt) ;;;
       quote <- getAmountOut node (op_token operation) amountIn false ;;
       minMon <- lift_result (calculateMinAmountOut (snd quote) slippage) ;;
       gasPrice <- bundler_getGasPrice ;;
       now <- Date_now ;;
       let deadline := now / 1000 + 300 in
       let gasParams := GasSell (op_token operation) amountIn minMon account deadline in
       estimatedGas <- Trade_estimateGas node (fst router) gasParams ;;
       let gasWithBuffer := Z.quot (estimatedGas * 120) 100 in
       txHash <- Trade_sell node account
                   (mkSellParams (op_token operation) account amountIn minMon
                                 (Some deadline) (Some gasWithBuffer) (Some gasPrice) None)
                   (fst router) ;;
       ret (succeeded operation txHash (snd quote)))
    (fun error => ret (failed operation (message_or_string error))).

(** [BundlerBot.executeSellPermit] *)
Definition Bundler_executeSellPermit (operation : BundledOperation)
    : Eff World BundledOperationResult :=
  try_catch
    (let slippage := bundler_slippage operation in
     decimals <- call node (fun n => token_getDecimals node n (op_token operation)) ;;
     amountIn <- lift_result (viem_parseUnits node (op_amountIn operation) decimals) ;;
     balance <- call node (fun n => token_getBalance node n (op_token operation)) ;;
     if balance <? amountIn then
       ret (failed operation
              ("Insufficient token balance: " ++ toString balance ++ " < "
               ++ toString amountIn))
     else
       router <- getAmountOut node (op_token operation) 1 false ;;
       quote <- getAmountOut node (op_token operation) amountIn false ;;
       minMon <- lift_result (calculateMinAmountOut (snd quote) slippage) ;;
       now <- Date_now ;;
       let deadline := now / 1000 + 300 in
       let permitDeadline := deadline in
       permit <- call node (fun n =>
                   token_generatePermitSignature node n (op_token operation)
                     (fst router) amountIn permitDeadline) ;;
       gasPrice <- bundler_getGasPrice ;;
       let gasParams :=
         GasSellPermit (op_token operation) amountIn minMon amountIn account deadline
                       (permit_v permit) (permit_r permit) (permit_s permit) in
       estimatedGas <- Trade_estimateGas node (fst router) gasParams ;;
       let gasWithBuffer := Z.quot (estimatedGas * 120) 100 in
       txHash <- Trade_sellPermit node account
                   (mkSellPermitParams
                      (mkSellParams (op_token operation) account amountIn minMon
                                    (Some deadline) (Some gasWithBuffer) (Some gasPrice) None)
                      amountIn (permit_v permit) (permit_r permit) (permit_s permit))
                   (fst router) ;;
       ret (succeeded operation txHash (snd quote)))
    (fun error => ret (failed operation (message_or_string error))).

(** [results.push(result)]; the state is the local array [results]
    paired with the world. *)
Definition push_result (result : BundledOperationResult)
    : Eff (list BundledOperationResult * World) unit :=
  update_this (fun results => results ++ [result]).

(** [result.txHash] as a condition, and as the hash awaited. *)
Definition truthy_hash (txHash : option string) : bool :=
  match txHash with
  | Some h => truthy_string h
  | None => false
  end.

(** One turn of the [for] loop of [execute]: the [try] block with its
    [catch]. *)
Definition execute_turn (operation : BundledOperation)
    : Eff (list BundledOperationResult * World) unit :=
  try_catch
    (result <-
       (if String.eqb (op_type operation) "buy" then
          on_world (Bundler_executeBuy operation)
        else if String.eqb (op_type operation) "sell" then
          on_world (Bundler_executeSell operation)
        else if String.eqb (op_type operation) "sellPermit" then
          on_world (Bundler_executeSellPermit operation)
        else
          ret (failed operation ("Unknown operation type: " ++ op_type operation))) ;;
     push_result result ;;;
     if truthy_bool (bc_waitForConfirmation config) && res_success result
        && truthy_hash (res_txHash result)
     then
       _ <- on_world (call node (fun n =>
              rpc_waitForTransactionReceipt node n (default "" (res_txHash result)))) ;;
       ret tt
     else ret tt)
    (fun error => push_result (failed operation (message_or_string error))).

(** [BundlerBot.execute(operations)] *)
Definition execute (operations : list BundledOperation)
    : Eff World (list BundledOperationResult) :=
  fun w =>
    let '(outcome, (results, w')) := for_each operations execute_turn ([], w) in
    (match outcome with
     | Ok _ => Ok results
     | Throw t => Throw t
     end, w').
End Bundler.

(** ** Sample data *)

Module Sample.
Definition curve : string := "0xc0dec0dec0dec0dec0dec0dec0dec0dec0dec0de".
Definition tokenA : string := "0xaaa1aaa1aaa1aaa1aaa1aaa1aaa1aaa1aaa1aaa1".
Definition tokenB : string := "0xbbb2bbb2bbb2bbb2bbb2bbb2bbb2bbb2bbb2bbb2".
Definition alice : string := "0xa11cea11cea11cea11cea11cea11cea11cea11ce".
Definition router : string := "0x5afe5afe5afe5afe5afe5afe5afe5afe5afe5afe".

(** [tokenA] as other sources may spell it. *)
Definition tokenA_upper : string := "0XAAA1AAA1AAA1AAA1AAA1AAA1AAA1AAA1AAA1AAA1".
Definition tokenA_mixed : string := "0xAAa1aaA1AAa1aaA1AAa1aaA1AAa1aaA1AAa1aaA1".

Definition create_log (block tx idx : Z) (token : string) : Log :=
  mkLog block "0xhash" tx idx curve
        (Some (CurveCreateArgs alice token "0xpool" "Name" "SYM" "uri" 10 20 30)).

Definition buy_log (block tx idx : Z) (token : string) (amountIn : Z) : Log :=
  mkLog block "0xhash" tx idx curve (Some (CurveBuyArgs alice token amountIn 1)).

Definition foreign_log (block : Z) : Log :=
  mkLog block "0xhash" 0 0 "0xother" None.

(** Five blocks of history; the node reports the logs of block 3 out of
    order and two logs of block 4 under one key. *)
Definition chain : Chain :=
  mkChain 5 (fun b =>
    if b =? 1 then [create_log 1 0 0 tokenA]
    else if b =? 2 then [foreign_log 2; buy_log 2 1 0 tokenA 5]
    else if b =? 3 then [buy_log 3 2 1 tokenB 7; create_log 3 0 4 tokenB;
                         buy_log 3 2 0 tokenA 6]
    else if b =? 4 then [buy_log 4 0 0 tokenA 8; buy_log 4 0 0 tokenA 9]
    else if b =? 5 then [buy_log 5 1 1 tokenB 4]
    else []).

Definition event (block tx idx : Z) (token : string) (amountIn : Z) : BondingCurveEvent :=
  mkEvent block "0xhash" tx idx curve token None "CurveBuy" (BuyFields alice amountIn 1).

Definition created (block tx idx : Z) (token : string) : BondingCurveEvent :=
  mkEvent block "0xhash" tx idx curve token None "CurveCreate"
          (CreateFields alice "0xpool" "Name" "SYM" "uri" 10 20 30).

Definition unsorted : list BondingCurveEvent :=
  [event 3 2 1 tokenB 7; event 3 0 4 tokenB 1; event 1 0 0 tokenA 2; event 3 2 0 tokenA 6].

Definition heap : Heap BondingCurveEvent :=
  {[ 1%positive := unsorted; 2%positive := [event 9 0 0 tokenA 3; event 8 0 0 tokenA 3] ]}.
End Sample.

(** Sample collaborators. *)
Module SampleNode.
(** Whole decimal numbers only. *)
Definition parseUnits (s : string) (decimals : Z) : Result Z :=
  match NilZero.int_of_string s with
  | Some i => Ok (Z.of_int i * 10 ^ decimals)
  | None => Throw (new_Error "invalid decimal number")
  end.

Definition formatUnits (value decimals : Z) : string :=
  toString (value / 10 ^ decimals).

(** An ABI encoder for the router calls: every field is checked against
    its type in [routerAbi], in the order of the struct, and the first
    field that does not fit decides the error.  Addresses and bytes are
    accepted in lower-case hexadecimal only (a mixed-case address would
    need its checksum); the messages are shortened. *)
Definition is_lower_hex (c : ascii) : bool :=
  let n := nat_of_ascii c in
  ((48 <=? n)%nat && (n <=? 57)%nat) || ((97 <=? n)%nat && (n <=? 102)%nat).

Fixpoint all_chars (p : ascii -> bool) (s : string) : bool :=
  match s with
  | EmptyString => true
  | String c s' => p c && all_chars p s'
  end.

Definition is_hex_of_size (size : nat) (s : string) : bool :=
  match s with
  | String "0" (String "x" digits) =>
      Nat.eqb (String.length digits) (2 * size) && all_chars is_lower_hex digits
  | _ => false
  end.

Definition abi_uint (bits : Z) (value : Z) : option Thrown :=
  if (0 <=? value) && (value <? 2 ^ bits) then None
  else Some (ThrownError (mkJsError "IntegerOutOfRangeError"
               ("Number " ++ toString value ++ " is not in safe " ++ toString bits
                ++ "-bit unsigned integer range") None)).

Definition abi_address (value : string) : option Thrown :=
  if is_hex_of_size 20 value then None
  else Some (ThrownError (mkJsError "InvalidAddressError"
               ("Address " ++ value ++ " is invalid.") None)).

Definition abi_bytes32 (value : string) : option Thrown :=
  if is_hex_of_size 32 value then None
  else Some (ThrownError (mkJsError "AbiEncodingBytesSizeMismatchError"
               "Size of bytes does not match expected size (bytes32)." None)).

Fixpoint first_error (checks : list (option Thrown)) : option Thrown :=
  match checks with
  | [] => None
  | Some error :: _ => Some error
  | None :: checks' => first_error checks'
  end.

Definition encodingError (args : CallData) : option Thrown :=
  match args with
  | encode_buy amountOutMin token to deadline =>
      first_error [abi_uint 256 amountOutMin; abi_address token; abi_address to;
                   abi_uint 256 deadline]
  | encode_sell amountIn amountOutMin token to deadline =>
      first_error [abi_uint 256 amountIn; abi_uint 256 amountOutMin; abi_address token;
                   abi_address to; abi_uint 256 deadline]
  | encode_sellPermit amountIn amountOutMin amountAllowance token to deadline v r s =>
      first_error [abi_uint 256 amountIn; abi_uint 256 amountOutMin;
                   abi_uint 256 amountAllowance; abi_address token; abi_address to;
                   abi_uint 256 deadline; abi_uint 8 v; abi_bytes32 r; abi_bytes32 s]
  end.

(** The two halves of a permit signature. *)
Definition permit_r : string :=
  "0x1111111111111111111111111111111111111111111111111111111111111111".
Definition permit_s : string :=
  "0x2222222222222222222222222222222222222222222222222222222222222222".

(** A node on which everything works, around the four endpoints the
    scenarios vary. *)
Definition make
    (estimate : nat -> EstimateGasRequest -> Result Z)
    (wait : nat -> string -> Result string)
    (getPool : nat -> string -> string -> Z -> Result string)
    (balance : nat -> string -> Result Z) : Node :=
  mkNode (fun _ => 0)
         estimate
         (fun _ _ => Ok "0xtx")
         wait
         balance
         (fun _ => Ok 50)
         (fun _ _ amountIn _ => Ok (Sample.router, amountIn * 2))
         getPool
         (fun _ _ => Ok 18)
         (fun _ _ => Ok (10 ^ 30))
         (fun _ _ _ => Ok 0)
         (fun _ _ _ _ => Ok "0xapproval")
         (fun _ _ _ _ _ => Ok (mkPermitSignature 27 permit_r permit_s 0))
         parseUnits
         formatUnits
         encodingError.

Definition healthy : Node :=
  make (fun _ _ => Ok 21000) (fun _ h => Ok h)
       (fun _ _ _ _ => Ok zero_address) (fun _ _ => Ok (10 ^ 30)).

(** The error a node raises for a call that would revert. *)
Definition revert : Thrown :=
  ThrownError (mkJsError "EstimateGasExecutionError" "execution reverted"
                         (Some "0x08c379a0")).

Definition reverting : Node :=
  make (fun _ _ => Throw revert) (fun _ h => Ok h)
       (fun _ _ _ _ => Ok zero_address) (fun _ _ => Ok (10 ^ 30)).

Definition WMON : string := "0x760AfE86e5de5fa0Ee542fc7B7B713e1c5425701".

(** A factory that knows a pool for [tokenA], has none for [tokenB] and
    fails on every other pair. *)
Definition factory : Node :=
  make (fun _ _ => Ok 21000) (fun _ h => Ok h)
       (fun _ token0 token1 _ =>
          if String.eqb token0 Sample.tokenA || String.eqb token1 Sample.tokenA
          then Ok "0xF00d"
          else if String.eqb token0 Sample.tokenB || String.eqb token1 Sample.tokenB
          then Ok zero_address
          else Throw (new_Error "network failure"))
       (fun _ _ => Ok (10 ^ 30)).

(** The moment 1 700 000 000 000 ms after the epoch, nothing done yet. *)
Definition world : World := mkWorld 1700000000000 0 [].
End SampleNode.

(** Sample bundles and bots. *)
Module SampleBots.
(** Everything works except the collaborator call number [k], when it
    is a receipt query. *)
Definition receipt_fails_at (k : nat) : Node :=
  SampleNode.make (fun _ _ => Ok 21000)
    (fun n h => if Nat.eqb n k
                then Throw (new_Error "Timed out while waiting for transaction")
                else Ok h)
    (fun _ _ _ _ => Ok zero_address)
    (fun _ _ => Ok (10 ^ 30)).

(** The wallet holds 5 MON. *)
Definition small_wallet : Node :=
  SampleNode.make (fun _ _ => Ok 21000) (fun _ h => Ok h)
    (fun _ _ _ _ => Ok zero_address)
    (fun _ _ => Ok (5 * 10 ^ 18)).

Definition bundler : BundlerConfig :=
  BundlerBot_new (mkBundlerConfig None None None None).

Definition buy (amount : string) : BundledOperation :=
  mkBundledOperation "buy" Sample.tokenA amount None.

Definition sell (amount : string) : BundledOperation :=
  mkBundledOperation "sell" Sample.tokenA amount None.

(** A sniper with a rate limit of 1000 ms and auto-buy on, with or
    without a custom token filter. *)
Definition sniper (customFilter : bool) : SniperBot :=
  SniperBot_new (mkSniperConfig "1" 5 None None (Some 1000) None None customFilter
                                (Some true)).

Definition started (customFilter : bool) : Running :=
  mkRunning (sniper customFilter) SampleNode.world [] [].

Definition first : BondingCurveEvent := Sample.created 10 0 0 Sample.tokenA.
Definition second : BondingCurveEvent := Sample.created 11 0 0 Sample.tokenB.
End SampleBots.

(** ** Slippage measurement (trading/slippage.ts, continued) *)

(** [calculateSlippage], the deprecated alias. *)
Definition calculateSlippage (amount : Z) (slippagePercent : Q) : Result Z :=
  calculateMinAmountOut amount slippagePercent.

(** [Math.round(x)]: the nearest integer, halves going up. *)
Definition Math_round (x : Q) : Z := Qfloor (x + (1 # 2)).

(** [calculateActualSlippage(expectedAmount, actualAmount)], in exact
    rational arithmetic. *)
Definition calculateActualSlippage (expectedAmount actualAmount : Z) : Result Q :=
  if expectedAmount =? 0 then
    Throw (new_Error "Expected amount cannot be zero")
  else
    let difference := expectedAmount - actualAmount in
    let slippagePercent := (inject_Z difference * 100 / inject_Z expectedAmount)%Q in
    Ok (inject_Z (Math_round (slippagePercent * 100)) / 100)%Q.

(** [isSlippageWithinTolerance(expectedAmount, actualAmount, maxSlippagePercent)] *)
Definition isSlippageWithinTolerance (expectedAmount actualAmount : Z)
    (maxSlippagePercent : Q) : Result bool :=
  match calculateActualSlippage expectedAmount actualAmount with
  | Ok slippage => Ok (Qle_bool (Qabs slippage) maxSlippagePercent)
  | Throw error => Throw error
  end.

(** The deadline that [Trade.buy] and [Trade.sell] put into the calldata,
    by cases: the caller's when it is set and not zero, otherwise an hour
    from the current second. *)
Definition sent_deadline (deadline : option Z) (w : World) : Z :=
  match deadline with
  | Some d => if d =? 0 then clock w / 1000 + 3600 else d
  | None => clock w / 1000 + 3600
  end.

(** ** Event types of decoded logs *)

(** The enum member whose event the ABI item of a decoded log declares. *)
Definition args_event_type (a : CurveArgs) : CurveEventType :=
  match a with
  | CurveCreateArgs _ _ _ _ _ _ _ _ _ => Create
  | CurveBuyArgs _ _ _ _ => Buy
  | CurveSellArgs _ _ _ _ => Sell
  | CurveSyncArgs _ _ _ _ _ => Sync
  | CurveTokenLockedArgs _ => Lock
  | CurveTokenListedArgs _ _ => Listed
  end.

(** ** DEX swap events and their indexer (stream/dex/parser.ts,
    stream/dex/indexer.ts) *)

(** Arguments of a decoded [Swap] log. *)
Record SwapArgs := mkSwapArgs {
  swap_sender : string;
  swap_recipient : string;
  swap_amount0 : Z;
  swap_amount1 : Z;
  swap_sqrtPriceX96 : Z;
  swap_liquidity : Z;
  swap_tick : Z;
}.

(** A raw pool log; [slog_decoded] is the outcome of decoding it against
    [SWAP_EVENT_ABI], [None] when it is no Swap or decoding throws. *)
Record SwapLog := mkSwapLog {
  slog_blockNumber : Z;
  slog_transactionHash : string;
  slog_transactionIndex : Z;
  slog_logIndex : Z;
  slog_address : string;
  slog_decoded : option SwapArgs;
}.

Record SwapEvent := mkSwapEvent {
  se_type : string;
  se_blockNumber : Z;
  se_transactionHash : string;
  se_transactionIndex : Z;
  se_logIndex : Z;
  se_address : string;
  se_pool : string;
  se_sender : string;
  se_recipient : string;
  se_amount0 : Z;
  se_amount1 : Z;
  se_sqrtPriceX96 : Z;
  se_liquidity : Z;
  se_tick : Z;
  se_timestamp : option Z;
}.

#[export] Instance SwapEvent_chronological : Chronological SwapEvent := {
  blockNumber := se_blockNumber;
  transactionIndex := se_transactionIndex;
  logIndex := se_logIndex;
}.

(** [parseSwapEvent(log, timestamp?)] *)
Definition parseSwapEvent (log : SwapLog) (timestamp : option Z) : option SwapEvent :=
  match slog_decoded log with
  | None => None
  | Some parsed =>
      Some (mkSwapEvent "Swap" (slog_blockNumber log) (slog_transactionHash log)
              (slog_transactionIndex log) (slog_logIndex log) (slog_address log)
              (slog_address log) (swap_sender parsed) (swap_recipient parsed)
              (swap_amount0 parsed) (swap_amount1 parsed) (swap_sqrtPriceX96 parsed)
              (swap_liquidity parsed) (swap_tick parsed) timestamp)
  end.

(** The chain as the DEX indexer sees it. *)
Record DexChain := mkDexChain {
  dex_head : Z;
  dex_logs : Z -> list SwapLog;
}.

(** [publicClient.getLogs({ address: poolAddresses, fromBlock, toBlock })] *)
Definition getSwapLogs (c : DexChain) (addresses : list string) (fromBlock toBlock : Z)
    : list SwapLog :=
  filter (fun l => slog_address l ∈ addresses)
         (flat_map (dex_logs c) (block_range fromBlock toBlock)).

(** [Indexer.processLogs] of the DEX indexer. *)
Definition DexIndexer_processLogs (logs : list SwapLog) : list SwapEvent :=
  chronological_sort (omap (fun log => parseSwapEvent log None) logs).

Section DexIndexer.
Variable chain : DexChain.
(** [this.poolAddresses] *)
Variable poolAddresses : list string.

(** [Indexer.fetchEvents(fromBlock, toBlock)] *)
Definition DexIndexer_fetchEvents (fromBlock toBlock : Z) : list SwapEvent :=
  if Nat.eqb (length poolAddresses) 0 then []
  else DexIndexer_processLogs (getSwapLogs chain poolAddresses fromBlock toBlock).

(** The [while] loop of the DEX [fetchAllEvents], with fuel. *)
Fixpoint DexIndexer_fetchAllEvents_loop (fuel : nat)
    (currentBlock targetBlock batchSize : Z) (allEvents : list SwapEvent)
    : option (list SwapEvent) :=
  match fuel with
  | O => None
  | S fuel' =>
    if currentBlock <=? targetBlock then
      let toBlock := Z.min (currentBlock + batchSize - 1) targetBlock in
      let events := DexIndexer_fetchEvents currentBlock toBlock in
      let allEvents := allEvents ++ events in
      if toBlock >=? targetBlock then Some allEvents
      else DexIndexer_fetchAllEvents_loop fuel' (toBlock + 1) targetBlock batchSize
                                          allEvents
    else Some allEvents
  end.

(** [Indexer.fetchAllEvents(startBlock, batchSize)] *)
Definition DexIndexer_fetchAllEvents (fuel : nat) (startBlock batchSize : Z)
    : option (list SwapEvent) :=
  let targetBlock := dex_head chain in
  fmap chronological_sort
       (DexIndexer_fetchAllEvents_loop fuel startBlock targetBlock batchSize []).
End DexIndexer.

(** ** Streams, continued *)

(** The function [onEvent] returns: [this.listeners.delete(id)]. *)
Definition CurveStream_removeListener (id : string) (s : CurveStream) : CurveStream :=
  cs_set_listeners (delete id (cs_listeners s)) s.

(** The function [onSwap] returns. *)
Definition DexStream_removeListener (id : string) (s : DexStream) : DexStream :=
  ds_set_listeners (delete id (ds_listeners s)) s.

(** The tests of [Stream.processLogs] between parsing and notifying: the
    type must be among [this.eventTypes]; the token must be in the token
    filter when one is set and not empty. *)
Definition CurveStream_passes (s : CurveStream) (event : BondingCurveEvent) : bool :=
  set_has (map CurveEventType_value (cs_eventTypes s)) (ev_type event)
  && match cs_tokenFilter s with
     | Some tokenFilter =>
         if negb (Nat.eqb (length tokenFilter) 0)
         then set_has tokenFilter (toLowerCase (ev_token event))
         else true
     | None => true
     end.

(** What [Stream.processLogs] hands to the listeners for one log, if
    anything: the block is read for its timestamp (a failure is caught
    and the log given up), the log parsed, the tests applied. *)
Definition CurveStream_notified (getBlock : Z -> Result Z) (s : CurveStream) (log : Log)
    : option BondingCurveEvent :=
  match getBlock (log_blockNumber log) with
  | Throw _ => None
  | Ok timestamp =>
      match parseBondingCurveEvent log (Some timestamp) with
      | Some event => if CurveStream_passes s event then Some event else None
      | None => None
      end
  end.

Definition ds_set_poolAddresses (v : list string) (s : DexStream) : DexStream :=
  mkDexStream v (ds_listeners s) (ds_isRunning s) (ds_watchFunctions s)
    (ds_reconnectAttempts s) (ds_maxReconnectAttempts s) (ds_reconnectDelay s).

(** [getPoolAddresses()] *)
Definition DexStream_getPoolAddresses (s : DexStream) : list string :=
  ds_poolAddresses s.

(** [removePoolAddresses(addresses)] *)
Definition DexStream_removePoolAddresses (addresses : list string) (s : DexStream)
    : DexStream :=
  ds_set_poolAddresses
    (filter (fun addr => set_has addresses addr = false) (ds_poolAddresses s)) s.

Section DexStreamPools.
Variable tr : Transport.

(** [addPoolAddresses(addresses)] *)
Definition DexStream_addPoolAddresses (addresses : list string)
    : Eff (DexStream * Subscriptions) unit :=
  s <- this ;;
  let newPools :=
    filter (fun addr => set_has (ds_poolAddresses s) addr = false) addresses in
  update_this (ds_set_poolAddresses (ds_poolAddresses s ++ newPools)) ;;;
  if ds_isRunning s
  then for_each newPools (DexStream_watchPoolEvents tr)
  else ret tt.
End DexStreamPools.

(** The handles of the active subscriptions were all handed out earlier:
    how a client's subscriptions look at any moment. *)
Definition subs_wf (subs : Subscriptions) : Prop :=
  Forall (fun p => (fst p < subs_issued subs)%nat) (subs_active subs).

(** ** Book-keeping of the sniper bot *)

Definition awaiting_purchase (h : Handler) : bool :=
  match h with
  | AwaitingPurchase _ => true
  | _ => false
  end.

Definition awaiting_token_filter (h : Handler) : bool :=
  match h with
  | AwaitingTokenFilter _ => true
  | _ => false
  end.

(** How many invocations of the handler are in a given state. *)
Fixpoint count_handlers (p : Handler -> bool) (hs : list Handler) : Z :=
  match hs with
  | [] => 0
  | h :: hs' => (if p h then 1 else 0) + count_handlers p hs'
  end.

(** The counters add up: every attempt has succeeded, failed or is under
    way; every event was skipped, led to an attempt, is with the token
    filter, or was let go because auto-buy is off. *)
Definition counters_add_up (r : Running) : Prop :=
  let stats := sb_stats (run_bot r) in
  totalBuys stats
  = successfulBuys stats + failedBuys stats
    + count_handlers awaiting_purchase (run_handlers r) /\
  skippedBuys stats + totalBuys stats
  + count_handlers awaiting_token_filter (run_handlers r) <= totalEvents stats /\
  (truthy_bool (sc_autoBuy (sb_config (run_bot r))) = true ->
   skippedBuys stats + totalBuys stats
   + count_handlers awaiting_token_filter (run_handlers r) = totalEvents stats).

(** ** Sample streams *)

Module SampleStreams.
Definition poolA : string := "0xf00d".
Definition poolB : string := "0xbeef".

(** A transport on which nothing throws, and one that refuses every
    subscription and every release. *)
Definition quiet : Transport := mkTransport (fun _ => false) (fun _ => false).
Definition refusing : Transport := mkTransport (fun _ => true) (fun _ => true).

(** A client that holds one subscription of somebody else. *)
Definition client : Subscriptions := mkSubscriptions 1 [(0%nat, "0xother")].

Definition swap_log (block tx idx : Z) (pool : string) (amount0 : Z) : SwapLog :=
  mkSwapLog block "0xhash" tx idx pool
            (Some (mkSwapArgs Sample.alice Sample.alice amount0 (- amount0) 1 1 0)).

(** Four blocks of pool history, block 2 out of order and with a log of
    a pool nobody asked for. *)
Definition dex_chain : DexChain :=
  mkDexChain 4 (fun b =>
    if b =? 1 then [swap_log 1 0 0 poolA 5]
    else if b =? 2 then [swap_log 2 3 0 poolA 6; swap_log 2 1 0 poolB 7;
                         swap_log 2 0 0 "0xother" 8]
    else if b =? 4 then [swap_log 4 0 1 poolB 9]
    else []).
End SampleStreams.

(* ===================================================================== *)
(** * Part II: properties *)
(* ===================================================================== *)

(** ** Stable sorting with a consistent comparator *)

Section ArraySortFacts.
Context {T : Type}.
Variable cmp : T -> T -> Z.

Local Abbreviation ins := (sorted_insert cmp).
Local Abbreviation srt := (array_sort cmp).
Local Abbreviation before := (fun a b => precedes cmp a b = true).

Hypothesis cmp_total : forall a b, precedes cmp a b = false -> precedes cmp b a = true.
Hypothesis cmp_trans : forall a b c,
  precedes cmp a b = true -> precedes cmp b c = true -> precedes cmp a c = true.

Lemma sorted_insert_perm x l : Permutation (x :: l) (ins x l).
Proof.
  induction l as [|y l IH]; simpl; [reflexivity|].
  destruct (precedes cmp x y); [reflexivity|].
  rewrite perm_swap. now apply perm_skip.
Qed.

Lemma array_sort_perm l : Permutation l (srt l).
Proof.
  induction l as [|x l IH]; simpl; [constructor|].
  rewrite <- sorted_insert_perm. now apply perm_skip.
Qed.

Lemma sorted_insert_hd x y l :
  precedes cmp y x = true -> HdRel before y l -> HdRel before y (ins x l).
Proof.
  intros Hyx Hl. destruct l as [|z l]; simpl; [now constructor|].
  destruct (precedes cmp x z); constructor; [assumption|].
  now inversion Hl.
Qed.

Lemma sorted_insert_sorted x l : Sorted before l -> Sorted before (ins x l).
Proof.
  induction 1 as [|y l Hs IH Hhd]; simpl.
  - repeat constructor.
  - destruct (precedes cmp x y) eqn:E.
    + constructor; [now constructor|now constructor].
    + constructor; [assumption|].
      apply sorted_insert_hd; [now apply cmp_total|assumption].
Qed.

Lemma array_sort_sorted l : Sorted before (srt l).
Proof.
  induction l as [|x l IH]; simpl; [constructor|].
  now apply sorted_insert_sorted.
Qed.

(** Two elements of which the first comes strictly after the second can
    be inserted in either order. *)
Lemma sorted_insert_comm x y l :
  precedes cmp x y = false -> ins x (ins y l) = ins y (ins x l).
Proof.
  intros Hxy. pose proof (cmp_total _ _ Hxy) as Hyx.
  induction l as [|z l IH]; simpl.
  - now rewrite Hxy, Hyx.
  - destruct (precedes cmp y z) eqn:Eyz, (precedes cmp x z) eqn:Exz; simpl;
      rewrite ?Hxy, ?Hyx, ?Eyz, ?Exz; try reflexivity.
    + apply cmp_total in Eyz.
      rewrite (cmp_trans _ _ _ Exz Eyz) in Hxy. discriminate.
    + now rewrite IH.
Qed.

Lemma foldr_insert_insert x t acc :
  foldr ins acc (ins x t) = ins x (foldr ins acc t).
Proof.
  induction t as [|y t IH]; simpl; [reflexivity|].
  destruct (precedes cmp x y) eqn:E; simpl; [reflexivity|].
  rewrite IH. symmetry. now apply sorted_insert_comm.
Qed.

(** Inserting the elements of a sorted copy gives what inserting the
    elements of the original gives. *)
Lemma foldr_insert_sort l acc : foldr ins acc (srt l) = foldr ins acc l.
Proof.
  induction l as [|x l IH]; simpl; [reflexivity|].
  now rewrite foldr_insert_insert, IH.
Qed.

Lemma array_sort_app l1 l2 : srt (l1 ++ l2) = foldr ins (srt l2) l1.
Proof. unfold array_sort. now rewrite foldr_app. Qed.

Lemma array_sort_idem l : srt (srt l) = srt l.
Proof. unfold array_sort at 1. now rewrite foldr_insert_sort. Qed.

Lemma array_sort_app_sort_l l1 l2 : srt (srt l1 ++ l2) = srt (l1 ++ l2).
Proof. now rewrite !array_sort_app, foldr_insert_sort. Qed.

Lemma array_sort_app_sort_r l1 l2 : srt (l1 ++ srt l2) = srt (l1 ++ l2).
Proof. now rewrite !array_sort_app, array_sort_idem. Qed.

Lemma array_sort_app_sort_mid l1 l2 l3 :
  srt (l1 ++ srt l2 ++ l3) = srt (l1 ++ l2 ++ l3).
Proof.
  rewrite (array_sort_app l1), (array_sort_app l1).
  now rewrite array_sort_app_sort_l.
Qed.
End ArraySortFacts.

(** ** The chronological comparator is a consistent comparator *)

Section ChronologicalFacts.
Context `{Chronological T}.

Lemma precedes_key_le (a b : T) :
  precedes compareChronologically a b = true <-> key_le a b.
Proof.
  unfold precedes, compareChronologically, key_le.
  destruct (Z.eqb_spec (blockNumber a) (blockNumber b));
    destruct (Z.eqb_spec (transactionIndex a) (transactionIndex b));
    simpl; rewrite Z.leb_le; lia.
Qed.

Lemma precedes_total (a b : T) :
  precedes compareChronologically a b = false ->
  precedes compareChronologically b a = true.
Proof.
  intros Hab. apply precedes_key_le.
  assert (~ key_le a b) as Hn
    by (rewrite <- precedes_key_le, Hab; discriminate).
  unfold key_le in *. lia.
Qed.

Lemma precedes_trans (a b c : T) :
  precedes compareChronologically a b = true ->
  precedes compareChronologically b c = true ->
  precedes compareChronologically a c = true.
Proof.
  rewrite !precedes_key_le. unfold key_le. lia.
Qed.

Lemma chronological_sort_perm (l : list T) : Permutation l (chronological_sort l).
Proof. apply array_sort_perm. Qed.

Lemma chronological_sort_sorted (l : list T) : Sorted key_le (chronological_sort l).
Proof.
  pose proof (array_sort_sorted compareChronologically precedes_total l) as Hs.
  unfold chronological_sort.
  induction Hs as [|x l' Hs IH Hhd]; constructor; [assumption|].
  destruct Hhd; constructor. now apply precedes_key_le.
Qed.

Lemma chronological_sort_idem (l : list T) :
  chronological_sort (chronological_sort l) = chronological_sort l.
Proof. apply array_sort_idem; [apply precedes_total | apply precedes_trans]. Qed.

Lemma chronological_sort_app_mid (l1 l2 l3 : list T) :
  chronological_sort (l1 ++ chronological_sort l2 ++ l3)
  = chronological_sort (l1 ++ l2 ++ l3).
Proof.
  apply array_sort_app_sort_mid; [apply precedes_total | apply precedes_trans].
Qed.
End ChronologicalFacts.

(** ** Slippage bounds *)

Lemma slippage_in_range (p : Q) :
  (0 <= p)%Q -> (p < 100)%Q ->
  Qlt_bool p 0 || Qle_bool 100 p = false /\ 0 <= Qfloor (p * 100) <= 10000.
Proof.
  intros H0 H100. split.
  - apply orb_false_iff. split.
    + unfold Qlt_bool. apply negb_false_iff. now apply Qle_bool_iff.
    + destruct (Qle_bool 100 p) eqn:E; [|reflexivity].
      apply Qle_bool_iff in E. exfalso. apply (Qlt_irrefl p).
      eapply Qlt_le_trans; eassumption.
  - split.
    + change 0 with (Qfloor 0). apply Qfloor_resp_le.
      apply Qmult_le_0_compat; [assumption|discriminate].
    + change 10000 with (Qfloor (100 * 100)). apply Qfloor_resp_le.
      apply Qmult_le_compat_r; [now apply Qlt_le_weak|discriminate].
Qed.

Lemma slippage_off_range (p : Q) :
  (p < 0)%Q \/ (100 <= p)%Q -> Qlt_bool p 0 || Qle_bool 100 p = true.
Proof.
  intros [Hneg|Hbig]; apply orb_true_iff.
  - left. unfold Qlt_bool. apply negb_true_iff.
    destruct (Qle_bool 0 p) eqn:E; [|reflexivity].
    apply Qle_bool_iff in E. exfalso. apply (Qlt_irrefl p).
    eapply Qlt_le_trans; eassumption.
  - right. now apply Qle_bool_iff.
Qed.

(** C3. For a non-negative amount and a slippage percentage p with
    0 <= p < 100, calculateMinAmountOut returns at most the amount and
    calculateMaxAmountIn returns at least the amount; for p < 0 or
    p >= 100 both throw the out-of-range error instead of returning. *)
Theorem slippage_bounds (amount : Z) (p : Q) :
  0 <= amount ->
  ((0 <= p)%Q /\ (p < 100)%Q ->
     (exists m, calculateMinAmountOut amount p = Ok m /\ m <= amount) /\
     (exists m, calculateMaxAmountIn amount p = Ok m /\ amount <= m)) /\
  ((p < 0)%Q \/ (100 <= p)%Q ->
     calculateMinAmountOut amount p = Throw slippage_out_of_range /\
     calculateMaxAmountIn amount p = Throw slippage_out_of_range).
Proof.
  intros Hamount. split.
  - intros [H0 H100].
    destruct (slippage_in_range p H0 H100) as [Hguard Hbp].
    unfold calculateMinAmountOut, calculateMaxAmountIn. rewrite Hguard.
    split; eexists; (split; [reflexivity|]).
    + apply Z.quot_le_upper_bound; nia.
    + apply Z.quot_le_lower_bound; nia.
  - intros Hoff. apply slippage_off_range in Hoff.
    unfold calculateMinAmountOut, calculateMaxAmountIn. now rewrite Hoff.
Qed.

Lemma slippage_bounds_witness :
  (exists m, calculateMinAmountOut 100 5 = Ok m /\ m <= 100) /\
  (exists m, calculateMaxAmountIn 100 5 = Ok m /\ 100 <= m).
Proof.
  refine (proj1 (slippage_bounds 100 5 _) _).
  - lia.
  - split; unfold Qle, Qlt; simpl; lia.
Defined.

(** The round percentages of the documentation. *)
Example slippage_five_percent :
  calculateMinAmountOut 100 5 = Ok 95 /\ calculateMaxAmountIn 100 5 = Ok 105.
Proof. split; reflexivity. Qed.

(** ** Sorting in place *)

Lemma sortEventsChronologically_lookup `{Chronological T}
    (events : ArrayRef) (h : Heap T) (E : list T) :
  h !! events = Some E ->
  snd (sortEventsChronologically events h) !! events = Some (chronological_sort E).
Proof.
  intros HE. unfold sortEventsChronologically; simpl.
  now rewrite lookup_alter_eq, HE.
Qed.

(** C4. Sorting an array of events a second time changes nothing, and the
    array a first sort leaves behind is non-decreasing under the key
    (blockNumber, transactionIndex, logIndex). *)
Theorem sortEventsChronologically_idempotent_sorted `{Chronological T}
    (events : ArrayRef) (h : Heap T) (E : list T) :
  h !! events = Some E ->
  let once := sortEventsChronologically events h in
  sortEventsChronologically (fst once) (snd once) = once /\
  snd once !! fst once = Some (chronological_sort E) /\
  chronological_sort (chronological_sort E) = chronological_sort E /\
  Sorted key_le (chronological_sort E).
Proof.
  intros HE once. split; [|split; [|split]].
  - unfold once, sortEventsChronologically; simpl. f_equal.
    apply map_eq. intros i.
    destruct (decide (events = i)) as [<-|Hne].
    + rewrite !lookup_alter_eq, HE; simpl. now rewrite chronological_sort_idem.
    + now rewrite !lookup_alter_ne.
  - now apply sortEventsChronologically_lookup.
  - apply chronological_sort_idem.
  - apply chronological_sort_sorted.
Qed.

(** C10. sortEventsChronologically sorts its argument in place: it hands
    back the reference it was given, allocates nothing, leaves every
    other array alone, and the array behind the reference afterwards
    holds a permutation of what it held before, in non-decreasing order
    of the key (blockNumber, transactionIndex, logIndex). *)
Theorem sortEventsChronologically_in_place `{Chronological T}
    (events : ArrayRef) (h : Heap T) (E : list T) :
  h !! events = Some E ->
  let '(returned, h') := sortEventsChronologically events h in
  returned = events /\
  dom h' = dom h /\
  (forall other : ArrayRef, other <> events -> h' !! other = h !! other) /\
  exists E', h' !! events = Some E' /\ Permutation E E' /\ Sorted key_le E'.
Proof.
  intros HE. unfold sortEventsChronologically. split; [reflexivity|].
  split; [apply dom_alter_L|]. split.
  - intros other Hne. now rewrite lookup_alter_ne.
  - exists (chronological_sort E). split; [|split].
    + now rewrite lookup_alter_eq, HE.
    + apply chronological_sort_perm.
    + apply chronological_sort_sorted.
Qed.

(** ** Batched and single-range fetching *)

Lemma blocks_from_app (start : Z) (n1 n2 : nat) :
  blocks_from start (n1 + n2)
  = blocks_from start n1 ++ blocks_from (start + Z.of_nat n1) n2.
Proof.
  revert start. induction n1 as [|n1 IH]; intros start; simpl.
  - now rewrite Z.add_0_r.
  - rewrite IH. do 3 f_equal. lia.
Qed.

Lemma block_range_split (a b c : Z) :
  a <= b + 1 -> b <= c ->
  block_range a c = block_range a b ++ block_range (b + 1) c.
Proof.
  intros Hab Hbc. unfold block_range.
  replace (Z.to_nat (c - a + 1))
    with (Z.to_nat (b - a + 1) + Z.to_nat (c - (b + 1) + 1))%nat by lia.
  rewrite blocks_from_app. do 2 f_equal. lia.
Qed.

Lemma block_range_empty (a b : Z) : b < a -> block_range a b = [].
Proof.
  intros Hlt. unfold block_range.
  now replace (Z.to_nat (b - a + 1)) with 0%nat by lia.
Qed.

Lemma getLogs_split (c : Chain) (address : string) (a b e : Z) :
  a <= b + 1 -> b <= e ->
  getLogs c address a e = getLogs c address a b ++ getLogs c address (b + 1) e.
Proof.
  intros Hab Hbe. unfold getLogs.
  now rewrite (block_range_split a b e), flat_map_app, filter_app.
Qed.

Section BatchedFetch.
Variable chain : Chain.
Variable bondingCurveAddress : string.
Variable eventTypes : option (list CurveEventType).
Variable tokenFilter : option (list string).
Variable batchSize : Z.
Hypothesis batchSize_pos : 1 <= batchSize.

Let kept (fromBlock toBlock : Z) : list BondingCurveEvent :=
  omap (keep_log eventTypes tokenFilter)
       (getLogs chain bondingCurveAddress fromBlock toBlock).

Lemma kept_split (a b e : Z) :
  a <= b + 1 -> b <= e -> kept a e = kept a b ++ kept (b + 1) e.
Proof.
  intros Hab Hbe. unfold kept.
  now rewrite (getLogs_split _ _ a b e), omap_app.
Qed.

(** With a batch size of at least one the cursor advances on every turn:
    the loop returns once it has as many units of fuel as there are
    blocks left, plus one; what it has gathered sorts to what the whole
    range sorts to. *)
Lemma fetchAllEvents_loop_spec (targetBlock : Z) (fuel : nat) :
  forall (currentBlock : Z) (allEvents : list BondingCurveEvent),
  (Z.to_nat (targetBlock - currentBlock + 1) <= fuel)%nat ->
  exists gathered,
    fetchAllEvents_loop chain bondingCurveAddress (S fuel) currentBlock targetBlock
                        batchSize eventTypes tokenFilter allEvents = Some gathered /\
    chronological_sort gathered
    = chronological_sort (allEvents ++ kept currentBlock targetBlock).
Proof.
  induction fuel as [|fuel IH]; intros cur acc Hfuel;
    cbn [fetchAllEvents_loop];
    destruct (Z.leb_spec cur targetBlock) as [Hle|Hgt];
    try (exists acc; split; [reflexivity|];
         unfold kept, getLogs; rewrite block_range_empty by lia;
         now rewrite app_nil_r);
    try lia.
  set (toBlock := Z.min (cur + batchSize - 1) targetBlock) in *.
  destruct (Z.geb_spec toBlock targetBlock) as [Hge|Hlt].
  - eexists; split; [reflexivity|].
    replace toBlock with targetBlock by lia.
    unfold fetchEvents, processLogs. fold (kept cur targetBlock).
    rewrite <- (app_nil_r (chronological_sort (kept cur targetBlock))).
    rewrite chronological_sort_app_mid. now rewrite app_nil_r.
  - destruct (IH (toBlock + 1) (acc ++ fetchEvents chain bondingCurveAddress cur toBlock
                                     eventTypes tokenFilter))
      as (gathered & Hrun & Hsort); [lia|].
    exists gathered. split; [exact Hrun|].
    rewrite Hsort. unfold fetchEvents, processLogs. fold (kept cur toBlock).
    rewrite <- app_assoc, chronological_sort_app_mid.
    now rewrite (kept_split cur toBlock targetBlock) by lia.
Qed.
End BatchedFetch.

(** C2. For every start block and every batch size of at least one,
    fetchAllEvents returns (given enough fuel for its loop, which then
    always exits) exactly the list that one fetchEvents call over
    [startBlock, head] returns, the head being read once. *)
Theorem fetchAllEvents_agrees_with_fetchEvents
    (chain : Chain) (bondingCurveAddress : string) (startBlock batchSize : Z)
    (eventTypes : option (list CurveEventType)) (tokenFilter : option (list string)) :
  1 <= batchSize ->
  exists enough : nat, forall fuel : nat, (enough <= fuel)%nat ->
    fetchAllEvents chain bondingCurveAddress fuel startBlock batchSize eventTypes tokenFilter
    = Some (fetchEvents chain bondingCurveAddress startBlock (chain_head chain)
                        eventTypes tokenFilter).
Proof.
  intros Hbatch. exists (S (Z.to_nat (chain_head chain - startBlock + 1))).
  intros fuel Hfuel. destruct fuel as [|fuel]; [lia|].
  destruct (fetchAllEvents_loop_spec chain bondingCurveAddress eventTypes tokenFilter
              batchSize Hbatch (chain_head chain) fuel startBlock [])
    as (gathered & Hrun & Hsort); [lia|].
  unfold fetchAllEvents. rewrite Hrun. simpl. f_equal. exact Hsort.
Qed.

Lemma sortEventsChronologically_idempotent_sorted_witness :
  let once := sortEventsChronologically 1%positive Sample.heap in
  sortEventsChronologically (fst once) (snd once) = once /\
  snd once !! fst once = Some (chronological_sort Sample.unsorted) /\
  chronological_sort (chronological_sort Sample.unsorted)
  = chronological_sort Sample.unsorted /\
  Sorted key_le (chronological_sort Sample.unsorted).
Proof.
  apply (sortEventsChronologically_idempotent_sorted 1%positive Sample.heap Sample.unsorted).
  reflexivity.
Defined.

Lemma sortEventsChronologically_in_place_witness :
  let '(returned, h') := sortEventsChronologically 1%positive Sample.heap in
  returned = 1%positive /\
  dom h' = dom Sample.heap /\
  (forall other : ArrayRef, other <> 1%positive -> h' !! other = Sample.heap !! other) /\
  exists E', h' !! 1%positive = Some E' /\ Permutation Sample.unsorted E' /\
             Sorted key_le E'.
Proof.
  apply (sortEventsChronologically_in_place 1%positive Sample.heap Sample.unsorted).
  reflexivity.
Defined.

(** The sample array, sorted. *)
Example chronological_sort_sample :
  chronological_sort Sample.unsorted
  = [Sample.event 1 0 0 Sample.tokenA 2; Sample.event 3 0 4 Sample.tokenB 1;
     Sample.event 3 2 0 Sample.tokenA 6; Sample.event 3 2 1 Sample.tokenB 7].
Proof. reflexivity. Qed.

Lemma fetchAllEvents_agrees_with_fetchEvents_witness :
  exists enough : nat, forall fuel : nat, (enough <= fuel)%nat ->
    fetchAllEvents Sample.chain Sample.curve fuel 2 2 (Some [Buy]) None
    = Some (fetchEvents Sample.chain Sample.curve 2 (chain_head Sample.chain)
                        (Some [Buy]) None).
Proof.
  apply (fetchAllEvents_agrees_with_fetchEvents Sample.chain Sample.curve 2 2
           (Some [Buy]) None).
  lia.
Defined.

(** Batches of two blocks over the sample chain: blocks 2-3, then 4-5.
    The two logs of block 4 that share a key keep their order. *)
Example fetchAllEvents_sample :
  fetchAllEvents Sample.chain Sample.curve 3 2 2 (Some [Buy]) None
  = Some [Sample.event 2 1 0 Sample.tokenA 5; Sample.event 3 2 0 Sample.tokenA 6;
          Sample.event 3 2 1 Sample.tokenB 7; Sample.event 4 0 0 Sample.tokenA 8;
          Sample.event 4 0 0 Sample.tokenA 9; Sample.event 5 1 1 Sample.tokenB 4]
  /\ fetchAllEvents Sample.chain Sample.curve 1 2 2 (Some [Buy]) None = None
  /\ fetchAllEvents Sample.chain Sample.curve 50 2 0 (Some [Buy]) None = None.
Proof. repeat split; vm_compute; reflexivity. Qed.

(** ** Gas estimation failures *)

Lemma string_length_app (a b : string) :
  String.length (a ++ b) = (String.length a + String.length b)%nat.
Proof.
  induction a as [|c a IH]; [reflexivity|].
  change (String.length (String c (a ++ b)) = S (String.length a + String.length b)).
  simpl. now rewrite IH.
Qed.

Lemma string_app_assoc (a b c : string) : ((a ++ b) ++ c = a ++ b ++ c)%string.
Proof.
  induction a as [|x a IH]; [reflexivity|].
  change (String x ((a ++ b) ++ c) = String x (a ++ b ++ c))%string.
  now rewrite IH.
Qed.

Lemma prefixed_message_differs (pre m : string) :
  pre <> ""%string -> (pre ++ m)%string <> m.
Proof.
  intros Hpre Heq. apply (f_equal String.length) in Heq.
  rewrite string_length_app in Heq.
  destruct pre; [congruence|simpl in Heq; lia].
Qed.

Lemma encodeFunctionData_accepts (node : Node) (args : CallData) :
  viem_encodingError node args = None -> encodeFunctionData node args = Ok args.
Proof. intros Henc. unfold encodeFunctionData. now rewrite Henc. Qed.




(** C1, as the code has it. When the node call underneath a gas estimate
    fails (the node is asked once the calldata is encoded), the estimator
    does fail too, so nothing is swallowed; what it throws is a new Error
    whose message is "Gas estimation failed for <buy|sell|sell permit>
    operation: " followed by the message of the original error, or by
    "Unknown error" when the thrown value is no Error; the thrown value
    is never the original one. *)
Theorem estimateGas_failure_is_rewrapped (node : Node) (w : World)
    (routerAddress : string) (params : GasEstimationParams) (error : Thrown) :
  viem_encodingError node (eg_data (gas_request routerAddress params)) = None ->
  rpc_estimateGas node (calls w) (gas_request routerAddress params) = Throw error ->
  fst (estimateGas node routerAddress params w)
  = Throw (new_Error ("Gas estimation failed for " ++ gas_operation_name params
                      ++ " operation: " ++ message_or_unknown error)) /\
  fst (estimateGas node routerAddress params w) <> Throw error.
Proof.
  intros Henc Hnode.
  assert (fst (estimateGas node routerAddress params w)
          = Throw (new_Error ("Gas estimation failed for " ++ gas_operation_name params
                              ++ " operation: " ++ message_or_unknown error))) as Hres.
  { destruct params; simpl in *;
      unfold estimateBuyGas, estimateSellGas, estimateSellPermitGas, bind, lift_result;
      rewrite (encodeFunctionData_accepts _ _ Henc);
      unfold try_catch, bind, call, throw;
      now rewrite Hnode. }
  split; [exact Hres|].
  rewrite Hres. intros Heq. injection Heq as Heq.
  destruct error as [[name message data]|v]; [|discriminate].
  unfold new_Error in Heq. injection Heq as _ Hmsg _. simpl in Hmsg.
  rewrite <- !string_app_assoc in Hmsg.
  revert Hmsg. apply prefixed_message_differs. discriminate.
Qed.

Lemma estimateGas_failure_is_rewrapped_witness :
  fst (estimateGas SampleNode.reverting Sample.router
         (GasSell Sample.tokenA 1000 1 Sample.alice 9999999999) SampleNode.world)
  = Throw (new_Error "Gas estimation failed for sell operation: execution reverted") /\
  fst (estimateGas SampleNode.reverting Sample.router
         (GasSell Sample.tokenA 1000 1 Sample.alice 9999999999) SampleNode.world)
  <> Throw SampleNode.revert.
Proof.
  apply (estimateGas_failure_is_rewrapped SampleNode.reverting SampleNode.world
           Sample.router (GasSell Sample.tokenA 1000 1 Sample.alice 9999999999)
           SampleNode.revert);
    reflexivity.
Defined.

(** C1, as stated, fails: the node rejects a buy estimate with a revert
    error, and estimateBuyGas throws a different value. *)
Lemma estimateBuyGas_does_not_surface_unchanged :
  rpc_estimateGas SampleNode.reverting (calls SampleNode.world)
    (mkEstimateGasRequest Sample.router Sample.alice (Some 1000)
       (encode_buy 1 Sample.tokenA Sample.alice 9999999999))
  = Throw SampleNode.revert /\
  fst (estimateBuyGas SampleNode.reverting Sample.router Sample.tokenA 1000 1
         Sample.alice 9999999999 SampleNode.world)
  = Throw (ThrownError (mkJsError "Error"
             "Gas estimation failed for buy operation: execution reverted" None)) /\
  fst (estimateBuyGas SampleNode.reverting Sample.router Sample.tokenA 1000 1
         Sample.alice 9999999999 SampleNode.world)
  <> Throw SampleNode.revert.
Proof. split; [reflexivity|split; [reflexivity|discriminate]]. Qed.

(** ** Deadlines of the trade executor *)

(** A deadline the caller did set, and that is not zero, is the one used. *)
Lemma deadline_or_default_set (d : Z) (w : World) :
  d <> 0 -> deadline_or_default (Some d) w = (Ok d, w).
Proof.
  intros Hd. unfold deadline_or_default, truthy_number.
  destruct (Z.eqb_spec d 0); [contradiction|reflexivity].
Qed.

Lemma deadline_or_default_value (deadline : option Z) (w : World) :
  deadline_or_default deadline w = (Ok (sent_deadline deadline w), w).
Proof.
  unfold deadline_or_default, sent_deadline, truthy_number.
  destruct deadline as [d|]; [|reflexivity].
  now destruct (Z.eqb_spec d 0).
Qed.

(** The world after a transaction request has left the process. *)
Local Abbreviation sent_from node w tx :=
  (mkWorld (clock w + rpc_latency node (calls w)) (S (calls w)) (submitted w ++ [tx])).

(** Sending a transaction and waiting for its receipt, the common tail of
    buy, sell and sellPermit. *)
Lemma send_and_wait (node : Node) (tx : TxRequest) (w : World) :
  (hash <- sendTransaction node tx ;;
   transactionHash <- call node (fun n => rpc_waitForTransactionReceipt node n hash) ;;
   ret transactionHash) w
  = match rpc_sendTransaction node (calls w) tx with
    | Throw error => (Throw error, sent_from node w tx)
    | Ok hash => (rpc_waitForTransactionReceipt node (S (calls w)) hash,
                  after_call node (sent_from node w tx))
    end.
Proof.
  unfold bind, sendTransaction, call, ret.
  destruct (rpc_sendTransaction node (calls w) tx) as [hash|error]; [|reflexivity].
  simpl. now destruct (rpc_waitForTransactionReceipt node (S (calls w)) hash).
Qed.

Section TradeRuns.
Variable node : Node.
Variables account router : string.
Variable w : World.

(** [Trade.buy], step by step: the deadline, the encoder, the wallet,
    the receipt. *)
Lemma Trade_buy_run (params : BuyParams) :
  let callData := encode_buy (bp_amountOutMin params) (bp_token params) (bp_to params)
                             (sent_deadline (bp_deadline params) w) in
  let tx := mkTxRequest account router callData (Some (bp_amountIn params))
                        (bp_gasLimit params) (bp_gasPrice params) (bp_nonce params) in
  Trade_buy node account params router w
  = match viem_encodingError node callData with
    | Some error => (Throw error, w)
    | None =>
        match rpc_sendTransaction node (calls w) tx with
        | Throw error => (Throw error, sent_from node w tx)
        | Ok hash => (rpc_waitForTransactionReceipt node (S (calls w)) hash,
                      after_call node (sent_from node w tx))
        end
    end.
Proof.
  intros callData tx. unfold Trade_buy. unfold bind at 1.
  rewrite deadline_or_default_value. unfold bind at 1, lift_result, encodeFunctionData.
  fold callData. destruct (viem_encodingError node callData); [reflexivity|].
  apply send_and_wait.
Qed.

Lemma Trade_sell_run (params : SellParams) :
  let sellData := encode_sell (sp_amountIn params) (sp_amountOutMin params)
                              (sp_token params) (sp_to params)
                              (sent_deadline (sp_deadline params) w) in
  let tx := mkTxRequest account router sellData None
                        (sp_gasLimit params) (sp_gasPrice params) (sp_nonce params) in
  Trade_sell node account params router w
  = match viem_encodingError node sellData with
    | Some error => (Throw error, w)
    | None =>
        match rpc_sendTransaction node (calls w) tx with
        | Throw error => (Throw error, sent_from node w tx)
        | Ok hash => (rpc_waitForTransactionReceipt node (S (calls w)) hash,
                      after_call node (sent_from node w tx))
        end
    end.
Proof.
  intros sellData tx. unfold Trade_sell. unfold bind at 1.
  rewrite deadline_or_default_value. unfold bind at 1, lift_result, encodeFunctionData.
  fold sellData. destruct (viem_encodingError node sellData); [reflexivity|].
  apply send_and_wait.
Qed.

Lemma Trade_sellPermit_run (params : SellPermitParams) (d : Z) :
  sp_deadline (spp_sell params) = Some d ->
  let sellPermitData :=
    encode_sellPermit (sp_amountIn (spp_sell params)) (sp_amountOutMin (spp_sell params))
      (spp_amountAllowance params) (sp_token (spp_sell params)) (sp_to (spp_sell params))
      d (spp_v params) (spp_r params) (spp_s params) in
  let tx := mkTxRequest account router sellPermitData None
                        (sp_gasLimit (spp_sell params)) (sp_gasPrice (spp_sell params))
                        (sp_nonce (spp_sell params)) in
  Trade_sellPermit node account params router w
  = match viem_encodingError node sellPermitData with
    | Some error => (Throw error, w)
    | None =>
        match rpc_sendTransaction node (calls w) tx with
        | Throw error => (Throw error, sent_from node w tx)
        | Ok hash => (rpc_waitForTransactionReceipt node (S (calls w)) hash,
                      after_call node (sent_from node w tx))
        end
    end.
Proof.
  intros Hd sellPermitData tx. unfold Trade_sellPermit. unfold bind at 1, lift_result.
  rewrite Hd. cbn [BigInt]. unfold bind at 1, encodeFunctionData.
  fold sellPermitData. destruct (viem_encodingError node sellPermitData); [reflexivity|].
  apply send_and_wait.
Qed.

(** Once the arguments are encoded the request is handed to the wallet,
    whatever wallet and node answer. *)
Lemma submitted_after_send (tx : TxRequest) :
  submitted
    (snd (match rpc_sendTransaction node (calls w) tx with
          | Throw error => (Throw error, sent_from node w tx)
          | Ok hash => (rpc_waitForTransactionReceipt node (S (calls w)) hash,
                        after_call node (sent_from node w tx))
          end))
  = submitted w ++ [tx].
Proof. now destruct (rpc_sendTransaction node (calls w) tx). Qed.
End TradeRuns.

(** C7. With the deadline left unset, buy and sell encode a call whose
    deadline is the current time in whole seconds plus 3600 and hand it
    to the wallet.  sellPermit has no default: with a deadline it encodes
    and sends that very deadline, and without one it throws before
    anything is encoded or sent.  Where viem refuses to encode the
    arguments (a number outside uint256, an invalid address), the call
    ends with the encoder's error and nothing is sent; the deadline that
    was handed to the encoder is the same. *)
Theorem trade_deadlines (node : Node) (account router : string) (w : World) :
  (forall params : BuyParams, bp_deadline params = None ->
     let callData := encode_buy (bp_amountOutMin params) (bp_token params)
                                (bp_to params) (clock w / 1000 + 3600) in
     (viem_encodingError node callData = None ->
      submitted (snd (Trade_buy node account params router w))
      = submitted w ++
        [mkTxRequest account router callData
           (Some (bp_amountIn params)) (bp_gasLimit params) (bp_gasPrice params)
           (bp_nonce params)]) /\
     (forall error, viem_encodingError node callData = Some error ->
        Trade_buy node account params router w = (Throw error, w))) /\
  (forall params : SellParams, sp_deadline params = None ->
     let sellData := encode_sell (sp_amountIn params) (sp_amountOutMin params)
                                 (sp_token params) (sp_to params)
                                 (clock w / 1000 + 3600) in
     (viem_encodingError node sellData = None ->
      submitted (snd (Trade_sell node account params router w))
      = submitted w ++
        [mkTxRequest account router sellData
           None (sp_gasLimit params) (sp_gasPrice params) (sp_nonce params)]) /\
     (forall error, viem_encodingError node sellData = Some error ->
        Trade_sell node account params router w = (Throw error, w))) /\
  (forall (params : SellPermitParams) (d : Z),
     sp_deadline (spp_sell params) = Some d ->
     let sellPermitData :=
       encode_sellPermit (sp_amountIn (spp_sell params))
         (sp_amountOutMin (spp_sell params)) (spp_amountAllowance params)
         (sp_token (spp_sell params)) (sp_to (spp_sell params)) d
         (spp_v params) (spp_r params) (spp_s params) in
     (viem_encodingError node sellPermitData = None ->
      submitted (snd (Trade_sellPermit node account params router w))
      = submitted w ++
        [mkTxRequest account router sellPermitData
           None (sp_gasLimit (spp_sell params)) (sp_gasPrice (spp_sell params))
           (sp_nonce (spp_sell params))]) /\
     (forall error, viem_encodingError node sellPermitData = Some error ->
        Trade_sellPermit node account params router w = (Throw error, w))) /\
  (forall params : SellPermitParams,
     sp_deadline (spp_sell params) = None ->
     Trade_sellPermit node account params router w
     = (Throw (new_TypeError "Cannot convert undefined to a BigInt"), w)).
Proof.
  split; [|split; [|split]].
  - intros params Hd callData.
    pose proof (Trade_buy_run node account router w params) as Hrun.
    cbv zeta in Hrun. rewrite Hd in Hrun. cbn [sent_deadline] in Hrun.
    fold callData in Hrun. rewrite Hrun. split.
    + intros ->. apply submitted_after_send.
    + now intros error ->.
  - intros params Hd sellData.
    pose proof (Trade_sell_run node account router w params) as Hrun.
    cbv zeta in Hrun. rewrite Hd in Hrun. cbn [sent_deadline] in Hrun.
    fold sellData in Hrun. rewrite Hrun. split.
    + intros ->. apply submitted_after_send.
    + now intros error ->.
  - intros params d Hd sellPermitData.
    pose proof (Trade_sellPermit_run node account router w params d Hd) as Hrun.
    cbv zeta in Hrun. fold sellPermitData in Hrun. rewrite Hrun. split.
    + intros ->. apply submitted_after_send.
    + now intros error ->.
  - intros params Hd.
    unfold Trade_sellPermit, bind, lift_result. now rewrite Hd.
Qed.

(** One second past a whole minute, the caller of buy and sell leaving the
    deadline out; sellPermit given the deadline 0, then a deadline that
    is no uint256, then none. *)
Lemma trade_deadlines_witness :
  let w := mkWorld 60001999 0 [] in
  let sells d := mkSellParams Sample.tokenA Sample.alice 500 1 d None None None in
  let permit d := mkSellPermitParams (sells d) 500 27 SampleNode.permit_r
                                     SampleNode.permit_s in
  map tx_data (submitted (snd (Trade_buy SampleNode.healthy Sample.alice
     (mkBuyParams Sample.tokenA Sample.alice 1000 1 None None None None) Sample.router w)))
  = [encode_buy 1 Sample.tokenA Sample.alice 63601] /\
  map tx_data (submitted (snd (Trade_sell SampleNode.healthy Sample.alice
     (sells None) Sample.router w)))
  = [encode_sell 500 1 Sample.tokenA Sample.alice 63601] /\
  map tx_data (submitted (snd (Trade_sellPermit SampleNode.healthy Sample.alice
     (permit (Some 0)) Sample.router w)))
  = [encode_sellPermit 500 1 500 Sample.tokenA Sample.alice 0 27
       SampleNode.permit_r SampleNode.permit_s] /\
  (exists error,
     SampleNode.abi_uint 256 (-1) = Some error /\
     Trade_sellPermit SampleNode.healthy Sample.alice (permit (Some (-1))) Sample.router w
     = (Throw error, w)) /\
  Trade_sellPermit SampleNode.healthy Sample.alice (permit None) Sample.router w
  = (Throw (new_TypeError "Cannot convert undefined to a BigInt"), w).
Proof.
  intros w sells permit.
  destruct (trade_deadlines SampleNode.healthy Sample.alice Sample.router w)
    as (Hbuy & Hsell & Hpermit & Hnone).
  pose proof (Hbuy (mkBuyParams Sample.tokenA Sample.alice 1000 1 None None None None)
                eq_refl) as [Hbought _].
  pose proof (Hsell (sells None) eq_refl) as [Hsold _].
  pose proof (Hpermit (permit (Some 0)) 0 eq_refl) as [Hpermitted _].
  pose proof (Hpermit (permit (Some (-1))) (-1) eq_refl) as [_ Hrefused].
  split; [|split; [|split; [|split]]].
  - rewrite (Hbought eq_refl); reflexivity.
  - rewrite (Hsold eq_refl); reflexivity.
  - rewrite (Hpermitted eq_refl); reflexivity.
  - eexists. split; [reflexivity|]. apply Hrefused. reflexivity.
  - apply Hnone. reflexivity.
Defined.

(** ** Stopping a stream that is not running *)

(** C9. stop() on a stream that is not running returns at once: the
    stream object, listeners included, and the subscriptions of the
    client are exactly what they were. *)
Theorem stop_when_not_running (tr : Transport) :
  (forall (s : CurveStream) (subs : Subscriptions),
     cs_isRunning s = false -> CurveStream_stop tr (s, subs) = (Ok tt, (s, subs))) /\
  (forall (s : DexStream) (subs : Subscriptions),
     ds_isRunning s = false -> DexStream_stop tr (s, subs) = (Ok tt, (s, subs))).
Proof.
  split; intros s subs Hidle.
  - unfold CurveStream_stop, bind, this. simpl. now rewrite Hidle.
  - unfold DexStream_stop, bind, this. simpl. now rewrite Hidle.
Qed.

(** A listener registered before start() is still there after a stop()
    that came too early, on either stream. *)
Lemma stop_when_not_running_witness :
  let tr := mkTransport (fun _ => false) (fun _ => false) in
  let subs := mkSubscriptions 3 [(2%nat, "0xelse")] in
  let curve := CurveStream_onEvent "k3x9qf" 7%nat (CurveStream_new Sample.curve) in
  let dex := DexStream_onSwap "p0o1zz" 8%nat (DexStream_new ["0xpool"]) in
  (CurveStream_stop tr (curve, subs) = (Ok tt, (curve, subs)) /\
   cs_listeners (fst (snd (CurveStream_stop tr (curve, subs)))) !! "k3x9qf" = Some 7%nat) /\
  (DexStream_stop tr (dex, subs) = (Ok tt, (dex, subs)) /\
   ds_listeners (fst (snd (DexStream_stop tr (dex, subs)))) !! "p0o1zz" = Some 8%nat).
Proof.
  intros tr subs curve dex.
  destruct (stop_when_not_running tr) as [Hcurve Hdex].
  split.
  - rewrite (Hcurve curve subs) by reflexivity. split; [reflexivity|].
    simpl. apply lookup_insert_eq.
  - rewrite (Hdex dex subs) by reflexivity. split; [reflexivity|].
    simpl. apply lookup_insert_eq.
Defined.

(** By contrast a running stream does lose its listeners and its
    subscription on stop(). *)
Example stop_when_running :
  let tr := mkTransport (fun _ => false) (fun _ => false) in
  let subs := mkSubscriptions 0 [] in
  let curve := CurveStream_onEvent "k3x9qf" 7%nat (CurveStream_new Sample.curve) in
  let started := snd (CurveStream_start tr (curve, subs)) in
  let stopped := snd (CurveStream_stop tr started) in
  cs_isRunning (fst started) = true /\
  subs_active (snd started) = [(0%nat, Sample.curve)] /\
  cs_listeners (fst stopped) = ∅ /\
  cs_isRunning (fst stopped) = false /\
  subs_active (snd stopped) = [].
Proof. repeat split. Qed.

(** ** Pool discovery *)

Section PoolDiscoveryFacts.
Variable node : Node.
Variable WMON : string.
Variable NADS_FEE_TIER : Z.

Local Abbreviation turn := (findPool_turn node WMON NADS_FEE_TIER).
Local Abbreviation loop := (findPools_loop node WMON NADS_FEE_TIER).
Local Abbreviation find := (findPoolsForTokens node WMON NADS_FEE_TIER).
Local Abbreviation factory_answer := (factory_answer node WMON NADS_FEE_TIER).

(** The wrapped-native token costs no call and adds nothing. *)
Lemma findPool_turn_wmon (acc : list string) (t : string) (w : World) :
  toLowerCase t = toLowerCase WMON -> turn acc t w = (Ok acc, w).
Proof.
  intros Hw. unfold findPool_turn, try_catch.
  rewrite Hw, String.eqb_refl. reflexivity.
Qed.

(** Any other token costs one call and adds the pool the factory names,
    if it names one. *)
Lemma findPool_turn_lookup (acc : list string) (t : string) (w : World) :
  toLowerCase t <> toLowerCase WMON ->
  turn acc t w
  = (Ok (acc ++ match factory_answer t w with
                | Ok pool =>
                    if truthy_string pool && negb (String.eqb pool zero_address)
                    then [pool] else []
                | Throw _ => []
                end),
     after_call node w).
Proof.
  intros Hw. unfold findPool_turn, try_catch, factory_answer.
  destruct (String.eqb_spec (toLowerCase t) (toLowerCase WMON)) as [|_];
    [contradiction|].
  destruct (pool_key WMON t) as [token0 token1]. unfold bind, call, ret. simpl.
  destruct (factory_getPool node (calls w) token0 token1 NADS_FEE_TIER) as [pool|e].
  - destruct (truthy_string pool && negb (String.eqb pool zero_address));
      [reflexivity|now rewrite app_nil_r].
  - now rewrite app_nil_r.
Qed.

Lemma findPool_turn_shape (t : string) (w : World) :
  exists added w', forall acc, turn acc t w = (Ok (acc ++ added), w').
Proof.
  destruct (String.eqb_spec (toLowerCase t) (toLowerCase WMON)) as [Hw|Hw].
  - exists [], w. intros acc. rewrite app_nil_r. now apply findPool_turn_wmon.
  - eexists _, _. intros acc. now apply findPool_turn_lookup.
Qed.

Lemma findPools_loop_shape (tokens : list string) :
  forall w, exists found w', forall acc, loop tokens acc w = (Ok (acc ++ found), w').
Proof.
  induction tokens as [|t tokens IH]; intros w.
  - exists [], w. intros acc. now rewrite app_nil_r.
  - destruct (findPool_turn_shape t w) as (added & w1 & Hturn).
    destruct (IH w1) as (found & w' & Hloop).
    exists (added ++ found), w'. intros acc.
    cbn [findPools_loop]. unfold bind. rewrite Hturn, Hloop.
    now rewrite app_assoc.
Qed.

Lemma findPools_loop_app (pre post : list string) :
  forall acc w,
  loop (pre ++ post) acc w = bind (loop pre acc) (fun acc' => loop post acc') w.
Proof.
  induction pre as [|t pre IH]; intros acc w; [reflexivity|].
  cbn [findPools_loop app]. unfold bind.
  destruct (turn acc t w) as [[acc'|e] w1]; [|reflexivity].
  rewrite IH. reflexivity.
Qed.

(** C8. Discovery never aborts.  Wherever a token stands in the list:
    if it is the wrapped-native token (in any letter case), discovery
    gives the pools and makes the calls it would without that token;
    if the factory answers the zero address for it, or the lookup
    fails, the result is the pools found before it followed by the
    pools found for the tokens after it. *)
Theorem pool_discovery_skips (pre post : list string) (t : string) (w : World) :
  exists found w1,
    find pre w = (Ok found, w1) /\
    (exists pools w', find (pre ++ t :: post) w = (Ok pools, w')) /\
    (toLowerCase t = toLowerCase WMON ->
       find (pre ++ t :: post) w = find (pre ++ post) w) /\
    (toLowerCase t <> toLowerCase WMON ->
     (factory_answer t w1 = Ok zero_address \/ exists e, factory_answer t w1 = Throw e) ->
     exists rest w2,
       find post (after_call node w1) = (Ok rest, w2) /\
       find (pre ++ t :: post) w = (Ok (found ++ rest), w2)).
Proof.
  destruct (findPools_loop_shape pre w) as (found & w1 & Hpre).
  exists found, w1. unfold findPoolsForTokens.
  split; [apply (Hpre [])|]. split; [|split].
  - destruct (findPools_loop_shape (pre ++ t :: post) w) as (pools & w' & Hall).
    exists pools, w'. apply (Hall []).
  - intros Hw. rewrite !findPools_loop_app. unfold bind. rewrite (Hpre []).
    cbn [findPools_loop]. unfold bind. now rewrite findPool_turn_wmon.
  - intros Hw Hanswer.
    destruct (findPools_loop_shape post (after_call node w1)) as (rest & w2 & Hpost).
    exists rest, w2. split; [apply (Hpost [])|].
    rewrite findPools_loop_app. unfold bind at 1. rewrite (Hpre []).
    cbn [findPools_loop app]. unfold bind. rewrite findPool_turn_lookup by assumption.
    replace (match factory_answer t w1 with
             | Ok pool => if truthy_string pool && negb (String.eqb pool zero_address)
                          then [pool] else []
             | Throw _ => []
             end) with (@nil string).
    + rewrite app_nil_r. apply Hpost.
    + destruct Hanswer as [-> | [e ->]]; reflexivity.
Qed.
End PoolDiscoveryFacts.

(** Five tokens: one with a pool, the wrapped-native token in upper case,
    one without a pool, one on which the factory fails, and the first one
    again. *)
Example pool_discovery_sample :
  findPoolsForTokens SampleNode.factory SampleNode.WMON 3000
    [Sample.tokenA; "0X760AFE86E5DE5FA0EE542FC7B7B713E1C5425701"; Sample.tokenB;
     "0xdead"; Sample.tokenA] SampleNode.world
  = (Ok ["0xF00d"; "0xF00d"], mkWorld 1700000000000 4 []).
Proof. vm_compute. reflexivity. Qed.

Lemma pool_discovery_skips_witness :
  findPoolsForTokens SampleNode.factory SampleNode.WMON 3000
    ([Sample.tokenA] ++ "0X760AFE86E5DE5FA0EE542FC7B7B713E1C5425701" :: [Sample.tokenB])
    SampleNode.world
  = findPoolsForTokens SampleNode.factory SampleNode.WMON 3000
      ([Sample.tokenA] ++ [Sample.tokenB]) SampleNode.world /\
  exists rest w2,
    findPoolsForTokens SampleNode.factory SampleNode.WMON 3000 [Sample.tokenA]
      (after_call SampleNode.factory (mkWorld 1700000000000 1 [])) = (Ok rest, w2) /\
    findPoolsForTokens SampleNode.factory SampleNode.WMON 3000
      ([Sample.tokenA] ++ Sample.tokenB :: [Sample.tokenA]) SampleNode.world
    = (Ok (["0xF00d"] ++ rest), w2).
Proof.
  split.
  - destruct (pool_discovery_skips SampleNode.factory SampleNode.WMON 3000
                [Sample.tokenA] [Sample.tokenB]
                "0X760AFE86E5DE5FA0EE542FC7B7B713E1C5425701" SampleNode.world)
      as (found & w1 & _ & _ & Hwmon & _).
    apply Hwmon. reflexivity.
  - destruct (pool_discovery_skips SampleNode.factory SampleNode.WMON 3000
                [Sample.tokenA] [Sample.tokenA] Sample.tokenB SampleNode.world)
      as (found & w1 & Hpre & _ & _ & Hzero).
    vm_compute in Hpre. injection Hpre as <- <-.
    apply Hzero; [discriminate|left; reflexivity].
Defined.

(** ** Bundler bot: one result per operation? *)

Lemma successful_plus_failed (results : list BundledOperationResult) :
  (successful_count results + failed_count results = length results)%nat.
Proof.
  unfold successful_count, failed_count.
  induction results as [|r results IH]; [reflexivity|].
  rewrite !filter_cons. destruct (res_success r) eqn:E; simpl.
  - destruct (decide (true = true)); [|contradiction].
    destruct (decide (true = false)); [discriminate|]. simpl. lia.
  - destruct (decide (false = true)); [discriminate|].
    destruct (decide (false = false)); [|contradiction]. simpl. lia.
Qed.

(** A [try] whose [catch] returns a value never throws. *)
Lemma try_catch_returns {S A} (m : Eff S A) (f : Thrown -> A) (s : S) :
  exists a s', try_catch m (fun error => ret (f error)) s = (Ok a, s').
Proof.
  unfold try_catch, ret. destruct (m s) as [[a|e] s']; eauto.
Qed.

Section BundlerFacts.
Variable node : Node.
Variable account : string.
Variable config : BundlerConfig.

Local Abbreviation turn := (execute_turn node account config).

(** The [switch] of [execute], as a computation on the loop state. *)
Local Abbreviation dispatch := (fun operation : BundledOperation =>
  if String.eqb (op_type operation) "buy" then
    on_world (Bundler_executeBuy node account config operation)
  else if String.eqb (op_type operation) "sell" then
    on_world (Bundler_executeSell node account config operation)
  else if String.eqb (op_type operation) "sellPermit" then
    on_world (Bundler_executeSellPermit node account config operation)
  else
    ret (failed operation ("Unknown operation type: " ++ op_type operation))).

Local Ltac executor_returns w :=
  match goal with
  | |- context [try_catch ?m (fun error => ret (@?f error))] =>
      let r := fresh "r" in
      let w' := fresh "w'" in
      let Hr := fresh "Hr" in
      destruct (try_catch_returns m f w) as (r & w' & Hr);
      exists r, w'; intros results; cbn [snd fst]; rewrite Hr; reflexivity
  end.

(** The three executors catch everything: each returns a record, and
    none looks at the records gathered so far. *)
Lemma bundler_dispatch_returns (operation : BundledOperation) (w : World) :
  exists result w',
    forall results : list BundledOperationResult,
      dispatch operation (results, w) = (Ok result, (results, w')).
Proof.
  cbv beta.
  destruct (String.eqb (op_type operation) "buy");
    [|destruct (String.eqb (op_type operation) "sell");
      [|destruct (String.eqb (op_type operation) "sellPermit")]];
    unfold on_world, Bundler_executeBuy, Bundler_executeSell, Bundler_executeSellPermit.
  - executor_returns w.
  - executor_returns w.
  - executor_returns w.
  - unfold ret. eauto.
Qed.

(** A turn of the loop never throws.  It appends the record of the
    operation and, when it waited for the receipt and the wait threw, a
    second, failed record for the same operation. *)
Lemma execute_turn_shape (operation : BundledOperation) (w : World) :
  exists added w',
    (forall results, turn operation (results, w) = (Ok tt, (results ++ added, w'))) /\
    (length added = 1%nat \/
     (length added = 2%nat /\ truthy_bool (bc_waitForConfirmation config) = true)).
Proof.
  destruct (bundler_dispatch_returns operation w) as (result & w1 & Hdispatch).
  destruct (truthy_bool (bc_waitForConfirmation config) && res_success result
            && truthy_hash (res_txHash result)) eqn:Hwait.
  - destruct (rpc_waitForTransactionReceipt node (calls w1)
                (default "" (res_txHash result))) as [h|e] eqn:Hreceipt.
    + exists [result]. eexists. split; [|now left].
      intros results. unfold execute_turn, try_catch. unfold bind at 1.
      rewrite Hdispatch. unfold bind at 1, push_result, update_this, modify.
      simpl. rewrite Hwait. unfold bind, on_world, call, ret. simpl.
      now rewrite Hreceipt.
    + exists [result; failed operation (message_or_string e)]. eexists. split.
      * intros results. unfold execute_turn, try_catch. unfold bind at 1.
        rewrite Hdispatch. unfold bind at 1, push_result, update_this, modify.
        simpl. rewrite Hwait. unfold bind, on_world, call, ret. simpl.
        rewrite Hreceipt. simpl. now rewrite <- app_assoc.
      * right. split; [reflexivity|].
        now destruct (truthy_bool (bc_waitForConfirmation config)).
  - exists [result], w1. split; [|now left].
    intros results. unfold execute_turn, try_catch. unfold bind at 1.
    rewrite Hdispatch. unfold bind at 1, push_result, update_this, modify.
    simpl. now rewrite Hwait.
Qed.

Lemma execute_loop_shape (operations : list BundledOperation) :
  forall w : World,
  exists added w',
    (forall results,
       for_each operations turn (results, w) = (Ok tt, (results ++ added, w'))) /\
    (length operations <= length added <= 2 * length operations)%nat /\
    (truthy_bool (bc_waitForConfirmation config) = false ->
     length added = length operations).
Proof.
  induction operations as [|operation operations IH]; intros w.
  - exists [], w. split; [intros results; now rewrite app_nil_r|].
    simpl. split; [lia|reflexivity].
  - destruct (execute_turn_shape operation w) as (a1 & w1 & Hturn & Hlen1).
    destruct (IH w1) as (a2 & w2 & Hrest & Hlen2 & Hnowait).
    exists (a1 ++ a2), w2. split.
    + intros results. cbn [for_each]. unfold bind. rewrite Hturn, Hrest.
      now rewrite app_assoc.
    + rewrite length_app. simpl length. split; [lia|].
      intros Hoff. specialize (Hnowait Hoff).
      destruct Hlen1 as [Hone|[_ Hon]]; [lia|congruence].
Qed.

(** What does hold of [execute]: it returns, whatever fails on the way;
    no operation is left without a record, none has more than two; with
    confirmation waiting off there is exactly one record per operation;
    and the records split into successes and failures. *)
Lemma execute_results_shape (operations : list BundledOperation) (w : World) :
  exists results w',
    execute node account config operations w = (Ok results, w') /\
    (length operations <= length results <= 2 * length operations)%nat /\
    (truthy_bool (bc_waitForConfirmation config) = false ->
     length results = length operations) /\
    (successful_count results + failed_count results = length results)%nat.
Proof.
  destruct (execute_loop_shape operations w) as (added & w' & Hloop & Hlen & Hoff).
  exists added, w'. unfold execute. rewrite Hloop. simpl.
  split; [reflexivity|]. split; [exact Hlen|].
  split; [exact Hoff|apply successful_plus_failed].
Qed.

(** Operations after a failed one are carried out all the same: a
    bundle is carried out as its first part, then its second part from
    where the first part left the world. *)
Lemma execute_app (ops1 ops2 : list BundledOperation) (w : World) :
  exists results1 w1 results2 w2,
    execute node account config ops1 w = (Ok results1, w1) /\
    execute node account config ops2 w1 = (Ok results2, w2) /\
    execute node account config (ops1 ++ ops2) w = (Ok (results1 ++ results2), w2).
Proof.
  assert (forall ops1 results w,
            for_each (ops1 ++ ops2) turn (results, w)
            = bind (for_each ops1 turn) (fun _ => for_each ops2 turn) (results, w))
    as Happ.
  { clear. induction ops1 as [|o ops1 IH]; intros results w; [reflexivity|].
    cbn [for_each app]. unfold bind.
    destruct (turn o (results, w)) as [[[]|e] [results' w']]; [|reflexivity].
    rewrite IH. reflexivity. }
  destruct (execute_loop_shape ops1 w) as (r1 & w1 & H1 & _).
  destruct (execute_loop_shape ops2 w1) as (r2 & w2 & H2 & _).
  exists r1, w1, r2, w2. unfold execute.
  rewrite Happ. unfold bind. now rewrite !H1, !H2.
Qed.
End BundlerFacts.

(** A bundle of three whose second operation fails for lack of funds:
    the third is carried out, and there are three records. *)
Example execute_continues_after_failure :
  exists w',
    execute SampleBots.small_wallet Sample.alice SampleBots.bundler
      [SampleBots.buy "1"; SampleBots.buy "7"; SampleBots.buy "2"] SampleNode.world
    = (Ok [succeeded (SampleBots.buy "1") "0xtx" (2 * 10 ^ 18);
           failed (SampleBots.buy "7")
             "Insufficient balance: 5000000000000000000 < 7000000000000000000";
           succeeded (SampleBots.buy "2") "0xtx" (4 * 10 ^ 18)], w') /\
    length (submitted w') = 2%nat.
Proof. eexists. vm_compute. split; reflexivity. Qed.

(** C6, where the code departs from it. One buy, confirmation waiting
    left at its default (on). The purchase goes through: Trade.buy sends
    the transaction and sees its receipt. The bundler then asks for the
    receipt once more, inside the same [try] block and after the record
    was pushed; that query fails, and the [catch] block pushes a second
    record. One operation in, two records out: one successful, one
    failed. *)
Theorem execute_records_one_operation_twice :
  exists w',
    execute (SampleBots.receipt_fails_at 6) Sample.alice SampleBots.bundler
      [SampleBots.buy "1"] SampleNode.world
    = (Ok [succeeded (SampleBots.buy "1") "0xtx" (2 * 10 ^ 18);
           failed (SampleBots.buy "1") "Timed out while waiting for transaction"], w') /\
    length (submitted w') = 1%nat /\
    length [succeeded (SampleBots.buy "1") "0xtx" (2 * 10 ^ 18);
            failed (SampleBots.buy "1") "Timed out while waiting for transaction"]
    <> length [SampleBots.buy "1"] /\
    (successful_count
       [succeeded (SampleBots.buy "1") "0xtx" (2 * 10 ^ 18);
        failed (SampleBots.buy "1") "Timed out while waiting for transaction"]
     + failed_count
       [succeeded (SampleBots.buy "1") "0xtx" (2 * 10 ^ 18);
        failed (SampleBots.buy "1") "Timed out while waiting for transaction"]
     = 2)%nat.
Proof.
  eexists. split; [vm_compute; reflexivity|].
  split; [reflexivity|]. split; [discriminate|reflexivity].
Qed.

(** ** Sniper bot: the rate limit *)

Section SniperFacts.
Variable node : Node.
Variable account : string.

Local Abbreviation step := (occur node account).
Local Abbreviation go := (run node account).

(** What the rate limit reads and what the claim counts. *)
Let config (r : Running) : SniperConfig := sb_config (run_bot r).
Let lastBuyTime (r : Running) : Z := sb_lastBuyTime (run_bot r).
Let buys (r : Running) : Z := totalBuys (sb_stats (run_bot r)).
Let skips (r : Running) : Z := skippedBuys (sb_stats (run_bot r)).

(** An event delivered outside the rate-limit window, for a token no
    list rejects, to a bot without custom filter and with auto-buy on,
    starts a purchase at once. *)
Lemma delivered_event_buys (r : Running) (t : Z) (event : BondingCurveEvent) :
  effective_interval (sc_minBuyInterval (config r)) <= t - lastBuyTime r ->
  not_whitelisted (config r) event = false ->
  blacklisted (config r) event = false ->
  sc_tokenFilter (config r) = false ->
  truthy_bool (sc_autoBuy (config r)) = true ->
  let r' := step r (CreateEventDelivered t event) in
  config r' = config r /\ lastBuyTime r' = t /\
  buys r' = buys r + 1 /\ skips r' = skips r.
Proof.
  unfold config, lastBuyTime, buys, skips.
  intros Hlimit Hwhite Hblack Hfilter Hauto.
  unfold occur, handleCreateEvent_begin, handleCreateEvent_buy,
    executeBuy_begin, bind, update_this, modify, this, on_world, Date_now, ret.
  simpl.
  destruct (Z.ltb_spec (t - sb_lastBuyTime (run_bot r))
              (effective_interval (sc_minBuyInterval (sb_config (run_bot r)))));
    [lia|].
  rewrite Hwhite, Hblack, Hfilter. simpl. rewrite Hauto. simpl.
  repeat split.
Qed.

(** An event delivered inside the window is skipped. *)
Lemma delivered_event_rate_limited (r : Running) (t : Z) (event : BondingCurveEvent) :
  t - lastBuyTime r < effective_interval (sc_minBuyInterval (config r)) ->
  let r' := step r (CreateEventDelivered t event) in
  config r' = config r /\ lastBuyTime r' = lastBuyTime r /\
  buys r' = buys r /\ skips r' = skips r + 1.
Proof.
  unfold config, lastBuyTime, buys, skips. intros Hlimit.
  unfold occur, handleCreateEvent_begin, bind, update_this, modify, this,
    on_world, Date_now, ret.
  simpl.
  destruct (Z.ltb_spec (t - sb_lastBuyTime (run_bot r))
              (effective_interval (sc_minBuyInterval (sb_config (run_bot r)))));
    [|lia].
  simpl. repeat split.
Qed.

(** The network part of a purchase touches neither the configuration,
    nor the time stamp, nor the two counters. *)
Lemma purchase_settled_preserves (r : Running) (o : Occurrence) :
  is_purchase_settled o ->
  let r' := step r o in
  config r' = config r /\ lastBuyTime r' = lastBuyTime r /\
  buys r' = buys r /\ skips r' = skips r.
Proof.
  unfold config, lastBuyTime, buys, skips.
  destruct o as [| |t i]; try contradiction. intros _.
  unfold occur.
  destruct (run_handlers r !! i) as [[|event|event]|]; try (repeat split; fail).
  unfold executeBuy_finish, try_catch, bind, this, on_world, update_this, modify, ret.
  simpl.
  destruct (executeBuy_purchase node account (sb_config (run_bot r)) event
              (at_time t (run_world r))) as [[txHash|error] w'];
    simpl; repeat split.
Qed.

Lemma purchases_settled_preserve (os : list Occurrence) :
  Forall is_purchase_settled os ->
  forall r : Running,
  config (go r os) = config r /\ lastBuyTime (go r os) = lastBuyTime r /\
  buys (go r os) = buys r /\ skips (go r os) = skips r.
Proof.
  induction 1 as [|o os Ho _ IH]; intros r; [repeat split|].
  unfold run in *. cbn [fold_left].
  destruct (IH (step r o)) as (-> & -> & -> & ->).
  now apply purchase_settled_preserves.
Qed.

(** Where the claim holds: without a custom filter there is no way for
    the second event to get in before the first attempt is stamped. Two
    events 500 ms apart then give one attempt and one skip, however the
    network parts of purchases fall in between and after. *)
Lemma rate_limit_without_custom_filter (r : Running) (t : Z)
    (first second : BondingCurveEvent) (between after : list Occurrence) :
  sc_minBuyInterval (config r) = Some 1000 ->
  truthy_bool (sc_autoBuy (config r)) = true ->
  sc_tokenFilter (config r) = false ->
  not_whitelisted (config r) first = false ->
  blacklisted (config r) first = false ->
  1000 <= t - lastBuyTime r ->
  Forall is_purchase_settled between ->
  Forall is_purchase_settled after ->
  let r' := go r (CreateEventDelivered t first :: between
                   ++ CreateEventDelivered (t + 500) second :: after) in
  buys r' = buys r + 1 /\ skips r' = skips r + 1.
Proof.
  intros Hinterval Hauto Hfilter Hwhite Hblack Hfresh Hbetween Hafter r'.
  subst r'. unfold run. cbn [fold_left]. rewrite fold_left_app.
  cbn [fold_left].
  destruct (delivered_event_buys r t first) as (Hc1 & Hl1 & Hb1 & Hs1);
    try assumption; [rewrite Hinterval; simpl; lia|].
  set (r1 := step r (CreateEventDelivered t first)) in *.
  destruct (purchases_settled_preserve between Hbetween r1) as (Hc2 & Hl2 & Hb2 & Hs2).
  unfold run in *.
  set (r2 := fold_left step between r1) in *.
  destruct (delivered_event_rate_limited r2 (t + 500) second) as (Hc3 & Hl3 & Hb3 & Hs3).
  { rewrite Hc2, Hc1, Hinterval, Hl2, Hl1. simpl. lia. }
  set (r3 := step r2 (CreateEventDelivered (t + 500) second)) in *.
  destruct (purchases_settled_preserve after Hafter r3) as (Hc4 & Hl4 & Hb4 & Hs4).
  unfold run in *. lia.
Qed.
End SniperFacts.

Lemma rate_limit_without_custom_filter_witness :
  let r' := run SampleNode.healthy Sample.alice (SampleBots.started false)
              (CreateEventDelivered 1700000000000 SampleBots.first
               :: [PurchaseSettled 1700000000300 0]
               ++ CreateEventDelivered (1700000000000 + 500) SampleBots.second
               :: [PurchaseSettled 1700000000900 1]) in
  totalBuys (sb_stats (run_bot r')) = 0 + 1 /\ skippedBuys (sb_stats (run_bot r')) = 0 + 1.
Proof.
  apply (rate_limit_without_custom_filter SampleNode.healthy Sample.alice
           (SampleBots.started false) 1700000000000 SampleBots.first SampleBots.second
           [PurchaseSettled 1700000000300 0] [PurchaseSettled 1700000000900 1]);
    try reflexivity; try (repeat constructor); simpl; lia.
Defined.

(** C5, where the code departs from it. A bot with a rate limit of
    1000 ms, auto-buy on and a custom token filter that takes 600 ms to
    answer. Two Create events arrive 500 ms apart; both tokens pass every
    filter. When the second event arrives the first invocation is still
    waiting for its filter, so no attempt has been stamped yet and the
    rate limit lets the second event through. Both invocations go on to
    buy: two attempts, 500 ms apart, and no skip. *)
Theorem rate_limit_overtaken_by_pending_filter :
  let t := 1700000000000 in
  let r := run SampleNode.healthy Sample.alice (SampleBots.started true)
             [CreateEventDelivered t SampleBots.first;
              CreateEventDelivered (t + 500) SampleBots.second;
              TokenFilterSettled (t + 600) 0 (Ok true);
              TokenFilterSettled (t + 1100) 1 (Ok true);
              PurchaseSettled (t + 1500) 0;
              PurchaseSettled (t + 2000) 1] in
  sb_stats (run_bot r) = mkSniperStats 2 2 2 0 0 /\
  map tx_data (submitted (run_world r))
  = [encode_buy 1900000000000000000 Sample.tokenA Sample.alice 1700000301;
     encode_buy 1900000000000000000 Sample.tokenB Sample.alice 1700000302].
Proof. vm_compute. split; reflexivity. Qed.

(** The same bot and events with a filter that answers within a
    millisecond: one attempt, one skip. *)
Example rate_limit_with_prompt_filter :
  let t := 1700000000000 in
  let r := run SampleNode.healthy Sample.alice (SampleBots.started true)
             [CreateEventDelivered t SampleBots.first;
              TokenFilterSettled (t + 1) 0 (Ok true);
              CreateEventDelivered (t + 500) SampleBots.second;
              PurchaseSettled (t + 1500) 0] in
  sb_stats (run_bot r) = mkSniperStats 2 1 1 0 1.
Proof. vm_compute. reflexivity. Qed.

(* ===================================================================== *)
(** * Part III: further properties of the code *)
(* ===================================================================== *)

(** ** Slippage arithmetic *)

Lemma slippage_bp_mono (p q : Q) :
  (p <= q)%Q -> Qfloor (p * 100) <= Qfloor (q * 100).
Proof.
  intros Hpq. apply Qfloor_resp_le.
  apply Qmult_le_compat_r; [assumption|discriminate].
Qed.

(** X1. A larger slippage tolerance never tightens a bound: the minimum
    amount out does not grow and the maximum amount in does not shrink. *)
Theorem slippage_monotone (amount : Z) (p q : Q) :
  0 <= amount -> (0 <= p)%Q -> (p <= q)%Q -> (q < 100)%Q ->
  exists minP minQ maxP maxQ,
    calculateMinAmountOut amount p = Ok minP /\
    calculateMinAmountOut amount q = Ok minQ /\
    calculateMaxAmountIn amount p = Ok maxP /\
    calculateMaxAmountIn amount q = Ok maxQ /\
    minQ <= minP /\ maxP <= maxQ.
Proof.
  intros Hamount Hp Hpq Hq.
  assert ((p < 100)%Q) as Hp100 by (eapply Qle_lt_trans; eassumption).
  assert ((0 <= q)%Q) as Hq0 by (eapply Qle_trans; eassumption).
  destruct (slippage_in_range p Hp Hp100) as [Hgp _].
  destruct (slippage_in_range q Hq0 Hq) as [Hgq _].
  pose proof (slippage_bp_mono p q Hpq) as Hbp.
  unfold calculateMinAmountOut, calculateMaxAmountIn. rewrite Hgp, Hgq.
  do 4 eexists. repeat (split; [reflexivity|]).
  split; apply Z.quot_le_mono; nia.
Qed.

Lemma slippage_monotone_witness :
  exists minP minQ maxP maxQ,
    calculateMinAmountOut 1000 (1 # 2) = Ok minP /\
    calculateMinAmountOut 1000 5 = Ok minQ /\
    calculateMaxAmountIn 1000 (1 # 2) = Ok maxP /\
    calculateMaxAmountIn 1000 5 = Ok maxQ /\
    minQ <= minP /\ maxP <= maxQ.
Proof.
  apply (slippage_monotone 1000 (1 # 2) 5); unfold Qle, Qlt; simpl; lia.
Defined.

(** X2. A tolerance below one basis point (0.01 %) is no tolerance: both
    bounds are the amount itself. *)
Theorem slippage_below_one_basis_point (amount : Z) (p : Q) :
  (0 <= p)%Q -> (p < 1 # 100)%Q ->
  calculateMinAmountOut amount p = Ok amount /\
  calculateMaxAmountIn amount p = Ok amount.
Proof.
  intros Hp Hsmall.
  assert ((p < 100)%Q) as Hp100
    by (eapply Qlt_trans; [eassumption|reflexivity]).
  destruct (slippage_in_range p Hp Hp100) as [Hguard [Hlow _]].
  assert (Qfloor (p * 100) = 0) as Hbp.
  { assert (Qfloor (p * 100) < 1); [|lia].
    rewrite Zlt_Qlt. eapply Qle_lt_trans; [apply Qfloor_le|].
    eapply Qlt_le_trans;
      [apply Qmult_lt_compat_r; [reflexivity|exact Hsmall]|].
    unfold Qle; simpl; lia. }
  unfold calculateMinAmountOut, calculateMaxAmountIn. rewrite Hguard, Hbp.
  change (10000 - 0) with 10000. change (10000 + 0) with 10000.
  rewrite Z.quot_mul by discriminate. split; reflexivity.
Qed.

Lemma slippage_below_one_basis_point_witness :
  calculateMinAmountOut 123456 (9 # 1000) = Ok 123456 /\
  calculateMaxAmountIn 123456 (9 # 1000) = Ok 123456.
Proof.
  apply (slippage_below_one_basis_point 123456 (9 # 1000));
    unfold Qle, Qlt; simpl; lia.
Defined.

(** X3. Measuring slippage against an expected amount of zero throws, and
    the tolerance check throws with it; against any other expected amount
    both return, and an actual amount equal to the expected one measures
    as zero slippage, within every non-negative tolerance. *)
Theorem actual_slippage_zero_expected (expected actual : Z) (tolerance : Q) :
  (expected = 0 ->
     calculateActualSlippage expected actual
     = Throw (new_Error "Expected amount cannot be zero") /\
     isSlippageWithinTolerance expected actual tolerance
     = Throw (new_Error "Expected amount cannot be zero")) /\
  (expected <> 0 ->
     (exists s, calculateActualSlippage expected actual = Ok s) /\
     (exists b, isSlippageWithinTolerance expected actual tolerance = Ok b) /\
     ((0 <= tolerance)%Q ->
      isSlippageWithinTolerance expected expected tolerance = Ok true)).
Proof.
  split.
  - intros ->. split; reflexivity.
  - intros Hne. unfold isSlippageWithinTolerance, calculateActualSlippage.
    destruct (Z.eqb_spec expected 0) as [|_]; [contradiction|].
    split; [eauto|]. split; [eauto|].
    intros Htol. f_equal. apply Qle_bool_iff.
    rewrite Z.sub_diag.
    assert (forall x : Q, (inject_Z 0 * 100 / x == 0)%Q) as Hzero
      by (intros x; unfold Qdiv; now rewrite !Qmult_0_l).
    assert (Math_round (inject_Z 0 * 100 / inject_Z expected * 100) = 0) as ->.
    { unfold Math_round.
      assert ((inject_Z 0 * 100 / inject_Z expected * 100 + (1 # 2) == 1 # 2)%Q) as ->
        by (rewrite Hzero; reflexivity).
      reflexivity. }
    eapply Qle_trans; [|exact Htol]. unfold Qle; simpl; lia.
Qed.

Lemma actual_slippage_zero_expected_witness :
  calculateActualSlippage 0 98 = Throw (new_Error "Expected amount cannot be zero") /\
  isSlippageWithinTolerance 0 98 5 = Throw (new_Error "Expected amount cannot be zero").
Proof.
  apply (proj1 (actual_slippage_zero_expected 0 98 5)). reflexivity.
Defined.

(** The documented example: 98 received for 100 expected is 2 %. *)
Example actual_slippage_two_percent :
  calculateActualSlippage 100 98 = Ok (inject_Z 200 / 100)%Q /\
  isSlippageWithinTolerance 100 98 5 = Ok true /\
  isSlippageWithinTolerance 100 98 1 = Ok false.
Proof. repeat split. Qed.

(** ** Quotes, estimates and submissions *)

(** X4. A quote is one read of the lens: getAmountOut returns the
    (router, amount) pair the lens answers, or throws the very error the
    lens call threw, and hands nothing to the wallet. *)
Theorem getAmountOut_passes_lens_answer (node : Node) (token : string) (amountIn : Z)
    (isBuy : bool) (w : World) :
  getAmountOut node token amountIn isBuy w
  = (lens_getAmountOut node (calls w) token amountIn isBuy, after_call node w) /\
  submitted (snd (getAmountOut node token amountIn isBuy w)) = submitted w.
Proof.
  unfold getAmountOut, try_catch, call, throw.
  destruct (lens_getAmountOut node (calls w) token amountIn isBuy); split; reflexivity.
Qed.



(** X6. buy and sell never retry and never hold back.  When viem encodes
    the arguments, each call hands the wallet exactly one transaction,
    from the account to the router it was given, with the amount as value
    for a buy and no value for a sell; if the wallet refuses, that error
    is thrown and no receipt is asked for; otherwise the outcome is that
    of the one receipt query.  When viem refuses the arguments, the
    encoder's error is thrown and neither wallet nor node is called. *)
Theorem buy_and_sell_submit_once (node : Node) (account router : string) (w : World) :
  (forall params : BuyParams,
     let callData := encode_buy (bp_amountOutMin params) (bp_token params)
                                (bp_to params) (sent_deadline (bp_deadline params) w) in
     let tx := mkTxRequest account router callData
                 (Some (bp_amountIn params)) (bp_gasLimit params) (bp_gasPrice params)
                 (bp_nonce params) in
     let '(outcome, w') := Trade_buy node account params router w in
     match viem_encodingError node callData with
     | Some error => outcome = Throw error /\ w' = w
     | None =>
         submitted w' = submitted w ++ [tx] /\
         match rpc_sendTransaction node (calls w) tx with
         | Throw error => outcome = Throw error /\ calls w' = S (calls w)
         | Ok hash =>
             outcome = rpc_waitForTransactionReceipt node (S (calls w)) hash /\
             calls w' = S (S (calls w))
         end
     end) /\
  (forall params : SellParams,
     let sellData := encode_sell (sp_amountIn params) (sp_amountOutMin params)
                                 (sp_token params) (sp_to params)
                                 (sent_deadline (sp_deadline params) w) in
     let tx := mkTxRequest account router sellData
                 None (sp_gasLimit params) (sp_gasPrice params) (sp_nonce params) in
     let '(outcome, w') := Trade_sell node account params router w in
     match viem_encodingError node sellData with
     | Some error => outcome = Throw error /\ w' = w
     | None =>
         submitted w' = submitted w ++ [tx] /\
         match rpc_sendTransaction node (calls w) tx with
         | Throw error => outcome = Throw error /\ calls w' = S (calls w)
         | Ok hash =>
             outcome = rpc_waitForTransactionReceipt node (S (calls w)) hash /\
             calls w' = S (S (calls w))
         end
     end).
Proof.
  split; intros params callData tx.
  - pose proof (Trade_buy_run node account router w params) as Hrun.
    cbv zeta in Hrun. fold callData tx in Hrun. rewrite Hrun.
    destruct (viem_encodingError node callData); [now split|].
    destruct (rpc_sendTransaction node (calls w) tx); repeat split.
  - pose proof (Trade_sell_run node account router w params) as Hrun.
    cbv zeta in Hrun. fold callData tx in Hrun. rewrite Hrun.
    destruct (viem_encodingError node callData); [now split|].
    destruct (rpc_sendTransaction node (calls w) tx); repeat split.
Qed.

(** X7. A deadline of 0 counts as no deadline for buy and sell: the call
    behaves exactly as with the deadline left out (now + 3600 s is
    encoded).  Any other deadline is the one handed to the encoder: it is
    sent as given when viem encodes the arguments, and when viem refuses
    them (a deadline outside uint256, for one) the call throws the
    encoder's error and sends nothing. *)
Theorem zero_deadline_counts_as_unset (node : Node) (account router : string) (w : World)
    (token to : string) (amountIn amountOutMin : Z) (gasLimit gasPrice nonce : option Z) :
  let buy d := Trade_buy node account
                 (mkBuyParams token to amountIn amountOutMin d gasLimit gasPrice nonce)
                 router w in
  let sell d := Trade_sell node account
                  (mkSellParams token to amountIn amountOutMin d gasLimit gasPrice nonce)
                  router w in
  buy (Some 0) = buy None /\ sell (Some 0) = sell None /\
  (forall d, d <> 0 ->
     (viem_encodingError node (encode_buy amountOutMin token to d) = None ->
      map tx_data (submitted (snd (buy (Some d))))
      = map tx_data (submitted w) ++ [encode_buy amountOutMin token to d]) /\
     (forall error,
        viem_encodingError node (encode_buy amountOutMin token to d) = Some error ->
        buy (Some d) = (Throw error, w)) /\
     (viem_encodingError node (encode_sell amountIn amountOutMin token to d) = None ->
      map tx_data (submitted (snd (sell (Some d))))
      = map tx_data (submitted w) ++ [encode_sell amountIn amountOutMin token to d]) /\
     (forall error,
        viem_encodingError node (encode_sell amountIn amountOutMin token to d)
        = Some error ->
        sell (Some d) = (Throw error, w))).
Proof.
  intros buy sell. split; [reflexivity|]. split; [reflexivity|].
  intros d Hd.
  assert (sent_deadline (Some d) w = d) as Hsent
    by (unfold sent_deadline; now destruct (Z.eqb_spec d 0)).
  pose proof (Trade_buy_run node account router w
                (mkBuyParams token to amountIn amountOutMin (Some d)
                             gasLimit gasPrice nonce)) as Hbuy.
  pose proof (Trade_sell_run node account router w
                (mkSellParams token to amountIn amountOutMin (Some d)
                              gasLimit gasPrice nonce)) as Hsell.
  cbv zeta in Hbuy, Hsell.
  cbn [bp_amountOutMin bp_token bp_to bp_deadline bp_amountIn bp_gasLimit bp_gasPrice
       bp_nonce] in Hbuy.
  cbn [sp_amountOutMin sp_token sp_to sp_deadline sp_amountIn sp_gasLimit sp_gasPrice
       sp_nonce] in Hsell.
  rewrite Hsent in Hbuy, Hsell. unfold buy, sell. rewrite Hbuy, Hsell.
  split; [|split; [|split]].
  - intros ->. now rewrite submitted_after_send, map_app.
  - now intros error ->.
  - intros ->. now rewrite submitted_after_send, map_app.
  - now intros error ->.
Qed.

Lemma zero_deadline_counts_as_unset_witness :
  map tx_data
    (submitted (snd (Trade_buy SampleNode.healthy Sample.alice
                       (mkBuyParams Sample.tokenA Sample.alice 10 9 (Some 1700000301)
                                    None None None)
                       Sample.router SampleNode.world)))
  = map tx_data (submitted SampleNode.world)
    ++ [encode_buy 9 Sample.tokenA Sample.alice 1700000301] /\
  (exists error,
     SampleNode.abi_uint 256 (-5) = Some error /\
     Trade_buy SampleNode.healthy Sample.alice
       (mkBuyParams Sample.tokenA Sample.alice 10 9 (Some (-5)) None None None)
       Sample.router SampleNode.world
     = (Throw error, SampleNode.world)).
Proof.
  pose proof (zero_deadline_counts_as_unset SampleNode.healthy Sample.alice Sample.router
                SampleNode.world Sample.tokenA Sample.alice 10 9 None None None) as H.
  cbv zeta in H. destruct H as (_ & _ & H). split.
  - apply (H 1700000301); [lia|reflexivity].
  - eexists. split; [reflexivity|]. apply (H (-5)); [lia|reflexivity].
Defined.

(** ** What the historical indexer returns *)

Lemma parseBondingCurveEvent_fields (log : Log) (timestamp : option Z)
    (event : BondingCurveEvent) :
  parseBondingCurveEvent log timestamp = Some event ->
  ev_blockNumber event = log_blockNumber log /\
  ev_transactionIndex event = log_transactionIndex log /\
  ev_logIndex event = log_logIndex log /\
  ev_transactionHash event = log_transactionHash log /\
  ev_address event = log_address log /\
  ev_timestamp event = timestamp /\
  exists parsed, log_decoded log = Some parsed /\ ev_token event = args_token parsed.
Proof.
  unfold parseBondingCurveEvent.
  destruct (log_decoded log) as [parsed|]; [|discriminate].
  intros Hparse. injection Hparse as <-.
  destruct parsed; simpl; repeat split; eauto.
Qed.

Lemma keep_log_parsed (eventTypes : option (list CurveEventType))
    (tokenFilter : option (list string)) (log : Log) (event : BondingCurveEvent) :
  keep_log eventTypes tokenFilter log = Some event ->
  parseBondingCurveEvent log None = Some event.
Proof.
  unfold keep_log. destruct (parseBondingCurveEvent log None) as [e|]; [|discriminate].
  repeat match goal with |- context [if ?c then _ else _] => destruct c end;
    congruence.
Qed.

Lemma blocks_from_elem (b start : Z) (count : nat) :
  b ∈ blocks_from start count <-> start <= b < start + Z.of_nat count.
Proof.
  revert start. induction count as [|count IH]; intros start; simpl.
  - rewrite elem_of_nil. lia.
  - rewrite elem_of_cons, IH. lia.
Qed.

Lemma getLogs_elem (c : Chain) (address : string) (fromBlock toBlock : Z) (log : Log) :
  log ∈ getLogs c address fromBlock toBlock <->
  log_address log = address /\
  exists b, fromBlock <= b <= toBlock /\ log ∈ chain_logs c b.
Proof.
  unfold getLogs. rewrite list_elem_of_filter, list_elem_of_In, in_flat_map.
  split.
  - intros [Haddr (b & Hb & Hlog)]. split; [assumption|]. exists b.
    apply list_elem_of_In, blocks_from_elem in Hb.
    split; [lia|now apply list_elem_of_In].
  - intros [Haddr (b & Hb & Hlog)]. split; [assumption|]. exists b.
    split; [|now apply list_elem_of_In].
    apply list_elem_of_In, blocks_from_elem. lia.
Qed.

(** X8. fetchEvents returns, in chronological order, exactly the logs of
    the range that decode and pass the filters, each as often as the node
    reports it.  Every event returned stems from a log of the bonding
    curve contract in a block of the range, carries that log's block
    number, transaction index and log index, and has no timestamp. *)
Theorem fetchEvents_selects_and_sorts (chain : Chain) (bondingCurveAddress : string)
    (fromBlock toBlock : Z) (eventTypes : option (list CurveEventType))
    (tokenFilter : option (list string)) :
  let events :=
    fetchEvents chain bondingCurveAddress fromBlock toBlock eventTypes tokenFilter in
  Sorted key_le events /\
  Permutation (omap (keep_log eventTypes tokenFilter)
                    (getLogs chain bondingCurveAddress fromBlock toBlock)) events /\
  forall event, event ∈ events ->
    ev_timestamp event = None /\ ev_address event = bondingCurveAddress /\
    exists b log,
      fromBlock <= b <= toBlock /\ log ∈ chain_logs chain b /\
      parseBondingCurveEvent log None = Some event /\
      ev_blockNumber event = log_blockNumber log /\
      ev_transactionIndex event = log_transactionIndex log /\
      ev_logIndex event = log_logIndex log.
Proof.
  intros events. unfold events, fetchEvents, processLogs.
  split; [apply chronological_sort_sorted|].
  split; [apply chronological_sort_perm|].
  intros event Hin.
  rewrite <- (chronological_sort_perm _) in Hin.
  apply list_elem_of_omap in Hin as (log & Hlog & Hkeep).
  apply keep_log_parsed in Hkeep.
  apply getLogs_elem in Hlog as [Haddr (b & Hb & Hlog)].
  destruct (parseBondingCurveEvent_fields _ _ _ Hkeep)
    as (Hbn & Hti & Hli & _ & Hea & Hts & _).
  split; [assumption|]. split; [congruence|].
  exists b, log. repeat split; assumption || lia.
Qed.

(** X9. A CurveTokenListed log never gets past an event-type filter, not
    even one that names Listed: the parser tags the event "CurveListed"
    while the enum value the filter holds is "CurveTokenListed".  This
    holds for the indexer and for the live stream.  Every other kind of
    log passes a type filter that names its kind. *)
Theorem listed_events_never_pass_type_filter (log : Log) (parsed : CurveArgs) :
  log_decoded log = Some parsed ->
  (args_event_type parsed = Listed ->
     (forall eventTypes tokenFilter,
        keep_log (Some eventTypes) tokenFilter log = None) /\
     (forall getBlock s, CurveStream_notified getBlock s log = None)) /\
  (args_event_type parsed <> Listed ->
     forall eventTypes,
       args_event_type parsed ∈ eventTypes ->
       keep_log (Some eventTypes) None log = parseBondingCurveEvent log None /\
       is_Some (parseBondingCurveEvent log None)).
Proof.
  intros Hdecoded.
  assert (forall eventTypes : list CurveEventType,
            ("CurveListed" : string) ∉ map CurveEventType_value eventTypes) as Hnot.
  { intros eventTypes Hin. apply list_elem_of_fmap in Hin as (t & Ht & _).
    destruct t; discriminate. }
  split.
  - intros Hlisted. destruct parsed; try discriminate. split.
    + intros eventTypes tokenFilter. unfold keep_log, parseBondingCurveEvent.
      rewrite Hdecoded. simpl. unfold set_has.
      rewrite bool_decide_eq_false_2 by apply Hnot. reflexivity.
    + intros getBlock s. unfold CurveStream_notified, parseBondingCurveEvent.
      destruct (getBlock (log_blockNumber log)); [|reflexivity].
      rewrite Hdecoded. unfold CurveStream_passes, set_has. simpl.
      rewrite bool_decide_eq_false_2 by apply Hnot. reflexivity.
  - intros Hother eventTypes Hin. unfold keep_log, parseBondingCurveEvent.
    rewrite Hdecoded. split; [|eauto].
    assert (forall t : CurveEventType, t ∈ eventTypes ->
              set_has (map CurveEventType_value eventTypes) (CurveEventType_value t)
              = true) as Hhas.
    { intros t Ht. unfold set_has. apply bool_decide_eq_true_2.
      apply list_elem_of_fmap. eauto. }
    destruct parsed; simpl in *; try contradiction;
      match goal with
      | |- context [set_has _ ?v] =>
          first [ change v with (CurveEventType_value Create)
                | change v with (CurveEventType_value Buy)
                | change v with (CurveEventType_value Sell)
                | change v with (CurveEventType_value Sync)
                | change v with (CurveEventType_value Lock) ]
      end;
      now rewrite Hhas.
Qed.

Lemma listed_events_never_pass_type_filter_witness :
  let listed := mkLog 7 "0xhash" 0 0 Sample.curve
                      (Some (CurveTokenListedArgs Sample.tokenA "0xpool")) in
  let locked := mkLog 7 "0xhash" 0 1 Sample.curve
                      (Some (CurveTokenLockedArgs Sample.tokenA)) in
  keep_log (Some [Listed]) None listed = None /\
  keep_log (Some [Lock]) None locked = parseBondingCurveEvent locked None.
Proof.
  intros listed locked. split.
  - apply (proj1 (listed_events_never_pass_type_filter listed
                    (CurveTokenListedArgs Sample.tokenA "0xpool") eq_refl));
      reflexivity.
  - apply (proj2 (listed_events_never_pass_type_filter locked
                    (CurveTokenLockedArgs Sample.tokenA) eq_refl));
      [discriminate|]. apply list_elem_of_In. now left.
Defined.

(** X10. For the indexer an empty filter array is a filter that nothing
    passes: with eventTypes = [] or tokenFilter = [] fetchEvents returns
    no event, whatever the chain holds; only a filter left out lets
    everything through.  The live stream reads an empty token filter the
    other way: as no filter at all. *)
Theorem empty_filter_arrays (chain : Chain) (bondingCurveAddress : string)
    (fromBlock toBlock : Z) (eventTypes : option (list CurveEventType))
    (tokenFilter : option (list string)) (s : CurveStream) (event : BondingCurveEvent) :
  fetchEvents chain bondingCurveAddress fromBlock toBlock (Some []) tokenFilter = [] /\
  fetchEvents chain bondingCurveAddress fromBlock toBlock eventTypes (Some []) = [] /\
  CurveStream_passes (CurveStream_filterTokens [] s) event
  = CurveStream_passes (cs_set_tokenFilter None s) event.
Proof.
  assert (forall (f : Log -> option BondingCurveEvent) (logs : list Log),
            (forall log, f log = None) -> chronological_sort (omap f logs) = [])
    as Hnone.
  { intros f logs Hf. induction logs as [|log logs IH]; [reflexivity|].
    cbn [omap list_omap]. now rewrite Hf. }
  split; [|split]; [| |reflexivity]; unfold fetchEvents, processLogs;
    apply Hnone; intros log; unfold keep_log;
    destruct (parseBondingCurveEvent log None) as [e|]; try reflexivity; simpl;
    repeat match goal with |- context [if ?c then _ else _] => destruct c end;
    reflexivity.
Qed.

(** X11. The token filter of the indexer ignores letter case: a decoded
    log passes it exactly when some address of the filter equals the
    event's token up to case. *)
Theorem token_filter_ignores_case (tokenFilter : list string) (log : Log)
    (event : BondingCurveEvent) :
  parseBondingCurveEvent log None = Some event ->
  (keep_log None (Some tokenFilter) log = Some event <->
   exists address, address ∈ tokenFilter /\
                   toLowerCase address = toLowerCase (ev_token event)).
Proof.
  intros Hparse. unfold keep_log. rewrite Hparse. simpl. unfold set_has.
  destruct (bool_decide_reflect (toLowerCase (ev_token event)
                                 ∈ map toLowerCase tokenFilter)) as [Hin|Hout]; simpl.
  - split; [intros _|reflexivity].
    apply list_elem_of_fmap in Hin as (address & Heq & Hin). eauto.
  - split; [discriminate|]. intros (address & Hin & Heq). exfalso. apply Hout.
    apply list_elem_of_fmap. eauto.
Qed.

Lemma token_filter_ignores_case_witness :
  let log := Sample.buy_log 3 2 0 Sample.tokenA 6 in
  keep_log None (Some [Sample.tokenA_upper]) log
  = Some (Sample.event 3 2 0 Sample.tokenA 6) <->
  exists address, address ∈ [Sample.tokenA_upper] /\
                  toLowerCase address = toLowerCase Sample.tokenA.
Proof.
  intros log.
  apply (token_filter_ignores_case [Sample.tokenA_upper] log
           (Sample.event 3 2 0 Sample.tokenA 6)).
  reflexivity.
Defined.

(** ** The DEX indexer *)

Lemma getSwapLogs_split (c : DexChain) (addresses : list string) (a b e : Z) :
  a <= b + 1 -> b <= e ->
  getSwapLogs c addresses a e = getSwapLogs c addresses a b ++ getSwapLogs c addresses (b + 1) e.
Proof.
  intros Hab Hbe. unfold getSwapLogs.
  now rewrite (block_range_split a b e), flat_map_app, filter_app.
Qed.

Section DexBatchedFetch.
Variable chain : DexChain.
Variable poolAddresses : list string.
Variable batchSize : Z.
Hypothesis batchSize_pos : 1 <= batchSize.

(** The events of a range before sorting; none when no pool is watched. *)
Let swaps (fromBlock toBlock : Z) : list SwapEvent :=
  if Nat.eqb (length poolAddresses) 0 then []
  else omap (fun log => parseSwapEvent log None)
            (getSwapLogs chain poolAddresses fromBlock toBlock).

Lemma DexIndexer_fetchEvents_swaps (a b : Z) :
  DexIndexer_fetchEvents chain poolAddresses a b = chronological_sort (swaps a b).
Proof.
  unfold DexIndexer_fetchEvents, swaps, DexIndexer_processLogs.
  now destruct (Nat.eqb (length poolAddresses) 0).
Qed.

Lemma swaps_split (a b e : Z) :
  a <= b + 1 -> b <= e -> swaps a e = swaps a b ++ swaps (b + 1) e.
Proof.
  intros Hab Hbe. unfold swaps.
  destruct (Nat.eqb (length poolAddresses) 0); [reflexivity|].
  now rewrite (getSwapLogs_split _ _ a b e), omap_app.
Qed.

Lemma swaps_empty (a b : Z) : b < a -> swaps a b = [].
Proof.
  intros Hlt. unfold swaps, getSwapLogs. rewrite block_range_empty by lia.
  now destruct (Nat.eqb (length poolAddresses) 0).
Qed.

Lemma DexIndexer_loop_spec (targetBlock : Z) (fuel : nat) :
  forall (currentBlock : Z) (allEvents : list SwapEvent),
  (Z.to_nat (targetBlock - currentBlock + 1) <= fuel)%nat ->
  exists gathered,
    DexIndexer_fetchAllEvents_loop chain poolAddresses (S fuel) currentBlock targetBlock
                                   batchSize allEvents = Some gathered /\
    chronological_sort gathered
    = chronological_sort (allEvents ++ swaps currentBlock targetBlock).
Proof.
  induction fuel as [|fuel IH]; intros cur acc Hfuel;
    cbn [DexIndexer_fetchAllEvents_loop];
    destruct (Z.leb_spec cur targetBlock) as [Hle|Hgt];
    try (exists acc; split; [reflexivity|];
         rewrite swaps_empty by lia; now rewrite app_nil_r);
    try lia.
  set (toBlock := Z.min (cur + batchSize - 1) targetBlock) in *.
  destruct (Z.geb_spec toBlock targetBlock) as [Hge|Hlt].
  - eexists; split; [reflexivity|].
    replace toBlock with targetBlock by lia.
    rewrite DexIndexer_fetchEvents_swaps.
    rewrite <- (app_nil_r (chronological_sort (swaps cur targetBlock))).
    rewrite chronological_sort_app_mid. now rewrite app_nil_r.
  - destruct (IH (toBlock + 1)
                 (acc ++ DexIndexer_fetchEvents chain poolAddresses cur toBlock))
      as (gathered & Hrun & Hsort); [lia|].
    exists gathered. split; [exact Hrun|].
    rewrite Hsort, DexIndexer_fetchEvents_swaps.
    rewrite <- app_assoc, chronological_sort_app_mid.
    now rewrite (swaps_split cur toBlock targetBlock) by lia.
Qed.
End DexBatchedFetch.

(** X12. The DEX indexer batches like the curve indexer: for every start
    block and every batch size of at least one its fetchAllEvents
    returns (its loop always exits) the list one fetchEvents call over
    [startBlock, head] returns.  With no pool to watch fetchEvents
    returns the empty list, whatever the chain holds. *)
Theorem DexIndexer_fetchAllEvents_agrees (chain : DexChain) (poolAddresses : list string)
    (startBlock batchSize : Z) :
  1 <= batchSize ->
  (exists enough : nat, forall fuel : nat, (enough <= fuel)%nat ->
     DexIndexer_fetchAllEvents chain poolAddresses fuel startBlock batchSize
     = Some (DexIndexer_fetchEvents chain poolAddresses startBlock (dex_head chain))) /\
  (forall fromBlock toBlock : Z,
     DexIndexer_fetchEvents chain [] fromBlock toBlock = []).
Proof.
  intros Hbatch. split; [|reflexivity].
  exists (S (Z.to_nat (dex_head chain - startBlock + 1))).
  intros fuel Hfuel. destruct fuel as [|fuel]; [lia|].
  destruct (DexIndexer_loop_spec chain poolAddresses batchSize Hbatch
              (dex_head chain) fuel startBlock [])
    as (gathered & Hrun & Hsort); [lia|].
  unfold DexIndexer_fetchAllEvents. rewrite Hrun. simpl. f_equal.
  rewrite Hsort. simpl. symmetry. apply DexIndexer_fetchEvents_swaps.
Qed.

(** ** Stream life cycle *)

Section CurveStreamFacts.
Variable tr : Transport.

(** What start() does to an idle bonding-curve stream. *)
Lemma CurveStream_start_idle (s : CurveStream) (subs : Subscriptions) :
  cs_isRunning s = false ->
  let eventTypes := if Nat.eqb (length (cs_eventTypes s)) 0
                    then [Create; Buy; Sell; Sync; Lock; Listed]
                    else cs_eventTypes s in
  let h := subs_issued subs in
  CurveStream_start tr (s, subs)
  = (Ok tt,
     if watch_throws tr h
     then (mkCurveStream (cs_bondingCurveAddress s) eventTypes (cs_tokenFilter s)
             (cs_listeners s) true (cs_watchFn s) 0
             (cs_maxReconnectAttempts s) (cs_reconnectDelay s),
           mkSubscriptions (S h) (subs_active subs))
     else (mkCurveStream (cs_bondingCurveAddress s) eventTypes (cs_tokenFilter s)
             (cs_listeners s) true (Some h) 0
             (cs_maxReconnectAttempts s) (cs_reconnectDelay s),
           mkSubscriptions (S h) (subs_active subs ++ [(h, cs_bondingCurveAddress s)]))).
Proof.
  intros Hidle eventTypes h.
  unfold CurveStream_start, CurveStream_startWatching, try_catch, bind, this,
    update_this, modify, on_world, watch, ret. simpl. rewrite Hidle.
  subst eventTypes h.
  destruct (Nat.eqb (length (cs_eventTypes s)) 0); simpl;
    destruct (watch_throws tr (subs_issued subs)); reflexivity.
Qed.

(** X13. start() on an idle bonding-curve stream always reports success
    and leaves the stream marked as running, with the six event types
    when none were chosen and with listeners and token filter untouched.
    When the transport refuses the subscription the error is swallowed:
    the stream is marked as running although nothing is subscribed. *)
Theorem CurveStream_start_swallows_watch_failure (s : CurveStream) (subs : Subscriptions) :
  cs_isRunning s = false ->
  let '(outcome, (s', subs')) := CurveStream_start tr (s, subs) in
  outcome = Ok tt /\
  cs_isRunning s' = true /\ cs_reconnectAttempts s' = 0 /\
  cs_listeners s' = cs_listeners s /\ cs_tokenFilter s' = cs_tokenFilter s /\
  (cs_eventTypes s = [] -> cs_eventTypes s' = [Create; Buy; Sell; Sync; Lock; Listed]) /\
  (cs_eventTypes s <> [] -> cs_eventTypes s' = cs_eventTypes s) /\
  (watch_throws tr (subs_issued subs) = false ->
     cs_watchFn s' = Some (subs_issued subs) /\
     subs_active subs' = subs_active subs ++ [(subs_issued subs, cs_bondingCurveAddress s)]) /\
  (watch_throws tr (subs_issued subs) = true ->
     cs_watchFn s' = cs_watchFn s /\ subs_active subs' = subs_active subs).
Proof.
  intros Hidle. rewrite (CurveStream_start_idle s subs Hidle).
  destruct (watch_throws tr (subs_issued subs)); simpl;
    (repeat split; try discriminate; try (intros _; reflexivity);
     [intros ->; reflexivity
     |intros Hne; destruct (cs_eventTypes s); [contradiction|reflexivity]]).
Qed.

Lemma CurveStream_start_twice (s : CurveStream) (subs : Subscriptions) :
  CurveStream_start tr (snd (CurveStream_start tr (s, subs)))
  = (Ok tt, snd (CurveStream_start tr (s, subs))).
Proof.
  destruct (cs_isRunning s) eqn:Hrun.
  - assert (CurveStream_start tr (s, subs) = (Ok tt, (s, subs))) as ->
      by (unfold CurveStream_start, bind, this; simpl; now rewrite Hrun).
    simpl. unfold CurveStream_start, bind, this; simpl; now rewrite Hrun.
  - rewrite (CurveStream_start_idle s subs Hrun).
    destruct (watch_throws tr (subs_issued subs)); reflexivity.
Qed.

(** X14. When the unwatch function throws, stop() still reports success,
    forgets the listeners and marks the stream idle, but the subscription
    stays active and the stream keeps its handle; a later start() opens a
    second subscription next to it. *)
Theorem CurveStream_stop_with_failing_unwatch (s : CurveStream) (subs : Subscriptions)
    (h : nat) :
  cs_isRunning s = true -> cs_watchFn s = Some h -> unwatch_throws tr h = true ->
  let '(outcome, (s', subs')) := CurveStream_stop tr (s, subs) in
  outcome = Ok tt /\ subs' = subs /\
  cs_isRunning s' = false /\ cs_listeners s' = ∅ /\ cs_watchFn s' = Some h /\
  (watch_throws tr (subs_issued subs) = false ->
   subs_active (snd (snd (CurveStream_start tr (s', subs'))))
   = subs_active subs ++ [(subs_issued subs, cs_bondingCurveAddress s)]).
Proof.
  intros Hrun Hwatch Hthrow.
  unfold CurveStream_stop, try_catch, bind, this, update_this, modify, on_world,
    unwatch, ret. simpl. rewrite Hrun, Hwatch. simpl. rewrite Hthrow. simpl.
  do 5 (split; [first [reflexivity | assumption]|]).
  intros Hok. rewrite CurveStream_start_idle by reflexivity. now rewrite Hok.
Qed.
End CurveStreamFacts.

(** X15. The listener registry of both streams is a map keyed by the
    drawn id: removing a listener just registered under a fresh id
    restores the stream; registering under an id already in use replaces
    the earlier listener; removing one listener leaves the others. *)
Theorem listener_registry (id : string) (first second : Callback) :
  (forall s : CurveStream,
     (cs_listeners s !! id = None ->
      CurveStream_removeListener id (CurveStream_onEvent id first s) = s) /\
     CurveStream_onEvent id second (CurveStream_onEvent id first s)
     = CurveStream_onEvent id second s /\
     (forall other, other <> id ->
        cs_listeners (CurveStream_removeListener id s) !! other
        = cs_listeners s !! other)) /\
  (forall s : DexStream,
     (ds_listeners s !! id = None ->
      DexStream_removeListener id (DexStream_onSwap id first s) = s) /\
     DexStream_onSwap id second (DexStream_onSwap id first s)
     = DexStream_onSwap id second s /\
     (forall other, other <> id ->
        ds_listeners (DexStream_removeListener id s) !! other
        = ds_listeners s !! other)).
Proof.
  split; intros s; (split; [|split]).
  - intros Hfresh. destruct s.
    unfold CurveStream_removeListener, CurveStream_onEvent, cs_set_listeners; simpl in *.
    f_equal. rewrite delete_insert_eq. now apply delete_id.
  - destruct s. unfold CurveStream_onEvent, cs_set_listeners; simpl.
    f_equal. apply insert_insert_eq.
  - intros other Hne. simpl. now apply lookup_delete_ne.
  - intros Hfresh. destruct s.
    unfold DexStream_removeListener, DexStream_onSwap, ds_set_listeners; simpl in *.
    f_equal. rewrite delete_insert_eq. now apply delete_id.
  - destruct s. unfold DexStream_onSwap, ds_set_listeners; simpl.
    f_equal. apply insert_insert_eq.
  - intros other Hne. simpl. now apply lookup_delete_ne.
Qed.

Lemma ds_set_watchFunctions_twice (v1 v2 : list nat) (s : DexStream) :
  ds_set_watchFunctions v2 (ds_set_watchFunctions v1 s) = ds_set_watchFunctions v2 s.
Proof. reflexivity. Qed.

Section DexStreamFacts.
Variable tr : Transport.

(** Watching pools only ever touches the list of unwatch functions. *)
Lemma DexStream_watch_pools_frame (pools : list string) :
  forall (s : DexStream) (subs : Subscriptions),
  exists watchFunctions subs',
    for_each pools (DexStream_watchPoolEvents tr) (s, subs)
    = (Ok tt, (ds_set_watchFunctions watchFunctions s, subs')).
Proof.
  induction pools as [|pool pools IH]; intros s subs.
  - exists (ds_watchFunctions s), subs. now destruct s.
  - cbn [for_each]. unfold bind.
    assert (exists wf subs1,
              DexStream_watchPoolEvents tr pool (s, subs)
              = (Ok tt, (ds_set_watchFunctions wf s, subs1))) as (wf & subs1 & ->).
    { unfold DexStream_watchPoolEvents, try_catch, bind, on_world, watch, update_this,
        modify, ret. simpl.
      destruct (watch_throws tr (subs_issued subs)); simpl.
      - exists (ds_watchFunctions s). eexists. now destruct s.
      - eauto. }
    destruct (IH (ds_set_watchFunctions wf s) subs1) as (wf' & subs' & ->).
    exists wf', subs'. reflexivity.
Qed.

Lemma DexStream_start_twice (s : DexStream) (subs : Subscriptions) :
  DexStream_start tr (snd (DexStream_start tr (s, subs)))
  = (Ok tt, snd (DexStream_start tr (s, subs))).
Proof.
  destruct (ds_isRunning s) eqn:Hrun.
  - assert (DexStream_start tr (s, subs) = (Ok tt, (s, subs))) as ->
      by (unfold DexStream_start, bind, this; simpl; now rewrite Hrun).
    simpl. unfold DexStream_start, bind, this; simpl; now rewrite Hrun.
  - destruct (Nat.eqb (length (ds_poolAddresses s)) 0) eqn:Hpools.
    + assert (DexStream_start tr (s, subs) = (Ok tt, (s, subs))) as ->
        by (unfold DexStream_start, bind, this; simpl; now rewrite Hrun, Hpools).
      simpl. unfold DexStream_start, bind, this; simpl; now rewrite Hrun, Hpools.
    + assert (exists wf subs',
                DexStream_start tr (s, subs)
                = (Ok tt, (ds_set_watchFunctions wf
                             (ds_set_reconnectAttempts 0 (ds_set_isRunning true s)),
                           subs'))) as (wf & subs' & ->).
      { unfold DexStream_start, bind, this, update_this, modify. simpl.
        rewrite Hrun, Hpools.
        apply (DexStream_watch_pools_frame (ds_poolAddresses s)
                 (ds_set_reconnectAttempts 0 (ds_set_isRunning true s)) subs). }
      reflexivity.
Qed.
End DexStreamFacts.

(** X16. start() twice is start() once, on both streams: the second call
    finds the stream running (or, for a DEX stream without pools, finds
    nothing to do again), opens no second subscription and changes
    nothing. *)
Theorem start_twice_is_start_once (tr : Transport) (subs : Subscriptions) :
  (forall s : CurveStream,
     CurveStream_start tr (snd (CurveStream_start tr (s, subs)))
     = (Ok tt, snd (CurveStream_start tr (s, subs)))) /\
  (forall s : DexStream,
     DexStream_start tr (snd (DexStream_start tr (s, subs)))
     = (Ok tt, snd (DexStream_start tr (s, subs)))).
Proof.
  split; intros s; [apply CurveStream_start_twice|apply DexStream_start_twice].
Qed.

(** ** Starting and stopping on a transport that does not throw *)

Lemma unwatch_filter_fresh (active : list (nat * string)) (h : nat) :
  Forall (fun p => (fst p < h)%nat) active ->
  filter (fun p : nat * string => negb (Nat.eqb (fst p) h)) active = active.
Proof.
  induction 1 as [|p active Hp _ IH]; [reflexivity|].
  rewrite filter_cons, IH.
  destruct (Nat.eqb_spec (fst p) h) as [Heq|_]; [lia|]. simpl.
  destruct (decide (Is_true true)) as [|Hn]; [reflexivity|].
  exfalso. apply Hn. exact I.
Qed.

Lemma unwatch_filter_own (h : nat) (address : string) :
  filter (fun p : nat * string => negb (Nat.eqb (fst p) h)) [(h, address)] = [].
Proof.
  rewrite filter_cons. simpl. rewrite Nat.eqb_refl. simpl.
  destruct (decide (Is_true false)) as [Hf|]; [destruct Hf|reflexivity].
Qed.

Section QuietTransport.
Variable tr : Transport.
Hypothesis watch_works : forall h, watch_throws tr h = false.
Hypothesis unwatch_works : forall h, unwatch_throws tr h = false.

Lemma DexStream_watch_pools (pools : list string) :
  forall (s : DexStream) (subs : Subscriptions),
  for_each pools (DexStream_watchPoolEvents tr) (s, subs)
  = (Ok tt,
     (ds_set_watchFunctions
        (ds_watchFunctions s ++ seq (subs_issued subs) (length pools)) s,
      mkSubscriptions (subs_issued subs + length pools)
        (subs_active subs ++ zip (seq (subs_issued subs) (length pools)) pools))).
Proof.
  induction pools as [|pool pools IH]; intros s subs.
  - simpl. unfold ret. rewrite !app_nil_r, Nat.add_0_r. now destruct s, subs.
  - cbn [for_each]. unfold bind.
    unfold DexStream_watchPoolEvents at 1.
    unfold try_catch, bind, on_world, watch, update_this, modify, ret. simpl.
    rewrite watch_works. simpl. rewrite IH. simpl.
    rewrite <- !app_assoc. simpl.
    now replace (subs_issued subs + S (length pools))%nat
      with (S (subs_issued subs + length pools)) by lia.
Qed.

Lemma DexStream_unwatch_all (handles : list nat) :
  forall (s : DexStream) (issued : nat) (kept : list (nat * string)) (pools : list string),
  length pools = length handles ->
  Forall (fun p => Forall (fun h => (fst p < h)%nat) handles) kept ->
  NoDup handles ->
  for_each handles
    (fun unwatchFn => try_catch (on_world (unwatch tr unwatchFn)) (fun error => ret tt))
    (s, mkSubscriptions issued (kept ++ zip handles pools))
  = (Ok tt, (s, mkSubscriptions issued kept)).
Proof.
  induction handles as [|h handles IH]; intros s issued kept pools Hlen Hkept Hnodup.
  - destruct pools; [|discriminate]. simpl. unfold ret. now rewrite app_nil_r.
  - destruct pools as [|pool pools]; [discriminate|].
    cbn [for_each]. unfold bind, try_catch, on_world, unwatch. simpl.
    rewrite unwatch_works. simpl.
    rewrite filter_app, filter_cons. simpl. rewrite Nat.eqb_refl. simpl.
    destruct (decide (Is_true false)) as [Hf|_]; [destruct Hf|].
    rewrite unwatch_filter_fresh.
    2:{ eapply Forall_impl; [exact Hkept|]. intros p Hp. now inversion Hp. }
    assert (filter (fun p : nat * string => negb (Nat.eqb (fst p) h)) (zip handles pools)
            = zip handles pools) as ->.
    { apply NoDup_cons in Hnodup as [Hnotin _].
      clear -Hnotin. revert pools.
      induction handles as [|h' handles IH]; intros pools; [reflexivity|].
      destruct pools as [|pool pools]; [reflexivity|].
      cbn [zip zip_with]. rewrite filter_cons. simpl.
      destruct (Nat.eqb_spec h' h) as [->|_].
      - exfalso. apply Hnotin. now left.
      - simpl. destruct (decide (Is_true true)) as [|Hn]; [|exfalso; now apply Hn].
        f_equal. apply IH. intros Hin. apply Hnotin. now right. }
    apply IH.
    + simpl in Hlen. lia.
    + eapply Forall_impl; [exact Hkept|]. intros p Hp. now inversion Hp.
    + now apply NoDup_cons in Hnodup.
Qed.

(** X17. On a transport that does not throw, start() followed by stop()
    releases every subscription the stream opened: the client's active
    subscriptions are what they were before start().  The stream is left
    idle with no listener and no unwatch function; a bonding-curve stream
    keeps the event types start() may have filled in. *)
Theorem start_then_stop_releases (subs : Subscriptions) :
  subs_wf subs ->
  (forall s : CurveStream,
     cs_isRunning s = false ->
     CurveStream_stop tr (snd (CurveStream_start tr (s, subs)))
     = (Ok tt,
        (mkCurveStream (cs_bondingCurveAddress s)
           (if Nat.eqb (length (cs_eventTypes s)) 0
            then [Create; Buy; Sell; Sync; Lock; Listed] else cs_eventTypes s)
           (cs_tokenFilter s) ∅ false None 0
           (cs_maxReconnectAttempts s) (cs_reconnectDelay s),
         mkSubscriptions (S (subs_issued subs)) (subs_active subs)))) /\
  (forall s : DexStream,
     ds_isRunning s = false -> ds_watchFunctions s = [] -> ds_poolAddresses s <> [] ->
     DexStream_stop tr (snd (DexStream_start tr (s, subs)))
     = (Ok tt,
        (mkDexStream (ds_poolAddresses s) ∅ false [] 0
           (ds_maxReconnectAttempts s) (ds_reconnectDelay s),
         mkSubscriptions (subs_issued subs + length (ds_poolAddresses s))
                         (subs_active subs)))).
Proof.
  intros Hwf. split.
  - intros s Hidle. rewrite (CurveStream_start_idle tr s subs Hidle), watch_works.
    unfold CurveStream_stop, try_catch, bind, this, update_this, modify, on_world,
      unwatch, ret. simpl. rewrite unwatch_works. simpl.
    rewrite filter_app, unwatch_filter_own, app_nil_r.
    now rewrite unwatch_filter_fresh.
  - intros s Hidle Hnone Hpools.
    assert (DexStream_start tr (s, subs)
            = (Ok tt,
               (ds_set_watchFunctions
                  (seq (subs_issued subs) (length (ds_poolAddresses s)))
                  (ds_set_reconnectAttempts 0 (ds_set_isRunning true s)),
                mkSubscriptions (subs_issued subs + length (ds_poolAddresses s))
                  (subs_active subs
                   ++ zip (seq (subs_issued subs) (length (ds_poolAddresses s)))
                          (ds_poolAddresses s))))) as ->.
    { assert (Nat.eqb (length (ds_poolAddresses s)) 0 = false) as Hlen
        by (destruct (ds_poolAddresses s); [contradiction|reflexivity]).
      unfold DexStream_start, bind, this, update_this, modify. cbn [fst snd].
      rewrite Hidle, Hlen. cbv iota.
      rewrite DexStream_watch_pools. cbn [fst snd ds_watchFunctions
        ds_set_reconnectAttempts ds_set_isRunning subs_issued subs_active].
      rewrite Hnone. reflexivity. }
    unfold DexStream_stop, bind, this, update_this, modify. simpl.
    rewrite DexStream_unwatch_all.
    + reflexivity.
    + now rewrite length_seq.
    + eapply Forall_impl; [exact Hwf|]. intros p Hp. simpl in Hp.
      apply Forall_forall. intros h Hh. apply elem_of_seq in Hh. lia.
    + apply NoDup_seq.
Qed.
End QuietTransport.

(** ** The pool list of a DEX stream *)

Lemma set_has_false (l : list string) (x : string) : set_has l x = false <-> x ∉ l.
Proof. unfold set_has. now rewrite bool_decide_eq_false. Qed.

Lemma filter_known_addresses (known addresses : list string) :
  (forall pool, pool ∈ addresses -> pool ∈ known) ->
  filter (fun addr => set_has known addr = false) addresses = [].
Proof.
  induction addresses as [|a addresses IH]; intros Hknown; [reflexivity|].
  rewrite filter_cons.
  destruct (decide (set_has known a = false)) as [Hno|_].
  - exfalso. apply set_has_false in Hno. apply Hno, Hknown. now left.
  - apply IH. intros pool Hin. apply Hknown. now right.
Qed.

Lemma DexStream_addPoolAddresses_pools (tr : Transport) (addresses : list string)
    (s : DexStream) (subs : Subscriptions) :
  exists watchFunctions subs',
    DexStream_addPoolAddresses tr addresses (s, subs)
    = (Ok tt,
       (ds_set_watchFunctions watchFunctions
          (ds_set_poolAddresses
             (ds_poolAddresses s
              ++ filter (fun addr => set_has (ds_poolAddresses s) addr = false) addresses)
             s),
        subs')) /\
    (ds_isRunning s = false -> watchFunctions = ds_watchFunctions s /\ subs' = subs).
Proof.
  unfold DexStream_addPoolAddresses, bind, this, update_this, modify. cbn [fst snd].
  destruct (ds_isRunning s) eqn:Hrun.
  - destruct (DexStream_watch_pools_frame tr
                (filter (fun addr => set_has (ds_poolAddresses s) addr = false) addresses)
                (ds_set_poolAddresses
                   (ds_poolAddresses s
                    ++ filter (fun addr => set_has (ds_poolAddresses s) addr = false)
                              addresses) s) subs)
      as (wf & subs' & ->).
    exists wf, subs'. split; [reflexivity|discriminate].
  - exists (ds_watchFunctions s), subs. split; [|now split].
    unfold ret. now destruct s.
Qed.

(** X18. addPoolAddresses keeps the pools the stream has, in their order,
    and appends the given addresses that are not among them; given twice,
    the second call adds nothing.  A pool list without duplicates stays
    so when the addresses given are themselves distinct.  On an idle
    stream it opens no subscription.  removePoolAddresses drops the given
    addresses from the list and leaves the unwatch functions, and so the
    subscriptions of the dropped pools, in place. *)
Theorem pool_list_management (tr : Transport) (addresses : list string)
    (s : DexStream) (subs : Subscriptions) :
  let '(outcome, (s', subs')) := DexStream_addPoolAddresses tr addresses (s, subs) in
  outcome = Ok tt /\
  (exists added, ds_poolAddresses s' = ds_poolAddresses s ++ added) /\
  (forall pool, pool ∈ ds_poolAddresses s' <->
                pool ∈ ds_poolAddresses s \/ pool ∈ addresses) /\
  (NoDup (ds_poolAddresses s) -> NoDup addresses -> NoDup (ds_poolAddresses s')) /\
  (ds_isRunning s = false -> subs' = subs /\ ds_watchFunctions s' = ds_watchFunctions s) /\
  ds_poolAddresses (fst (snd (DexStream_addPoolAddresses tr addresses (s', subs'))))
  = ds_poolAddresses s' /\
  (forall pool, pool ∈ ds_poolAddresses (DexStream_removePoolAddresses addresses s') <->
                pool ∈ ds_poolAddresses s /\ pool ∉ addresses) /\
  ds_watchFunctions (DexStream_removePoolAddresses addresses s') = ds_watchFunctions s'.
Proof.
  destruct (DexStream_addPoolAddresses_pools tr addresses s subs)
    as (wf & subs' & -> & Hidle).
  set (new := filter (fun addr => set_has (ds_poolAddresses s) addr = false) addresses).
  assert (forall pool, pool ∈ new <-> pool ∈ addresses /\ pool ∉ ds_poolAddresses s)
    as Hnew.
  { intros pool. unfold new. rewrite list_elem_of_filter, set_has_false. tauto. }
  assert (forall pool, pool ∈ ds_poolAddresses s ++ new <->
                       pool ∈ ds_poolAddresses s \/ pool ∈ addresses) as Hall.
  { intros pool. rewrite elem_of_app, Hnew.
    destruct (decide (pool ∈ ds_poolAddresses s)); tauto. }
  split; [reflexivity|]. split; [exists new; reflexivity|].
  split; [exact Hall|]. split; [|split; [|split; [|split]]].
  - intros Hold Hadd. simpl. apply NoDup_app. split; [assumption|]. split.
    + intros pool Hin Hin'. apply Hnew in Hin'. tauto.
    + unfold new. now apply NoDup_filter.
  - intros Hrun. destruct (Hidle Hrun) as [-> ->]. now split.
  - destruct (DexStream_addPoolAddresses_pools tr addresses
                (ds_set_watchFunctions wf
                   (ds_set_poolAddresses (ds_poolAddresses s ++ new) s)) subs')
      as (wf2 & subs2 & -> & _).
    simpl.
    assert (filter (fun addr => set_has (ds_poolAddresses s ++ new) addr = false)
                   addresses = []) as ->; [|now rewrite app_nil_r].
    apply filter_known_addresses. intros pool Hin. apply Hall. now right.
  - intros pool. unfold DexStream_removePoolAddresses. simpl.
    rewrite list_elem_of_filter, set_has_false, Hall.
    split; [|tauto]. intros [Hnot [Hold|Hin]]; [tauto|contradiction].
  - reflexivity.
Qed.

(** ** Sniper bot: counters, filters and switches *)

Lemma count_handlers_app (p : Handler -> bool) (hs1 hs2 : list Handler) :
  count_handlers p (hs1 ++ hs2) = count_handlers p hs1 + count_handlers p hs2.
Proof. induction hs1 as [|h hs1 IH]; simpl; [reflexivity|]. rewrite IH. lia. Qed.

Lemma count_handlers_insert (p : Handler -> bool) (hs : list Handler) (i : nat)
    (old new : Handler) :
  hs !! i = Some old ->
  count_handlers p (<[i := new]> hs)
  = count_handlers p hs - (if p old then 1 else 0) + (if p new then 1 else 0).
Proof.
  revert i. induction hs as [|h hs IH]; intros i Hi; [discriminate|].
  destruct i as [|i]; simpl in *.
  - injection Hi as ->. lia.
  - rewrite (IH i Hi). lia.
Qed.

Section SniperBookkeeping.
Variable node : Node.
Variable account : string.

Lemma occur_keeps_counters (r : Running) (o : Occurrence) :
  counters_add_up r -> counters_add_up (occur node account r o).
Proof.
  unfold counters_add_up. intros (Hbuys & Hevents & Hauto).
  destruct o as [t event|t i shouldBuy|t i]; unfold occur.
  - unfold handleCreateEvent_begin, handleCreateEvent_buy, executeBuy_begin,
      bind, update_this, modify, this, on_world, Date_now, ret. simpl.
    repeat match goal with
           | |- context [if ?c then _ else _] => destruct c eqn:?; simpl
           end;
      rewrite !count_handlers_app; simpl;
      (split; [lia|split; [lia|]]);
      intros Hab;
      first [ discriminate Hab
            | congruence
            | first [ specialize (Hauto Hab) | specialize (Hauto eq_refl) ]; lia ].
  - destruct (run_handlers r !! i) as [[|event|event]|] eqn:Hi;
      try (repeat split; assumption).
    unfold handleCreateEvent_resume, handleCreateEvent_buy, executeBuy_begin,
      bind, update_this, modify, this, on_world, Date_now, ret.
    destruct shouldBuy as [[|]|error]; simpl;
      repeat match goal with
             | |- context [if ?c then _ else _] => destruct c eqn:?; simpl
             end;
      rewrite !(count_handlers_insert _ _ _ _ _ Hi); simpl;
      (split; [lia|split; [lia|]]);
      intros Hab;
      first [ discriminate Hab
            | congruence
            | first [ specialize (Hauto Hab) | specialize (Hauto eq_refl) ]; lia ].
  - destruct (run_handlers r !! i) as [[|event|event]|] eqn:Hi;
      try (repeat split; assumption).
    unfold executeBuy_finish, try_catch, bind, this, on_world, update_this, modify, ret.
    simpl.
    destruct (executeBuy_purchase node account (sb_config (run_bot r)) event
                (at_time t (run_world r))) as [[txHash|error] w'];
      simpl; rewrite !(count_handlers_insert _ _ _ _ _ Hi); simpl;
      (split; [lia|split; [lia|]]); intros Hab; specialize (Hauto Hab); lia.
Qed.

(** X19. Whatever happens to a sniper bot, in whatever order, its
    counters add up: every attempt counted in totalBuys has succeeded,
    has failed or is still under way, and every event counted in
    totalEvents was skipped, led to an attempt or is waiting for the
    token filter (with auto-buy off, events that pass the filters are
    counted in totalEvents only). *)
Theorem sniper_counters_add_up (config : SniperConfig) (w : World)
    (os : list Occurrence) :
  counters_add_up (run node account (mkRunning (SniperBot_new config) w [] []) os).
Proof.
  assert (forall r, counters_add_up r -> counters_add_up (run node account r os))
    as Hrun.
  { unfold run. induction os as [|o os IH]; intros r Hr; [exact Hr|].
    cbn [fold_left]. apply IH. now apply occur_keeps_counters. }
  apply Hrun. unfold counters_add_up. simpl. repeat split; lia.
Qed.
End SniperBookkeeping.

Section SniperSwitches.
Variable node : Node.
Variable account : string.

(** X20. With auto-buy switched off the bot only watches: whatever
    happens, it never starts an attempt, never stamps a buy time and
    never hands a transaction to the wallet. *)
Theorem sniper_without_auto_buy (config : SniperConfig) (w : World)
    (os : list Occurrence) :
  sc_autoBuy config = Some false ->
  let r := run node account (mkRunning (SniperBot_new config) w [] []) os in
  totalBuys (sb_stats (run_bot r)) = 0 /\
  sb_lastBuyTime (run_bot r) = 0 /\
  submitted (run_world r) = submitted w /\
  Forall (fun h => awaiting_purchase h = false) (run_handlers r).
Proof.
  intros Hoff.
  set (watching := fun r : Running =>
         truthy_bool (sc_autoBuy (sb_config (run_bot r))) = false /\
         totalBuys (sb_stats (run_bot r)) = 0 /\
         sb_lastBuyTime (run_bot r) = 0 /\
         submitted (run_world r) = submitted w /\
         Forall (fun h => awaiting_purchase h = false) (run_handlers r)).
  assert (forall r o, watching r -> watching (occur node account r o)) as Hstep.
  { unfold watching. intros r o (Hauto & Hbuys & Hlast & Hsub & Hnone).
    destruct o as [t event|t i shouldBuy|t i]; unfold occur.
    - unfold handleCreateEvent_begin, handleCreateEvent_buy, executeBuy_begin,
        bind, update_this, modify, this, on_world, Date_now, ret. simpl.
      repeat match goal with
             | |- context [if ?c then _ else _] => destruct c eqn:?; simpl
             end;
        try discriminate; try congruence;
        (repeat split; try assumption);
        apply Forall_app; (split; [assumption|]); now repeat constructor.
    - destruct (run_handlers r !! i) as [[|event|event]|] eqn:Hi;
        try (repeat split; assumption).
      unfold handleCreateEvent_resume, handleCreateEvent_buy, executeBuy_begin,
        bind, update_this, modify, this, on_world, Date_now, ret.
      destruct shouldBuy as [[|]|error]; simpl;
        repeat match goal with
               | |- context [if ?c then _ else _] => destruct c eqn:?; simpl
               end;
        try discriminate; try congruence;
        (repeat split; try assumption); now apply Forall_insert.
    - destruct (run_handlers r !! i) as [[|event|event]|] eqn:Hi;
        try (repeat split; assumption).
      exfalso. apply list_elem_of_lookup_2 in Hi.
      rewrite Forall_forall in Hnone. specialize (Hnone _ Hi). discriminate. }
  assert (forall r, watching r -> watching (run node account r os)) as Hrun.
  { unfold run. induction os as [|o os IH]; intros r Hr; [exact Hr|].
    cbn [fold_left]. apply IH. now apply Hstep. }
  destruct (Hrun (mkRunning (SniperBot_new config) w [] [])) as (_ & H1 & H2 & H3 & H4).
  - unfold watching. simpl. rewrite Hoff. repeat split. constructor.
  - repeat split; assumption.
Qed.

(** X21. The rate limit cannot be switched off: an interval of 0 counts
    as 1000 ms, like an interval left out.  An event that arrives less
    than 1000 ms after the last attempt is skipped. *)
Theorem zero_interval_is_one_second (r : Running) (t : Z) (event : BondingCurveEvent) :
  sc_minBuyInterval (sb_config (run_bot r)) = Some 0
  \/ sc_minBuyInterval (sb_config (run_bot r)) = None ->
  t - sb_lastBuyTime (run_bot r) < 1000 ->
  let r' := occur node account r (CreateEventDelivered t event) in
  skippedBuys (sb_stats (run_bot r')) = skippedBuys (sb_stats (run_bot r)) + 1 /\
  totalBuys (sb_stats (run_bot r')) = totalBuys (sb_stats (run_bot r)) /\
  sb_lastBuyTime (run_bot r') = sb_lastBuyTime (run_bot r) /\
  run_handlers r' = run_handlers r ++ [Finished].
Proof.
  intros Hinterval Hrecent.
  assert (effective_interval (sc_minBuyInterval (sb_config (run_bot r))) = 1000) as Heff
    by (destruct Hinterval as [-> | ->]; reflexivity).
  unfold occur, handleCreateEvent_begin, bind, update_this, modify, this,
    on_world, Date_now, ret. simpl. rewrite Heff.
  destruct (Z.ltb_spec (t - sb_lastBuyTime (run_bot r)) 1000); [|lia].
  simpl. repeat split.
Qed.

(** X22. A token that a non-empty whitelist does not list, or that the
    blacklist lists, is never bought, whatever the letter case of the
    addresses: the event is counted as skipped and its handler is done,
    with no attempt, no time stamp and no transaction.  An empty
    whitelist restricts nothing. *)
Theorem listed_tokens_are_skipped (r : Running) (t : Z) (event : BondingCurveEvent) :
  (exists whitelist,
     sc_tokenWhitelist (sb_config (run_bot r)) = Some whitelist /\ whitelist <> [] /\
     forall address, address ∈ whitelist ->
                     toLowerCase address <> toLowerCase (ev_token event))
  \/ (exists blacklist address,
        sc_tokenBlacklist (sb_config (run_bot r)) = Some blacklist /\
        address ∈ blacklist /\ toLowerCase address = toLowerCase (ev_token event)) ->
  let r' := occur node account r (CreateEventDelivered t event) in
  skippedBuys (sb_stats (run_bot r')) = skippedBuys (sb_stats (run_bot r)) + 1 /\
  totalBuys (sb_stats (run_bot r')) = totalBuys (sb_stats (run_bot r)) /\
  sb_lastBuyTime (run_bot r') = sb_lastBuyTime (run_bot r) /\
  submitted (run_world r') = submitted (run_world r) /\
  run_handlers r' = run_handlers r ++ [Finished] /\
  (forall config, sc_tokenWhitelist config = Some [] ->
                  not_whitelisted config event = false).
Proof.
  intros Hlisted.
  assert (not_whitelisted (sb_config (run_bot r)) event = true
          \/ blacklisted (sb_config (run_bot r)) event = true) as Hrejected.
  { destruct Hlisted as [(wl & Hwl & Hne & Hnone)|(bl & address & Hbl & Hin & Heq)].
    - left. unfold not_whitelisted. rewrite Hwl.
      assert (negb (Nat.eqb (length wl) 0) = true) as ->
        by (destruct wl; [contradiction|reflexivity]).
      rewrite andb_true_l. apply negb_true_iff.
      unfold some_address_matches. apply not_true_is_false. intros Hex.
      apply existsb_exists in Hex as (a' & Hin & Heq).
      apply String.eqb_eq in Heq. apply (Hnone a'); [|assumption].
      now apply list_elem_of_In.
    - right. unfold blacklisted. rewrite Hbl.
      assert (negb (Nat.eqb (length bl) 0) = true) as ->
        by (destruct bl; [now apply elem_of_nil in Hin|reflexivity]).
      rewrite andb_true_l.
      unfold some_address_matches. apply existsb_exists. exists address.
      split; [now apply list_elem_of_In|now apply String.eqb_eq]. }
  unfold occur, handleCreateEvent_begin, bind, update_this, modify, this,
    on_world, Date_now, ret. simpl.
  destruct (t - sb_lastBuyTime (run_bot r)
            <? effective_interval (sc_minBuyInterval (sb_config (run_bot r))));
    simpl; [repeat split; intros config Hc; unfold not_whitelisted; now rewrite Hc|].
  destruct (not_whitelisted (sb_config (run_bot r)) event) eqn:Hw;
    simpl; [repeat split; intros config Hc; unfold not_whitelisted; now rewrite Hc|].
  destruct Hrejected as [Hcontra|Hb]; [discriminate|]. rewrite Hb. simpl.
  repeat split. intros config Hc. unfold not_whitelisted. now rewrite Hc.
Qed.
End SniperSwitches.

(** ** Gas price, balance and slippage in the bots *)




(** X24. A purchase the wallet cannot afford is over after the balance
    read: the sniper counts a failed buy, tells the error callbacks, and
    hands no transaction to the wallet. *)
Theorem sniper_insufficient_balance (node : Node) (account : string) (b : SniperBot)
    (w : World) (event : BondingCurveEvent) (buyAmount balance : Z) :
  viem_parseUnits node (sc_buyAmount (sb_config b)) 18 = Ok buyAmount ->
  rpc_getBalance node (calls w) account = Ok balance ->
  balance < buyAmount ->
  executeBuy_finish node account event (b, w)
  = (Ok (map (fun callback =>
                mkNotification callback (ev_token event)
                  ("Insufficient balance: " ++ viem_formatUnits node balance 18
                   ++ " MON < " ++ sc_buyAmount (sb_config b) ++ " MON"))
             (sb_errorCallbacks b)),
     (set_stats incr_failedBuys b, after_call node w)) /\
  submitted (after_call node w) = submitted w.
Proof.
  intros Hparse Hbalance Hlow. split; [|reflexivity].
  unfold executeBuy_finish, try_catch, bind, this, on_world, update_this, modify, ret.
  cbn [fst snd]. unfold executeBuy_purchase, bind, lift_result, call.
  rewrite Hparse. cbn [fst snd]. rewrite Hbalance.
  destruct (Z.ltb_spec balance buyAmount); [|lia].
  unfold throw. cbn [fst snd]. unfold new_Error, message_or_string. simpl.
  reflexivity.
Qed.

Lemma sniper_insufficient_balance_witness :
  executeBuy_finish SampleBots.small_wallet Sample.alice SampleBots.first
    (SniperBot_onBuyError 4%nat
       (SniperBot_new (mkSniperConfig "7" 5 None None None None None false None)),
     SampleNode.world)
  = (Ok [mkNotification 4%nat Sample.tokenA "Insufficient balance: 5 MON < 7 MON"],
     (set_stats incr_failedBuys
        (SniperBot_onBuyError 4%nat
           (SniperBot_new (mkSniperConfig "7" 5 None None None None None false None))),
      after_call SampleBots.small_wallet SampleNode.world)).
Proof.
  apply (sniper_insufficient_balance SampleBots.small_wallet Sample.alice
           (SniperBot_onBuyError 4%nat
              (SniperBot_new (mkSniperConfig "7" 5 None None None None None false None)))
           SampleNode.world SampleBots.first (7 * 10 ^ 18) (5 * 10 ^ 18));
    [reflexivity|reflexivity|lia].
Defined.



(** ** Bundles *)

(** X26. Executing a bundle never rejects, whatever the node answers:
    it returns a list of records holding at least one and at most two
    records per operation, exactly one per operation when the bot does not
    wait for confirmations, and every record counts either as successful
    or as failed. *)
Theorem bundle_always_returns (node : Node) (account : string) (config : BundlerConfig)
    (operations : list BundledOperation) (w : World) :
  exists results w',
    execute node account config operations w = (Ok results, w') /\
    (length operations <= length results <= 2 * length operations)%nat /\
    (truthy_bool (bc_waitForConfirmation config) = false ->
     length results = length operations) /\
    (successful_count results + failed_count results = length results)%nat.
Proof. apply execute_results_shape. Qed.

Lemma bundle_always_returns_witness :
  exists results w',
    execute SampleBots.small_wallet Sample.alice
      (mkBundlerConfig None None None (Some false))
      [SampleBots.buy "1"; SampleBots.buy "7"] SampleNode.world = (Ok results, w') /\
    length results = 2%nat.
Proof.
  destruct (bundle_always_returns SampleBots.small_wallet Sample.alice
              (mkBundlerConfig None None None (Some false))
              [SampleBots.buy "1"; SampleBots.buy "7"] SampleNode.world)
    as (results & w' & Hrun & _ & Hoff & _).
  exists results, w'. split; [exact Hrun|]. apply Hoff. reflexivity.
Defined.

(** X27. A bundle is carried out in order and a failure stops nothing:
    executing two bundles one after the other, the second from the world
    the first left, gives the records of executing them as one bundle. *)
Theorem bundle_is_sequential (node : Node) (account : string) (config : BundlerConfig)
    (ops1 ops2 : list BundledOperation) (w : World) :
  exists results1 w1 results2 w2,
    execute node account config ops1 w = (Ok results1, w1) /\
    execute node account config ops2 w1 = (Ok results2, w2) /\
    execute node account config (ops1 ++ ops2) w = (Ok (results1 ++ results2), w2).
Proof. apply execute_app. Qed.

(** X28. Two ways a bundled operation fails before anything is signed.
    An operation whose type is none of buy, sell and sellPermit is
    recorded as failed without a single request to the node; a buy the
    wallet cannot afford is recorded as failed after the balance read.
    Neither hands a transaction to the wallet. *)
Theorem bundle_rejects_before_sending (node : Node) (account : string)
    (config : BundlerConfig) (operation : BundledOperation) (w : World) :
  (op_type operation <> "buy" -> op_type operation <> "sell" ->
   op_type operation <> "sellPermit" ->
   execute node account config [operation] w
   = (Ok [failed operation ("Unknown operation type: " ++ op_type operation)], w)) /\
  (forall amountIn balance,
     op_type operation = "buy" ->
     viem_parseUnits node (op_amountIn operation) 18 = Ok amountIn ->
     rpc_getBalance node (calls w) account = Ok balance ->
     balance < amountIn ->
     execute node account config [operation] w
     = (Ok [failed operation
              ("Insufficient balance: " ++ toString balance ++ " < " ++ toString amountIn)],
        after_call node w) /\
     submitted (after_call node w) = submitted w).
Proof.
  split.
  - intros Hbuy Hsell Hpermit.
    unfold execute, for_each, execute_turn, try_catch. unfold bind at 1 2.
    apply String.eqb_neq in Hbuy, Hsell, Hpermit. rewrite Hbuy, Hsell, Hpermit.
    unfold bind, push_result, update_this, modify, ret. cbn [fst snd].
    cbn [res_success failed]. rewrite andb_false_r. reflexivity.
  - intros amountIn balance Htype Hparse Hbalance Hlow. split; [|reflexivity].
    unfold execute, for_each, execute_turn, try_catch. unfold bind at 1 2.
    rewrite Htype. cbn [String.eqb Ascii.eqb Bool.eqb].
    unfold on_world, Bundler_executeBuy, try_catch, bind, lift_result, call.
    cbn [fst snd]. rewrite Hparse. cbn [fst snd]. rewrite Hbalance.
    destruct (Z.ltb_spec balance amountIn); [|lia].
    unfold push_result, update_this, modify, ret. cbn [fst snd].
    cbn [res_success failed]. rewrite andb_false_r. reflexivity.
Qed.

Lemma bundle_rejects_before_sending_witness :
  execute SampleBots.small_wallet Sample.alice SampleBots.bundler
    [mkBundledOperation "swap" Sample.tokenA "1" None] SampleNode.world
  = (Ok [failed (mkBundledOperation "swap" Sample.tokenA "1" None)
           "Unknown operation type: swap"], SampleNode.world) /\
  execute SampleBots.small_wallet Sample.alice SampleBots.bundler
    [SampleBots.buy "7"] SampleNode.world
  = (Ok [failed (SampleBots.buy "7")
           ("Insufficient balance: " ++ toString (5 * 10 ^ 18) ++ " < "
            ++ toString (7 * 10 ^ 18))],
     after_call SampleBots.small_wallet SampleNode.world).
Proof.
  split.
  - apply (proj1 (bundle_rejects_before_sending SampleBots.small_wallet Sample.alice
                    SampleBots.bundler
                    (mkBundledOperation "swap" Sample.tokenA "1" None) SampleNode.world));
      discriminate.
  - apply (proj2 (bundle_rejects_before_sending SampleBots.small_wallet Sample.alice
                    SampleBots.bundler (SampleBots.buy "7") SampleNode.world)
             (7 * 10 ^ 18) (5 * 10 ^ 18));
      [reflexivity|reflexivity|reflexivity|lia].
Defined.

(** ** The properties above on the sample data *)

Lemma DexIndexer_fetchAllEvents_agrees_witness :
  exists enough : nat, forall fuel : nat, (enough <= fuel)%nat ->
    DexIndexer_fetchAllEvents SampleStreams.dex_chain
      [SampleStreams.poolA; SampleStreams.poolB] fuel 1 2
    = Some (DexIndexer_fetchEvents SampleStreams.dex_chain
              [SampleStreams.poolA; SampleStreams.poolB] 1
              (dex_head SampleStreams.dex_chain)).
Proof.
  apply (DexIndexer_fetchAllEvents_agrees SampleStreams.dex_chain
           [SampleStreams.poolA; SampleStreams.poolB] 1 2).
  lia.
Defined.

Lemma CurveStream_start_swallows_watch_failure_witness :
  cs_isRunning (fst (snd (CurveStream_start SampleStreams.refusing
                            (CurveStream_new Sample.curve, SampleStreams.client)))) = true /\
  subs_active (snd (snd (CurveStream_start SampleStreams.refusing
                           (CurveStream_new Sample.curve, SampleStreams.client))))
  = subs_active SampleStreams.client.
Proof.
  pose proof (CurveStream_start_swallows_watch_failure SampleStreams.refusing
                (CurveStream_new Sample.curve) SampleStreams.client eq_refl) as H.
  destruct (CurveStream_start SampleStreams.refusing
              (CurveStream_new Sample.curve, SampleStreams.client))
    as [outcome [s' subs']].
  destruct H as (_ & Hrun & _ & _ & _ & _ & _ & _ & Hthrow).
  split; [exact Hrun|]. apply Hthrow. reflexivity.
Defined.

Lemma CurveStream_stop_with_failing_unwatch_witness :
  let s := mkCurveStream Sample.curve [Create] None ∅ true (Some 1%nat) 0 5 1000 in
  let subs := mkSubscriptions 2 [(0%nat, "0xother"); (1%nat, Sample.curve)] in
  cs_isRunning (fst (snd (CurveStream_stop SampleStreams.refusing (s, subs)))) = false /\
  snd (snd (CurveStream_stop SampleStreams.refusing (s, subs))) = subs.
Proof.
  intros s subs.
  pose proof (CurveStream_stop_with_failing_unwatch SampleStreams.refusing s subs 1%nat
                eq_refl eq_refl eq_refl) as H.
  destruct (CurveStream_stop SampleStreams.refusing (s, subs)) as [outcome [s' subs']].
  destruct H as (_ & Hsubs & Hidle & _). split; [exact Hidle|exact Hsubs].
Defined.

Lemma listener_registry_witness :
  CurveStream_removeListener "k3j9x"
    (CurveStream_onEvent "k3j9x" 1%nat (CurveStream_new Sample.curve))
  = CurveStream_new Sample.curve.
Proof.
  apply (proj1 (proj1 (listener_registry "k3j9x" 1%nat 2%nat)
                  (CurveStream_new Sample.curve))).
  reflexivity.
Defined.

Lemma start_then_stop_releases_witness :
  DexStream_stop SampleStreams.quiet
    (snd (DexStream_start SampleStreams.quiet
            (DexStream_new [SampleStreams.poolA; SampleStreams.poolB],
             SampleStreams.client)))
  = (Ok tt,
     (mkDexStream [SampleStreams.poolA; SampleStreams.poolB] ∅ false [] 0 5 1000,
      mkSubscriptions 3 (subs_active SampleStreams.client))).
Proof.
  assert (subs_wf SampleStreams.client) as Hwf
    by (unfold subs_wf; repeat constructor).
  apply (proj2 (start_then_stop_releases SampleStreams.quiet
                  (fun h => eq_refl) (fun h => eq_refl) SampleStreams.client Hwf)
           (DexStream_new [SampleStreams.poolA; SampleStreams.poolB]));
    [reflexivity|reflexivity|discriminate].
Defined.

Lemma pool_list_management_witness :
  snd (snd (DexStream_addPoolAddresses SampleStreams.quiet [SampleStreams.poolB; "0xnew"]
              (DexStream_new [SampleStreams.poolA], SampleStreams.client)))
  = SampleStreams.client.
Proof.
  pose proof (pool_list_management SampleStreams.quiet [SampleStreams.poolB; "0xnew"]
                (DexStream_new [SampleStreams.poolA]) SampleStreams.client) as H.
  destruct (DexStream_addPoolAddresses SampleStreams.quiet [SampleStreams.poolB; "0xnew"]
              (DexStream_new [SampleStreams.poolA], SampleStreams.client))
    as [outcome [s' subs']].
  destruct H as (_ & _ & _ & _ & Hidle & _).
  apply Hidle. reflexivity.
Defined.

Lemma sniper_without_auto_buy_witness :
  let r := run SampleNode.healthy Sample.alice
             (mkRunning
                (SniperBot_new (mkSniperConfig "1" 5 None None None None None false
                                               (Some false)))
                SampleNode.world [] [])
             [CreateEventDelivered 1700000000000 SampleBots.first;
              CreateEventDelivered 1700000002000 SampleBots.second] in
  totalBuys (sb_stats (run_bot r)) = 0 /\
  submitted (run_world r) = submitted SampleNode.world.
Proof.
  intros r.
  pose proof (sniper_without_auto_buy SampleNode.healthy Sample.alice
                (mkSniperConfig "1" 5 None None None None None false (Some false))
                SampleNode.world
                [CreateEventDelivered 1700000000000 SampleBots.first;
                 CreateEventDelivered 1700000002000 SampleBots.second]
                eq_refl) as H.
  cbv zeta in H. destruct H as (Hbuys & _ & Hsent & _).
  split; [exact Hbuys|exact Hsent].
Defined.

Lemma zero_interval_is_one_second_witness :
  let bot := SniperBot_new (mkSniperConfig "1" 5 None None (Some 0) None None false None) in
  let r := occur SampleNode.healthy Sample.alice
             (mkRunning bot SampleNode.world [] [])
             (CreateEventDelivered 1700000000000 SampleBots.first) in
  let r' := occur SampleNode.healthy Sample.alice r
              (CreateEventDelivered 1700000000001 SampleBots.second) in
  sb_lastBuyTime (run_bot r) = 1700000000000 /\
  skippedBuys (sb_stats (run_bot r')) = skippedBuys (sb_stats (run_bot r)) + 1 /\
  totalBuys (sb_stats (run_bot r')) = totalBuys (sb_stats (run_bot r)).
Proof.
  intros bot r r'. split; [reflexivity|].
  pose proof (zero_interval_is_one_second SampleNode.healthy Sample.alice r
                1700000000001 SampleBots.second (or_introl eq_refl)) as H.
  cbv zeta in H. destruct H as (Hskip & Hbuys & _); [vm_compute; reflexivity|].
  split; [exact Hskip|exact Hbuys].
Defined.

Lemma listed_tokens_are_skipped_witness :
  let bot := SniperBot_new (mkSniperConfig "1" 5 None None None None
                                           (Some [Sample.tokenA_mixed])
                                           false None) in
  let r := mkRunning bot SampleNode.world [] [] in
  let r' := occur SampleNode.healthy Sample.alice r
              (CreateEventDelivered 1700000000000 SampleBots.first) in
  skippedBuys (sb_stats (run_bot r')) = 1 /\ totalBuys (sb_stats (run_bot r')) = 0 /\
  submitted (run_world r') = [].
Proof.
  intros bot r r'.
  pose proof (listed_tokens_are_skipped SampleNode.healthy Sample.alice r
                1700000000000 SampleBots.first) as H.
  cbv zeta in H. destruct H as (Hskip & Hbuys & _ & Hsent & _).
  - right. exists [Sample.tokenA_mixed], Sample.tokenA_mixed.
    split; [reflexivity|]. split; [apply list_elem_of_here|reflexivity].
  - split; [exact Hskip|]. split; [exact Hbuys|exact Hsent].
Defined.
